(** * The terminal progress display of wordfence-cli

    A shallow embedding of [wordfence/cli/scan/progress.py]: the box
    hierarchy ([Box], [MetricBox], [BannerBox], [LogBox]), the greedy row
    layout ([BoxLayout]) and the controller ([ProgressDisplay]) with the
    process-wide registry of live displays.

    Conventions of the embedding.
    - Python integers are [Z]; [len] results are [Z.of_nat (length _)].
    - A Python [str] is a [list ascii]; messages of exceptions are [string].
    - Objects live in a heap (a list indexed by object identity), so that
      the two lists of a layout and the fields of a display alias the same
      boxes, as they do in Python.
    - A method that mutates [self] and may raise is a function from the state
      to the new state paired with an [outcome]: the mutations made before a
      [raise] persist, as in Python.
    - curses is outside the repository.  Its calls have no effect on the
      state modelled here.  Where the source handles a curses failure in a
      way that is visible in that state the failure is decided by an oracle
      of the section [Curses]: [addstr_ok] ([LogBox.draw_content] leaves its
      loop) and [move_ok] ([Box.set_position] raises [ValueError]).  Calls
      whose failure the source swallows without a visible effect, and calls
      without a handler, are taken to succeed.
    - [int(a / b)] on integers is the quotient truncated toward zero
      ([Z.quot]); the double-precision quotient of the source truncates to
      it whenever [|a| < 2^53], far above any terminal extent. *)

From Stdlib Require Import ZArith List String Ascii Bool Lia DecimalString.
From Stdlib Require Import Floats.SpecFloat.
From stdpp Require Import base list.

Import ListNotations.
Local Open Scope Z_scope.

(** ** Python values *)

Definition str := list ascii.

Definition len {A} (l : list A) : Z := Z.of_nat (length l).

(** The index at which a slice bound [c] falls in a sequence of length
    [n]: a negative bound counts from the end and is clamped at 0. *)
Definition slice_index (n : nat) (c : Z) : nat :=
  if c <? 0 then Z.to_nat (Z.max 0 (Z.of_nat n + c)) else Z.to_nat c.

(** [s[:c]] *)
Definition slice_to {A} (s : list A) (c : Z) : list A :=
  firstn (slice_index (length s) c) s.

(** [s[c:]] *)
Definition slice_from {A} (s : list A) (c : Z) : list A :=
  skipn (slice_index (length s) c) s.

(** [s.ljust(w)] and [s.rjust(w)] with the default fill character. *)
Definition ljust (s : str) (w : Z) : str :=
  s ++ repeat " "%char (Z.to_nat (w - len s)).

Definition rjust (s : str) (w : Z) : str :=
  repeat " "%char (Z.to_nat (w - len s)) ++ s.

(** [round(d / 2)] for an integer [d]: Python rounds a half to the even
    neighbour. *)
Definition round_half (d : Z) : Z :=
  let k := d / 2 in
  if Z.even d then k else if Z.even k then k else k + 1.

(** [int(a / b)] for integers [a] and [b]. *)
Definition int_div (a b : Z) : Z := Z.quot a b.

(** [str(v)] for an integer [v]. *)
Definition str_of_int (v : Z) : str :=
  list_ascii_of_string (NilZero.string_of_int (Z.to_int v)).

(** ** Exceptions and outcomes *)

#[warnings="-register-all"]
Inductive Exn : Type :=
| ProgressException (msg : string) (cause : option Exn)
| ValueError (msg : string) (cause : option Exn)
| AttributeError (msg : string)
| OverflowError (msg : string)
| ZeroDivisionError (msg : string)
| IndexError (msg : string)
| OtherException (tag : nat).

Inductive outcome (A : Type) : Type :=
| Return (a : A)
| Raise (e : Exn).
Arguments Return {A} a.
Arguments Raise {A} e.

(** Stateful, fallible computations: the state survives a raise. *)
Definition M (S A : Type) : Type := S -> S * outcome A.

Definition ret {S A} (a : A) : M S A := fun s => (s, Return a).

Definition raise {S A} (e : Exn) : M S A := fun s => (s, Raise e).

Definition bind {S A B} (m : M S A) (k : A -> M S B) : M S B :=
  fun s =>
    match m s with
    | (s', Return a) => k a s'
    | (s', Raise e) => (s', Raise e)
    end.

(** [try: m except Exception as e: h e] *)
Definition try_except {S A} (m : M S A) (h : Exn -> M S A) : M S A :=
  fun s =>
    match m s with
    | (s', Return a) => (s', Return a)
    | (s', Raise e) => h e s'
    end.

Definition get {S} : M S S := fun s => (s, Return s).
Definition gets {S A} (f : S -> A) : M S A := fun s => (s, Return (f s)).
Definition modify {S} (f : S -> S) : M S unit := fun s => (f s, Return tt).

Notation "'let!' x ':=' m 'in' k" := (bind m (fun x => k))
  (at level 10, x name, m at level 200, k at level 200).
Notation "'run!' m 'in' k" := (bind m (fun _ => k))
  (at level 10, m at level 200, k at level 200).

(** ** Python floats: IEEE 754 binary64 *)

Definition float : Type := spec_float.

Definition prec : Z := 53.
Definition emax : Z := 1024.

(** The conversion of an integer operand to a float: round to nearest,
    ties to even; a magnitude beyond the largest float is an error. *)
Definition float_of_int (v : Z) : outcome float :=
  match binary_normalize prec emax v 0 false with
  | S754_infinity _ =>
      Raise (OverflowError "int too large to convert to float")
  | f => Return f
  end.

(** [f > 0] *)
Definition float_gt_zero (f : float) : bool := SFltb (S754_zero false) f.

(** [v / t] for an integer [v] and a float [t]. *)
Definition truediv (v : Z) (t : float) : outcome float :=
  match float_of_int v with
  | Raise e => Raise e
  | Return a =>
      if SFeqb t (S754_zero false)
      then Raise (ZeroDivisionError "float division by zero")
      else Return (SFdiv prec emax a t)
  end.

(** [int(f)]: the float truncated toward zero. *)
Definition int_of_float (f : float) : outcome Z :=
  match f with
  | S754_zero _ => Return 0
  | S754_finite s m e => Return (cond_Zopp s (Z.shiftl (Zpos m) e))
  | S754_infinity _ =>
      Raise (OverflowError "cannot convert float infinity to integer")
  | S754_nan => Raise (ValueError "cannot convert float NaN to integer" None)
  end.


(** ** [collections.deque] with an optional [maxlen] *)

Record deque (A : Type) : Type := mkDeque {
  items : list A;
  maxlen : option nat
}.
Arguments mkDeque {A} items maxlen.
Arguments items {A} d.
Arguments maxlen {A} d.

(** [deque(maxlen=n)]: a negative bound is rejected. *)
Definition new_deque {A} (n : option Z) : outcome (deque A) :=
  match n with
  | None => Return (mkDeque [] None)
  | Some z =>
      if z <? 0 then Raise (ValueError "maxlen must be non-negative" None)
      else Return (mkDeque [] (Some (Z.to_nat z)))
  end.

(** [d.append(x)]: a full deque discards its leftmost item. *)
Definition append {A} (d : deque A) (x : A) : deque A :=
  match maxlen d with
  | None => mkDeque (items d ++ [x]) None
  | Some O => d
  | Some n =>
      if (length (items d) <? n)%nat then mkDeque (items d ++ [x]) (Some n)
      else mkDeque (skipn 1 (items d) ++ [x]) (Some n)
  end.

(** [d.appendleft(x)]: a full deque discards its rightmost item. *)
Definition appendleft {A} (d : deque A) (x : A) : deque A :=
  match maxlen d with
  | None => mkDeque (x :: items d) None
  | Some O => d
  | Some n =>
      if (length (items d) <? n)%nat then mkDeque (x :: items d) (Some n)
      else mkDeque (x :: removelast (items d)) (Some n)
  end.

(** ** Boxes *)

Definition METRIC_BOX_WIDTH : Z := 39.

Definition DEFAULT_MAX_MESSAGES : Z := 512.

Record Position : Type := mkPosition { y : Z; x : Z }.

Record LayoutProperties : Type := mkLayoutProperties {
  lp_lines : Z;
  lp_current_line : Z;
  lp_max_row_width : Z
}.

Record Metric : Type := mkMetric { label : str; value : str }.

(** The banner of [get_welcome_banner]: its declared extents and rows. *)
Record Banner : Type := mkBanner {
  column_count : Z;
  row_count : Z;
  rows : list str
}.

(** The attributes [LogBox] adds to [Box].  [cursor_offset] is assigned by
    [draw_content] only: [None] stands for an instance without that
    attribute. *)
Record LogFields : Type := mkLogFields {
  columns : Z;
  lines : Z;
  messages : deque str;
  cursor_position : option Position;
  cursor_offset : option Position
}.

Inductive BoxVariant : Type :=
| MetricBox (metrics : list Metric)
| BannerBox (banner : Banner)
| LogBox (log : LogFields).

(** [window] records whether [self.window] is set. *)
Record Box : Type := mkBox {
  border : bool;
  title : option str;
  window : bool;
  position : option Position;
  last_size : option (Z * Z);
  variant : BoxVariant
}.

Definition set_variant (v : BoxVariant) (b : Box) : Box :=
  mkBox (border b) (title b) (window b) (position b) (last_size b) v.

Definition set_last_size (sz : Z * Z) (b : Box) : Box :=
  mkBox (border b) (title b) (window b) (position b) (Some sz) (variant b).

Definition set_window_at (p : Position) (b : Box) : Box :=
  mkBox (border b) (title b) true (Some p) (last_size b) (variant b).

Definition set_box_position (p : Position) (b : Box) : Box :=
  mkBox (border b) (title b) (window b) (Some p) (last_size b) (variant b).

Definition set_title (t : str) (b : Box) : Box :=
  mkBox (border b) (Some t) (window b) (position b) (last_size b) (variant b).

(** Constructors. *)
Definition new_MetricBox (metrics : list Metric) (title : option str) : Box :=
  mkBox true title false None None (MetricBox metrics).

Definition new_BannerBox (banner : Banner) : Box :=
  mkBox false None false None None (BannerBox banner).

Definition _determine_max_messages (self_lines max_messages : Z) : option Z :=
  if max_messages <? 0 then None
  else if max_messages =? 0 then Some (Z.max self_lines DEFAULT_MAX_MESSAGES)
  else Some max_messages.

Definition new_LogBox (columns lines max_messages : Z) : outcome Box :=
  match new_deque (_determine_max_messages lines max_messages) with
  | Raise e => Raise e
  | Return q =>
      Return (mkBox true None false None None
                (LogBox (mkLogFields columns lines q None None)))
  end.

Definition get_width (b : Box) : Z :=
  match variant b with
  | MetricBox _ => METRIC_BOX_WIDTH
  | BannerBox banner => column_count banner
  | LogBox log => columns log
  end.

Definition get_height (b : Box) : Z :=
  match variant b with
  | MetricBox metrics => len metrics
  | BannerBox banner => row_count banner
  | LogBox log => lines log
  end.

(** The [(height, width)] that [compute_size] returns. *)
Definition size_of (b : Box) : Z * Z :=
  if border b then (get_height b + 2, get_width b + 2)
  else (get_height b, get_width b).

Definition compute_size : M Box (Z * Z) :=
  fun b => (set_last_size (size_of b) b, Return (size_of b)).

Definition get_border_offset (b : Box) : Z := if border b then 1 else 0.

(** The column at which [render] writes the title of a box that is [width]
    columns wide. *)
Definition title_offset (width : Z) (title : str) : Z :=
  let title_length := len title in
  if title_length <? width then int_div (width - title_length) 2 else 0.

(** The line [MetricBox.draw_content] writes for a metric in a box whose
    content is [width] columns wide. *)
Definition metric_line (width : Z) (metric : Metric) : str :=
  let label := label metric ++ [":"%char] in
  let value_string := rjust (value metric) (width - len label) in
  label ++ value_string.

(** *** The log box *)

(** The [while len(message)] loop of [_map_messages_to_lines]: cut
    [message] into slices of [columns] characters while lines remain.  Every
    turn uses up one of the [remaining] lines, which bounds the loop. *)
Fixpoint wrap_message (columns : Z) (remaining : nat) (message : str)
  : list str * nat :=
  match message with
  | [] => ([], remaining)
  | _ :: _ =>
      match remaining with
      | O => ([], O)
      | S r =>
          let '(message_lines, r') :=
            wrap_message columns r (slice_from message columns) in
          (slice_to message columns :: message_lines, r')
      end
  end.

(** The [for message in reversed(self.messages)] loop: [newest_first] is
    the reversed queue. *)
Fixpoint map_loop (columns : Z) (newest_first : list str) (remaining : nat)
  (lines : deque str) : deque str :=
  match newest_first with
  | [] => lines
  | message :: older =>
      match remaining with
      | O => lines
      | S _ =>
          let '(message_lines, r') := wrap_message columns remaining message in
          map_loop columns older r'
            (fold_left appendleft (rev message_lines) lines)
      end
  end.

Definition _map_messages_to_lines (log : LogFields) (offset : Z)
  : outcome (deque str) :=
  match new_deque (Some (lines log)) with
  | Raise e => Raise e
  | Return d =>
      Return (map_loop (columns log) (rev (items (messages log)))
                (Z.to_nat (lines log)) d)
  end.

Definition resize_for_layout_log (properties : LayoutProperties)
  : M LogFields bool :=
  fun log =>
    let log' :=
      mkLogFields (lp_max_row_width properties - 2)
                  (lp_lines properties - lp_current_line properties - 2)
                  (messages log) None (cursor_offset log) in
    if lines log' <? 3
    then (log', Raise (ProgressException
                  "Insufficient space available to display log messages" None))
    else (log', Return true).

(** [Box.resize_for_layout], overridden by [LogBox] only. *)
Definition resize_for_layout (properties : LayoutProperties) : M Box bool :=
  fun b =>
    match variant b with
    | LogBox log =>
        let '(log', r) := resize_for_layout_log properties log in
        (set_variant (LogBox log') b, r)
    | _ => (b, Return false)
    end.

(** [LogBox.get_cursor_position]: reading the attribute [cursor_offset] of
    an instance that never drew its content fails. *)
Definition get_cursor_position (b : Box) : outcome Position :=
  match variant b with
  | LogBox log =>
      let y0 := 0 in
      let x0 := 0 in
      let '(y1, x1) :=
        match position b with
        | Some p => (y0 + y p, x0 + x p)
        | None => (y0, x0)
        end in
      match cursor_offset log with
      | None =>
          Raise (AttributeError
                   "'LogBox' object has no attribute 'cursor_offset'")
      | Some o => Return (mkPosition (y1 + y o) (x1 + x o))
      end
  | _ =>
      Raise (AttributeError "object has no attribute 'get_cursor_position'")
  end.

(** ** The collaborators outside the repository

    [addstr_ok y x s]: curses accepts writing [s] at row [y], column [x] of
    a window.  [move_ok y x]: curses accepts moving a window to [(y, x)].
    [filter_control_characters] is [wordfence.util.unicode]'s function,
    [get_welcome_banner] the banner module's and [ScanMetrics n] the
    [get_int_metric] of the scanner's fresh metrics for [n] workers; none
    of them is part of the sources at hand. *)
Record External : Type := mkExternal {
  addstr_ok : Z -> Z -> str -> bool;
  move_ok : Z -> Z -> bool;
  filter_control_characters : str -> str;
  get_welcome_banner : option Banner;
  ScanMetrics : Z -> string -> option Z -> outcome Z
}.

(** The exception curses raises when it rejects a call. *)
Definition curses_error : Exn := OtherException 0.

Section Boxes.

Context (ext : External).

(** The loop of [LogBox.draw_content]; it returns the values of
    [last_line_number] and [last_line_length] on leaving the loop. *)
Fixpoint draw_lines (columns offset : Z) (ls : list str)
  (line_number last_line_number last_line_length : Z) : Z * Z :=
  match ls with
  | [] => (last_line_number, last_line_length)
  | line :: rest =>
      let last_line_number := line_number in
      let last_line_length := len line in
      let line := ljust line columns in
      if addstr_ok ext line_number offset line
      then draw_lines columns offset rest
             (line_number + 1) last_line_number last_line_length
      else (last_line_number, last_line_length)
  end.

Definition draw_content_log (offset : Z) : M LogFields unit :=
  fun log =>
    let line_number := offset in
    let last_line_number := line_number in
    let last_line_length := 0 in
    match _map_messages_to_lines log offset with
    | Raise e => (log, Raise e)
    | Return ls =>
        let '(n, l) :=
          draw_lines (columns log) offset (items ls)
            line_number last_line_number last_line_length in
        (mkLogFields (columns log) (lines log) (messages log)
           (cursor_position log) (Some (mkPosition n l)),
         Return tt)
    end.

(** [draw_content]: the metric and banner boxes only write to their
    window. *)
Definition draw_content : M Box unit :=
  fun b =>
    match variant b with
    | LogBox log =>
        let '(log', r) := draw_content_log (get_border_offset b) log in
        (set_variant (LogBox log') b, r)
    | _ => (b, Return tt)
    end.

Definition _initialize_window (y x : Z) : M Box unit :=
  run! compute_size in
  modify (set_window_at (mkPosition y x)).

Definition _require_window : M Box unit :=
  fun b => if window b then (b, Return tt) else _initialize_window 0 0 b.

Definition render : M Box unit :=
  run! _require_window in
  run! compute_size in
  try_except draw_content (fun _ => ret tt).

Definition update : M Box unit := render.

(** [Box.resize]: the extents only reach the curses window. *)
Definition resize (lines cols : option Z) : M Box unit :=
  fun b =>
    if window b
    then (run! compute_size in update) b
    else (b, Return tt).

Definition set_position (y x : Z) : M Box unit :=
  fun b =>
    if window b
    then
      (run! resize (Some 1) (Some 1) in
       run! (if move_ok ext y x
             then modify (set_box_position (mkPosition y x))
             else raise (ValueError "error moving window" (Some curses_error))) in
       resize None None) b
    else _initialize_window y x b.

Definition add_message (message : str) : M Box unit :=
  fun b =>
    match variant b with
    | LogBox log =>
        let log' :=
          mkLogFields (columns log) (lines log)
            (append (messages log) (filter_control_characters ext message))
            (cursor_position log) (cursor_offset log) in
        update (set_variant (LogBox log') b)
    | _ => (b, Raise (AttributeError "object has no attribute 'add_message'"))
    end.

End Boxes.

#[global] Instance Box_inhabited : Inhabited Box :=
  populate (mkBox false None false None None (MetricBox [])).

(** ** The layout *)

Module BoxLayout.

Record t : Type := mk {
  lines : Z;
  cols : Z;
  padding : Z;
  current_line : Z;
  _content : list (option nat);
  _unpositioned : list (option nat);
  max_row_width : Z
}.

(** A layout together with the heap of boxes its lists refer to. *)
Record state : Type := mkState {
  self : t;
  heap : list Box
}.

Definition init (lines cols padding : Z) : t :=
  mk lines cols padding 0 [] [] 0.

Definition add_box (box : nat) (l : t) : t :=
  mk (lines l) (cols l) (padding l) (current_line l)
     (_content l ++ [Some box]) (_unpositioned l ++ [Some box])
     (max_row_width l).

Definition add_break (l : t) : t :=
  mk (lines l) (cols l) (padding l) (current_line l)
     (_content l ++ [None]) (_unpositioned l ++ [None])
     (max_row_width l).

Definition get_layout_properties (l : t) : LayoutProperties :=
  mkLayoutProperties (lines l) (current_line l) (max_row_width l).

(** Run a method of the box with identity [box]. *)
Definition on_box {A} (box : nat) (m : M Box A) : M state A :=
  fun s =>
    let '(b', r) := m (heap s !!! box) in
    (mkState (self s) (<[box := b']> (heap s)), r).

Definition on_self (f : t -> t) : M state unit :=
  fun s => (mkState (f (self s)) (heap s), Return tt).

(** The locals of the first loop of [_position_row]. *)
Record row_vars : Type := mkRowVars {
  positioned : list (nat * Z * Z);
  extra : list nat;
  row_width : Z;
  unpadded_row_width : Z;
  row_height : Z
}.

Definition row_vars0 : row_vars := mkRowVars [] [] 0 0 0.

Section Positioning.

Context (ext : External).

(** First loop of [_position_row]: measure the boxes and split the row
    into the boxes placed on it and the ones left for later rows. *)
Fixpoint measure_row (row : list nat) (v : row_vars) : M state row_vars :=
  match row with
  | [] => ret v
  | box :: rest =>
      let! properties := gets (fun s => get_layout_properties (self s)) in
      run! on_box box (resize_for_layout properties) in
      let! size := on_box box compute_size in
      let '(height, width) := size in
      let! l := gets self in
      let required_width := width + padding l in
      if negb (len (positioned v) =? 0) &&
         (negb (len (extra v) =? 0) ||
          (row_width v + required_width >? cols l))
      then
        measure_row rest
          (mkRowVars (positioned v) (extra v ++ [box]) (row_width v)
             (unpadded_row_width v) (row_height v))
      else
        let row_width' := row_width v + required_width in
        if row_width' >? cols l
        then raise (ProgressException "Insufficient columns available" None)
        else
          measure_row rest
            (mkRowVars (positioned v ++ [(box, height, width)]) (extra v)
               row_width' (unpadded_row_width v + width)
               (Z.max (row_height v) height))
  end.

(** Second loop of [_position_row]; it returns [final_row_width]. *)
Fixpoint place_row (positioned : list (nat * Z * Z))
  (row_height padding x final_row_width previous_padding : Z) : M state Z :=
  match positioned with
  | [] => ret final_row_width
  | (box, height, width) :: rest =>
      let final_row_width := final_row_width + previous_padding in
      let! l := gets self in
      let y := current_line l + round_half (row_height - height) in
      run! on_box box (set_position ext y x) in
      place_row rest row_height padding (x + width + padding)
        (final_row_width + width) padding
  end.

Definition _position_row (row : list nat) : M state (list nat) :=
  let! v := measure_row row row_vars0 in
  let! l := gets self in
  if current_line l + row_height v >? lines l
  then raise (ProgressException "Insufficient lines available" None)
  else
    let box_count := len (positioned v) in
    let padding := int_div (cols l - unpadded_row_width v) (box_count + 1) in
    let padded_width := unpadded_row_width v + padding * (box_count + 1) in
    let x := padding + int_div (cols l - padded_width) 2 in
    let! final_row_width :=
      place_row (positioned v) (row_height v) padding x 0 0 in
    run! on_self (fun l =>
           mk (lines l) (cols l) (BoxLayout.padding l)
              (current_line l + row_height v + BoxLayout.padding l)
              (_content l) (_unpositioned l)
              (Z.max (max_row_width l) final_row_width)) in
    ret (extra v).

(** The [for item in items] loop of [position]. *)
Fixpoint position_items (items : list (option nat)) (row : list nat)
  : M state (list nat) :=
  match items with
  | [] => ret row
  | None :: rest =>
      let! row := _position_row row in
      position_items rest row
  | Some item :: rest => position_items rest (row ++ [item])
  end.

(** The [while len(row)] loop of [position].  A turn that leaves the loop
    running needs fuel; [FuelExhausted] marks a run that was cut short. *)
Definition FuelExhausted : Exn := OtherException 1.

Fixpoint position_rest (fuel : nat) (row : list nat) : M state unit :=
  match row with
  | [] => ret tt
  | _ :: _ =>
      match fuel with
      | O => raise FuelExhausted
      | S fuel =>
          let! row := _position_row row in
          position_rest fuel row
      end
  end.

Definition position : M state unit :=
  let! items := gets (fun s => _unpositioned (self s)) in
  let! row := position_items items [] in
  run! position_rest (length row) row in
  on_self (fun l =>
    mk (lines l) (cols l) (padding l) (current_line l)
       (_content l) [] (max_row_width l)).

(** The [for item in self._content] loop of [update_content]. *)
Fixpoint update_items (items : list (option nat)) : M state unit :=
  match items with
  | [] => ret tt
  | None :: rest => update_items rest
  | Some item :: rest =>
      run! on_box item (update ext) in
      update_items rest
  end.

Definition update_content : M state unit :=
  let! items := gets (fun s => _content (self s)) in
  update_items items.

Definition reset : M state unit :=
  on_self (fun l =>
    mk (lines l) (cols l) (padding l) 0 (_content l) (_content l) 0).

Definition resize (lines cols : Z) : M state unit :=
  run! on_self (fun l =>
         mk lines cols (padding l) (current_line l)
            (_content l) (_unpositioned l) (max_row_width l)) in
  run! reset in
  position.

End Positioning.

End BoxLayout.

(** ** The controller and the registry of live displays *)

Module ProgressDisplay.

Definition METRICS_PADDING : Z := 1.
Definition METRICS_COUNT : Z := 5.
Definition MIN_MESSAGE_BOX_HEIGHT : Z := 4.

(** [os.terminal_size] *)
Record terminal_size : Type := mkSize { size_columns : Z; size_lines : Z }.

(** A [ScanProgressUpdate] of the scanner, which is outside the sources at
    hand: its elapsed time and the [get_int_metric] of its metrics. *)
Record ScanProgressUpdate : Type := mkUpdate {
  elapsed_time : float;
  get_int_metric : string -> option Z -> outcome Z
}.

Record t : Type := mk {
  worker_count : Z;
  results_message : option str;
  pending_resize : bool;
  term_size : terminal_size;
  banner_box : option nat;
  metric_boxes : list nat;
  log_box : nat;
  layout : BoxLayout.t
}.

(** The calls the controller makes on curses and on its layout, in the
    order it makes them. *)
Inductive call : Type :=
| Initscr
| Noecho
| Curs_set (visibility : Z)
| Endwin
| Resizeterm (lines cols : Z)
| Stdscr_clear
| Stdscr_erase
| Stdscr_refresh
| Stdscr_resize (lines cols : Z)
| Stdscr_noutrefresh
| Doupdate
| Layout_resize (display : nat) (lines cols : Z)
| Layout_update_content (display : nat).

(** The state of the terminal: [Visual] from [initscr] until [endwin]
    hands it back. *)
Inductive terminal_mode : Type := Normal | Visual.

(** The process: the module-level list [_displays], the display objects by
    identity, the heap of boxes, the terminal and the size the operating
    system reports for it, and the calls made so far. *)
Record world : Type := mkWorld {
  _displays : list nat;
  objects : list t;
  boxes : list Box;
  mode : terminal_mode;
  os_terminal_size : terminal_size;
  calls : list call
}.

#[global] Instance t_inhabited : Inhabited t :=
  populate (mk 0 None false (mkSize 0 0) None [] 0 (BoxLayout.init 0 0 0)).

Definition set_displays (ds : list nat) (w : world) : world :=
  mkWorld ds (objects w) (boxes w) (mode w) (os_terminal_size w) (calls w).

Definition set_object (display : nat) (d : t) (w : world) : world :=
  mkWorld (_displays w) (<[display := d]> (objects w)) (boxes w) (mode w)
    (os_terminal_size w) (calls w).

Definition set_boxes (bs : list Box) (w : world) : world :=
  mkWorld (_displays w) (objects w) bs (mode w) (os_terminal_size w) (calls w).

Definition set_mode (m : terminal_mode) (w : world) : world :=
  mkWorld (_displays w) (objects w) (boxes w) m (os_terminal_size w) (calls w).

Definition record (c : call) (w : world) : world :=
  mkWorld (_displays w) (objects w) (boxes w) (mode w) (os_terminal_size w)
    (calls w ++ [c]).

Definition do (c : call) : M world unit := modify (record c).

Definition self (display : nat) : M world t :=
  gets (fun w => objects w !!! display).

Definition on_self (display : nat) (f : t -> t) : M world unit :=
  modify (fun w => set_object display (f (objects w !!! display)) w).

Definition set_pending_resize (v : bool) (d : t) : t :=
  mk (worker_count d) (results_message d) v (term_size d) (banner_box d)
     (metric_boxes d) (log_box d) (layout d).

Definition set_term_size (size : terminal_size) (d : t) : t :=
  mk (worker_count d) (results_message d) (pending_resize d) size
     (banner_box d) (metric_boxes d) (log_box d) (layout d).

Definition set_layout (l : BoxLayout.t) (d : t) : t :=
  mk (worker_count d) (results_message d) (pending_resize d) (term_size d)
     (banner_box d) (metric_boxes d) (log_box d) l.

(** Run a method of the box with identity [box]. *)
Definition on_box {A} (box : nat) (m : M Box A) : M world A :=
  fun w =>
    let '(b', r) := m (boxes w !!! box) in
    (set_boxes (<[box := b']> (boxes w)) w, r).

(** Run a method of the layout of [display] on the heap of boxes. *)
Definition on_layout {A} (display : nat) (m : M BoxLayout.state A)
  : M world A :=
  fun w =>
    let d := objects w !!! display in
    let '(s, r) := m (BoxLayout.mkState (layout d) (boxes w)) in
    (set_object display (set_layout (BoxLayout.self s) d)
       (set_boxes (BoxLayout.heap s) w), r).

(** [int(value / elapsed_time) if elapsed_time > 0 else 0] *)
Definition _compute_rate (value : Z) (elapsed_time : float) : outcome Z :=
  if float_gt_zero elapsed_time
  then
    match truediv value elapsed_time with
    | Raise e => Raise e
    | Return q => int_of_float q
    end
  else Return 0.

Definition new_Metric (label : string) (value : Z) : Metric :=
  mkMetric (list_ascii_of_string label) (str_of_int value).

Definition lift {S A} (r : outcome A) : M S A := fun s => (s, r).

Definition _get_metrics {S} (update : ScanProgressUpdate)
  (worker_index : option Z) : M S (list Metric) :=
  let! file_count := lift (get_int_metric update "counts" worker_index) in
  let! byte_count := lift (get_int_metric update "bytes" worker_index) in
  let! match_count := lift (get_int_metric update "matches" worker_index) in
  let! file_rate := lift (_compute_rate file_count (elapsed_time update)) in
  let! byte_rate := lift (_compute_rate byte_count (elapsed_time update)) in
  let metrics :=
    [ new_Metric "Files Processed" file_count;
      new_Metric "Bytes Processed" byte_count;
      new_Metric "Matches Found" match_count;
      new_Metric "Files / Second" file_rate;
      new_Metric "Bytes / Second" byte_rate ] in
  if len metrics >? METRICS_COUNT
  then raise (ValueError "Metrics count is out of sync" None)
  else ret metrics.

(** [box.metrics = metrics] *)
Definition assign_metrics (metrics : list Metric) (b : Box) : Box :=
  match variant b with
  | MetricBox _ => set_variant (MetricBox metrics) b
  | _ => b
  end.

Section Controller.

Context (ext : External).

Definition refresh : M world unit :=
  run! do Stdscr_noutrefresh in
  do Doupdate.

Definition clear : M world unit := do Stdscr_clear.

(** [list.remove]: the first occurrence goes; an absent value is an
    error. *)
Fixpoint list_remove (v : nat) (l : list nat) : option (list nat) :=
  match l with
  | [] => None
  | a :: l' =>
      if Nat.eqb a v then Some l'
      else match list_remove v l' with
           | Some r => Some (a :: r)
           | None => None
           end
  end.

Definition end_ (display : nat) : M world unit :=
  run! do Endwin in
  run! modify (set_mode Normal) in
  fun w =>
    match list_remove display (_displays w) with
    | Some ds => (set_displays ds w, Return tt)
    | None => (w, Raise (ValueError "list.remove(x): x not in list" None))
    end.


(** [for display in _displays: body(display)].  The iterator of a Python
    list holds an index into the list and reads the list afresh at every
    turn, so a body that removes elements shifts the ones not yet
    visited.  Every turn advances the index, which bounds the loop by
    the length of the list as long as the body does not extend it. *)
Fixpoint for_display (fuel i : nat) (body : nat -> M world unit)
  : M world unit :=
  fun w =>
    match _displays w !! i with
    | None => (w, Return tt)
    | Some display =>
        match fuel with
        | O => (w, Raise BoxLayout.FuelExhausted)
        | S fuel =>
            (run! body display in for_display fuel (S i) body) w
        end
    end.

Definition reset_terminal : M world unit :=
  fun w => for_display (length (_displays w)) 0 end_ w.


(** The loop of [_display_metrics] over [range(0, worker_count + 1)]; the
    argument [update] of the source is [progress] here. *)
Fixpoint display_metrics_from (display : nat) (progress : ScanProgressUpdate)
  (indexes : list nat) : M world unit :=
  match indexes with
  | [] => ret tt
  | index :: rest =>
      let! d := self display in
      match metric_boxes d !! index with
      | None => raise (IndexError "list index out of range")
      | Some box =>
          let worker_index :=
            if Nat.eqb index 0 then None else Some (Z.of_nat index - 1) in
          let! metrics := _get_metrics progress worker_index in
          run! on_box box (modify (assign_metrics metrics)) in
          run! on_box box (update ext) in
          display_metrics_from display progress rest
      end
  end.

Definition _display_metrics (display : nat) (progress : ScanProgressUpdate)
  : M world unit :=
  let! d := self display in
  display_metrics_from display progress
    (seq 0 (Z.to_nat (worker_count d + 1))).

Definition resize (display : nat) : M world unit :=
  let! size := gets os_terminal_size in
  let! d := self display in
  let smaller := size_columns size <? size_columns (term_size d) in
  run! on_self display (set_term_size size) in
  run! (if smaller
        then
          run! do (Layout_resize display (size_lines size) (size_columns size)) in
          on_layout display
            (BoxLayout.resize ext (size_lines size) (size_columns size))
        else ret tt) in
  run! do (Resizeterm (size_lines size) (size_columns size)) in
  run! do Stdscr_erase in
  run! do Stdscr_refresh in
  run! do (Stdscr_resize (size_lines size) (size_columns size)) in
  run! (if negb smaller
        then
          run! do (Layout_resize display (size_lines size) (size_columns size)) in
          on_layout display
            (BoxLayout.resize ext (size_lines size) (size_columns size))
        else ret tt) in
  run! do (Layout_update_content display) in
  run! on_layout display (BoxLayout.update_content ext) in
  refresh.

Definition _resize_if_necessary (display : nat) : M world bool :=
  let! d := self display in
  if negb (pending_resize d) then ret false
  else
    try_except
      (run! resize display in
       run! on_self display (set_pending_resize false) in
       ret true)
      (fun e =>
         run! reset_terminal in
         raise (ProgressException
                  "Failed to adjust progress output to new terminal size"
                  (Some e))).

Definition handle_update (display : nat) (progress : ScanProgressUpdate)
  : M world unit :=
  run! _resize_if_necessary display in
  try_except
    (run! _display_metrics display progress in
     refresh)
    (fun e =>
       run! reset_terminal in
       raise (ProgressException "Rendering progress update failed" (Some e))).

(** *** Construction *)

Definition set_boxes_of (banner_box : option nat) (metric_boxes : list nat)
  (log_box : nat) (d : t) : t :=
  mk (worker_count d) (results_message d) (pending_resize d) (term_size d)
     banner_box metric_boxes log_box (layout d).

(** Allocate a box; the result is its identity. *)
Definition new_box (b : Box) : M world nat :=
  fun w => (set_boxes (boxes w ++ [b]) w, Return (length (boxes w))).

Definition _initialize_banner : M world (option nat) :=
  match get_welcome_banner ext with
  | None => ret None
  | Some banner =>
      let! box := new_box (new_BannerBox banner) in
      ret (Some box)
  end.

Definition worker_title (index : nat) : str :=
  list_ascii_of_string "Worker " ++ str_of_int (Z.of_nat index).

Fixpoint initialize_metric_boxes_from (default_update : ScanProgressUpdate)
  (indexes : list nat) (boxes : list nat) : M world (list nat) :=
  match indexes with
  | [] => ret boxes
  | index :: rest =>
      let worker_index :=
        if Nat.eqb index 0 then None else Some (Z.of_nat index - 1) in
      let title :=
        if Nat.eqb index 0 then list_ascii_of_string "Summary"
        else worker_title index in
      let! metrics := _get_metrics default_update worker_index in
      let! box := new_box (new_MetricBox metrics (Some title)) in
      initialize_metric_boxes_from default_update rest (boxes ++ [box])
  end.

Definition _initialize_metric_boxes (display : nat) : M world (list nat) :=
  let! d := self display in
  let default_update :=
    mkUpdate (S754_zero false) (ScanMetrics ext (worker_count d)) in
  initialize_metric_boxes_from default_update
    (seq 0 (Z.to_nat (worker_count d + 1))) [].

Definition _initialize_log_box : M world nat :=
  let! b := lift (new_LogBox 10 5 0) in
  new_box b.

(** The [enumerate(self.metric_boxes)] loop of [_initialize_layout]. *)
Fixpoint add_metric_boxes (index : nat) (metric_boxes : list nat)
  (l : BoxLayout.t) : BoxLayout.t :=
  match metric_boxes with
  | [] => l
  | box :: rest =>
      let l := BoxLayout.add_box box l in
      let l := if Nat.eqb index 0 then BoxLayout.add_break l else l in
      add_metric_boxes (S index) rest l
  end.

Definition _initialize_layout (display : nat) (size : terminal_size)
  : M world unit :=
  let! d := self display in
  let l := BoxLayout.init (size_lines size) (size_columns size)
             METRICS_PADDING in
  let l := match banner_box d with
           | Some box => BoxLayout.add_box box l
           | None => l
           end in
  let l := add_metric_boxes 0 (metric_boxes d) l in
  let l := BoxLayout.add_break l in
  let l := BoxLayout.add_box (log_box d) l in
  (* the layout is a local of the method until it returns *)
  fun w =>
    let '(s, r) :=
      (run! BoxLayout.position ext in BoxLayout.update_content ext)
        (BoxLayout.mkState l (boxes w)) in
    match r with
    | Return _ =>
        (set_object display (set_layout (BoxLayout.self s) d)
           (set_boxes (BoxLayout.heap s) w), Return tt)
    | Raise e => (set_boxes (BoxLayout.heap s) w, Raise e)
    end.

Definition _initialize_content (display : nat) (size : terminal_size)
  : M world unit :=
  run! clear in
  let! banner_box := _initialize_banner in
  run! on_self display (fun d =>
         set_boxes_of banner_box (metric_boxes d) (log_box d) d) in
  let! metric_boxes := _initialize_metric_boxes display in
  run! on_self display (fun d =>
         set_boxes_of (ProgressDisplay.banner_box d) metric_boxes (log_box d) d) in
  let! log_box := _initialize_log_box in
  run! on_self display (fun d =>
         set_boxes_of (ProgressDisplay.banner_box d)
           (ProgressDisplay.metric_boxes d) log_box d) in
  run! _initialize_layout display size in
  refresh.

Definition _setup_curses (display : nat) : M world unit :=
  run! do Initscr in
  run! modify (set_mode Visual) in
  run! do Noecho in
  run! do (Curs_set 0) in
  let! size := gets os_terminal_size in
  run! on_self display (set_term_size size) in
  _initialize_content display size.

(** [ProgressDisplay(worker_count)]; the result is the identity of the new
    display. *)
Definition new (worker_count : Z) : M world nat :=
  fun w =>
    let display := length (objects w) in
    let d := mk worker_count None false (mkSize 0 0) None [] 0
               (BoxLayout.init 0 0 0) in
    let w :=
      mkWorld (_displays w ++ [display]) (objects w ++ [d]) (boxes w)
        (mode w) (os_terminal_size w) (calls w) in
    (run! _setup_curses display in ret display) w.

(** *** The end of the scan *)

Definition set_results_message (message : str) (d : t) : t :=
  mk (worker_count d) (Some message) (pending_resize d) (term_size d)
     (banner_box d) (metric_boxes d) (log_box d) (layout d).

(** The position that [_move_cursor_to_log_end] hands to [stdscr.move]:
    the cursor position of the log box, one column further. *)
Definition log_end (b : Box) : outcome Position :=
  match get_cursor_position b with
  | Raise e => Raise e
  | Return cursor_position =>
      Return (mkPosition (y cursor_position) (x cursor_position + 1))
  end.

(** [_move_cursor_to_log_end]: the error of [stdscr.move] is swallowed,
    the error of [get_cursor_position] is not. *)
Definition _move_cursor_to_log_end (display : nat) : M world unit :=
  let! d := self display in
  let! b := gets (fun w => boxes w !!! log_box d) in
  run! lift (log_end b) in
  ret tt.

(** [scan_finished_handler]; [messages] is what
    [default_scan_finished_handler] of the scanner returns or raises, its
    [results] when it returns. *)
Definition scan_finished_handler (display : nat) (messages : outcome str)
  : M world unit :=
  let! results := lift messages in
  run! on_self display (set_results_message results) in
  let! d := self display in
  run! on_box (log_box d)
         (add_message ext
            (list_ascii_of_string "Scan completed! Press any key to exit.")) in
  run! _move_cursor_to_log_end display in
  do (Curs_set 1).

(** [curses.KEY_RESIZE] *)
Definition KEY_RESIZE : Z := 410.

(** The loop of [end_on_input].  [keys] are the results of the successive
    calls of [stdscr.getch], [-1] when no key is waiting; a run that uses
    them all up without leaving the loop is cut short. *)
Fixpoint wait_for_input (keys : list Z) (display : nat) : M world unit :=
  match keys with
  | [] => raise BoxLayout.FuelExhausted
  | key :: keys =>
      if negb (key =? -1) && negb (key =? KEY_RESIZE) then ret tt
      else
        let! resized := _resize_if_necessary display in
        run! (if resized : bool then _move_cursor_to_log_end display
              else ret tt) in
        wait_for_input keys display
  end.

Definition end_on_input (keys : list Z) (display : nat) : M world unit :=
  run! wait_for_input keys display in
  end_ display.

End Controller.

End ProgressDisplay.

(** ** Vocabulary of the properties *)

(** A sequence of calls on one box, as the layout, the controller and the
    log adapters make them. *)
Inductive box_call : Type :=
| Add_message (message : str)
| Update
| Resize (lines cols : option Z)
| Set_position (y x : Z)
| Resize_for_layout (properties : LayoutProperties)
| Compute_size.

Definition run_call (ext : External) (c : box_call) (b : Box) : Box :=
  match c with
  | Add_message message => fst (add_message ext message b)
  | Update => fst (update ext b)
  | Resize lines cols => fst (resize ext lines cols b)
  | Set_position y x => fst (set_position ext y x b)
  | Resize_for_layout properties => fst (resize_for_layout properties b)
  | Compute_size => fst (compute_size b)
  end.

Definition run_calls (ext : External) (cs : list box_call) (b : Box) : Box :=
  fold_left (fun b c => run_call ext c b) cs b.

(** The messages handed to [add_message] by a sequence of calls. *)
Fixpoint pushed (cs : list box_call) : list str :=
  match cs with
  | [] => []
  | Add_message message :: cs => message :: pushed cs
  | _ :: cs => pushed cs
  end.

(** The last [n] elements of a list. *)
Definition lastn {A} (n : nat) (l : list A) : list A :=
  skipn (length l - n) l.

(** The message queue of a log box ([[]] for the other boxes). *)
Definition queue (b : Box) : list str :=
  match variant b with
  | LogBox log => items (messages log)
  | _ => []
  end.

Definition capacity (b : Box) : option nat :=
  match variant b with
  | LogBox log => maxlen (messages log)
  | _ => None
  end.

Definition offset_of (b : Box) : option Position :=
  match variant b with
  | LogBox log => cursor_offset log
  | _ => None
  end.

Definition is_log (b : Box) : bool :=
  match variant b with
  | LogBox _ => true
  | _ => false
  end.

(** The bordered flag, the title and the kind of a box with its content,
    but for the two cursor attributes of a log box. *)
Definition content_of (b : Box) : bool * option str * BoxVariant :=
  (border b, title b,
   match variant b with
   | LogBox log =>
       LogBox (mkLogFields (columns log) (lines log) (messages log) None None)
   | v => v
   end).

(** [kept b b']: [b'] is [b] but for its window, position, cached size and
    cursor attributes; a window and a cursor offset that [b] has are not
    taken away. *)
Definition kept (b b' : Box) : Prop :=
  content_of b' = content_of b /\
  (window b = true -> window b' = true) /\
  (offset_of b <> None -> offset_of b' <> None).

(** [ceil(a / b)] on natural numbers. *)
Definition ceil_div (a b : nat) : nat := ((a + b - 1) / b)%nat.

(** The [i]-th slice of width [c] of a message: [message[i*c : (i+1)*c]]. *)
Definition slice (c i : nat) (message : str) : str :=
  firstn c (skipn (i * c) message).

(** The first [n] slices of width [c], in order. *)
Definition slices (c n : nat) (message : str) : list str :=
  map (fun i => slice c i message) (seq 0 n).

(** The coordinates of the position of a box, [(0, 0)] while it has none. *)
Definition origin (b : Box) : Z * Z :=
  match position b with
  | Some p => (y p, x p)
  | None => (0, 0)
  end.



(** The calls that resize the terminal surface to [l] lines and [c]
    columns, and the calls of a full re-render of a display. *)
Definition surface_calls (l c : Z) : list ProgressDisplay.call :=
  [ProgressDisplay.Resizeterm l c; ProgressDisplay.Stdscr_erase;
   ProgressDisplay.Stdscr_refresh; ProgressDisplay.Stdscr_resize l c].

Definition rerender_calls (display : nat) : list ProgressDisplay.call :=
  [ProgressDisplay.Layout_update_content display;
   ProgressDisplay.Stdscr_noutrefresh; ProgressDisplay.Doupdate].

(** The calls made since the world was [w]. *)
Definition calls_since (w w' : ProgressDisplay.world)
  : list ProgressDisplay.call :=
  drop (length (ProgressDisplay.calls w)) (ProgressDisplay.calls w').

(** The number of times a run of calls resizes the terminal surface. *)
Fixpoint surface_resizes (cs : list ProgressDisplay.call) : nat :=
  match cs with
  | [] => O
  | ProgressDisplay.Resizeterm _ _ :: cs => S (surface_resizes cs)
  | _ :: cs => surface_resizes cs
  end.

(** *** Concrete worlds *)

(** Collaborators that accept every call: a plain terminal, no banner,
    counters at zero. *)
Definition plain : External :=
  mkExternal (fun _ _ _ => true) (fun _ _ => true) (fun s => s) None
    (fun _ _ _ => Return 0).

(** A process that has not started a display, on a terminal of [l] lines
    and [c] columns. *)
Definition boot (l c : Z) : ProgressDisplay.world :=
  ProgressDisplay.mkWorld [] [] [] ProgressDisplay.Normal
    (ProgressDisplay.mkSize c l) [].

(** One display for one worker on a terminal of 40 lines and 130 columns,
    and a second one started next to it. *)
Definition one_display : ProgressDisplay.world :=
  fst (ProgressDisplay.new plain 1 (boot 40 130)).

Definition two_displays : ProgressDisplay.world :=
  fst (ProgressDisplay.new plain 1 one_display).

(** The user resizes the terminal. *)
Definition user_resizes (l c : Z) (w : ProgressDisplay.world)
  : ProgressDisplay.world :=
  ProgressDisplay.mkWorld (ProgressDisplay._displays w)
    (ProgressDisplay.objects w) (ProgressDisplay.boxes w)
    (ProgressDisplay.mode w) (ProgressDisplay.mkSize c l)
    (ProgressDisplay.calls w).


(** *** Geometry *)



(** The boxes of the entries of [positioned], the sum of their widths and
    the sum of their widths with [pad] columns after each. *)
Definition entry_ids (positioned : list (nat * Z * Z)) : list nat :=
  map (fun e => fst (fst e)) positioned.

Definition widths (positioned : list (nat * Z * Z)) : Z :=
  fold_right (fun e acc => snd e + acc) 0 positioned.

Definition padded_widths (pad : Z) (positioned : list (nat * Z * Z)) : Z :=
  fold_right (fun e acc => snd e + pad + acc) 0 positioned.

(** A box as [_position_row] leaves it after measuring it against
    [properties], when [resize_for_layout] returns. *)
Definition measured (properties : LayoutProperties) (b : Box) : Box :=
  let b1 := fst (resize_for_layout properties b) in
  set_last_size (size_of b1) b1.


(** What a layout never changes of a box: its bordered flag and its kind,
    with the content of a box that is not a log box. *)
Definition static_of (b : Box) : bool * option BoxVariant :=
  (border b,
   match variant b with
   | LogBox _ => None
   | v => Some v
   end).

(** What measuring leaves of a box: where it is and what it is. *)
Definition same_place (b b' : Box) : Prop :=
  position b' = position b /\ window b' = window b /\
  static_of b' = static_of b.

(** The log boxes are bordered and the other boxes have a size that is
    not negative. *)
Definition well_formed (b : Box) : bool :=
  if is_log b then border b
  else (0 <=? fst (size_of b)) && (0 <=? snd (size_of b)).

(** The size [resize_for_layout] gives a bordered log box. *)
Definition log_size (properties : LayoutProperties) : Z * Z :=
  (lp_lines properties - lp_current_line properties,
   lp_max_row_width properties).

(** The state of a layout on which the bounds of the rectangles rest: the
    padding, the vertical cursor and the widest row are not negative and
    the boxes are well formed. *)
Definition layout_ok (s : BoxLayout.state) : Prop :=
  0 <= BoxLayout.padding (BoxLayout.self s) /\
  0 <= BoxLayout.current_line (BoxLayout.self s) /\
  0 <= BoxLayout.max_row_width (BoxLayout.self s) /\
  forall id, well_formed (BoxLayout.heap s !!! id) = true.

(** An entry of [positioned] records the size its box has and keeps when
    measured again, a size that is not negative and not taller than the
    row. *)
Definition entry_ok (s : BoxLayout.state) (row_height : Z)
  (e : nat * Z * Z) : Prop :=
  let properties := BoxLayout.get_layout_properties (BoxLayout.self s) in
  let b := BoxLayout.heap s !!! fst (fst e) in
  size_of b = (snd (fst e), snd e) /\
  size_of (fst (resize_for_layout properties b)) = (snd (fst e), snd e) /\
  0 <= snd (fst e) <= row_height /\ 0 <= snd e.

(** The locals of the first loop of [_position_row] between two turns. *)
Definition row_ok (s : BoxLayout.state) (v : BoxLayout.row_vars) : Prop :=
  Forall (entry_ok s (BoxLayout.row_height v)) (BoxLayout.positioned v) /\
  BoxLayout.unpadded_row_width v = widths (BoxLayout.positioned v) /\
  BoxLayout.row_width v =
    padded_widths (BoxLayout.padding (BoxLayout.self s))
      (BoxLayout.positioned v) /\
  (BoxLayout.positioned v <> [] ->
   BoxLayout.row_width v <= BoxLayout.cols (BoxLayout.self s)) /\
  0 <= BoxLayout.row_height v.


(** The layout after a row of height [row_height] and of final width
    [final_row_width]. *)
Definition after_row (row_height final_row_width : Z) (l : BoxLayout.t)
  : BoxLayout.t :=
  BoxLayout.mk (BoxLayout.lines l) (BoxLayout.cols l) (BoxLayout.padding l)
    (BoxLayout.current_line l + row_height + BoxLayout.padding l)
    (BoxLayout._content l) (BoxLayout._unpositioned l)
    (Z.max (BoxLayout.max_row_width l) final_row_width).







(** The state on which positioning runs: sound, with every box of the
    given row in the heap. *)
Definition row_valid (s : BoxLayout.state) (row : list nat) : Prop :=
  Forall (fun id => (id < length (BoxLayout.heap s))%nat) row.

(** The layout once [position] has emptied its list of items to
    position. *)
Definition positioned_all (l : BoxLayout.t) : BoxLayout.t :=
  BoxLayout.mk (BoxLayout.lines l) (BoxLayout.cols l) (BoxLayout.padding l)
    (BoxLayout.current_line l) (BoxLayout._content l) []
    (BoxLayout.max_row_width l).

(** What [position] never changes of a layout. *)
Definition fixed_of (l : BoxLayout.t) : Z * Z * Z * list (option nat) :=
  (BoxLayout.lines l, BoxLayout.cols l, BoxLayout.padding l,
   BoxLayout._content l).




(** A log box of 10 columns and 3 lines that holds one message of 15
    characters. *)
Definition alphabet : str := list_ascii_of_string "abcdefghijklmno".

Definition small_log : LogFields :=
  mkLogFields 10 3 (mkDeque [alphabet] (Some 512%nat)) None None.

(** The float 4.0. *)
Definition four : float := S754_finite false 4503599627370496 (-50).

(** The height of a row: the greatest height of its boxes, and 0 for an
    empty row. *)
Definition row_height_of (s : BoxLayout.state) (row : list nat) (from : Z) : Z :=
  fold_left
    (fun H id => Z.max H (fst (size_of (BoxLayout.heap s !!! id)))) row from.






(** A layout of 40 lines and 80 columns with two rows: a box of five
    metrics, a break, and a box of two metrics. *)
Definition two_row_layout : BoxLayout.state :=
  BoxLayout.mkState
    (BoxLayout.add_box 1 (BoxLayout.add_break
       (BoxLayout.add_box 0 (BoxLayout.init 40 80 1))))
    [new_MetricBox
       [mkMetric [] []; mkMetric [] []; mkMetric [] []; mkMetric [] [];
        mkMetric [] []] None;
     new_MetricBox [mkMetric [] []; mkMetric [] []] None].

(** The lines of a list of messages, oldest first: every message cut into
    its slices of [c] characters. *)
Definition wrapped (c : nat) (msgs : list str) : list str :=
  concat (map (fun m => slices c (ceil_div (length m) c) m) msgs).

(** A log box with its cursor offset assigned. *)
Definition with_cursor_offset (p : Position) (log : LogFields) : LogFields :=
  mkLogFields (columns log) (lines log) (messages log) (cursor_position log)
    (Some p).

(** The columns that the boxes of [ids] take up side by side with [gap]
    columns after each. *)
Definition span (s : BoxLayout.state) (gap : Z) (ids : list nat) : Z :=
  fold_right
    (fun id acc => snd (size_of (BoxLayout.heap s !!! id)) + gap + acc) 0 ids.

(** A layout of 40 lines and 130 columns over the two boxes of
    [two_row_layout], with nothing positioned yet. *)
Definition row_state : BoxLayout.state :=
  BoxLayout.mkState (BoxLayout.init 40 130 1) (BoxLayout.heap two_row_layout).

(** The elements of a list at the odd indexes: the second, the fourth and
    so on. *)
Fixpoint skipped (l : list nat) : list nat :=
  match l with
  | _ :: b :: rest => b :: skipped rest
  | _ => []
  end.

(** A computation on the world that leaves the observation [P] of the
    world as it was, whatever its outcome. *)
Definition preserves {X A} (P : ProgressDisplay.world -> X)
  (m : M ProgressDisplay.world A) : Prop :=
  forall w, P (fst (m w)) = P w.

(** The flag [pending_resize] of a display. *)
Definition pending (display : nat) (w : ProgressDisplay.world) : bool :=
  ProgressDisplay.pending_resize (ProgressDisplay.objects w !!! display).


Definition resize_failed (cause : Exn) : Exn :=
  ProgressException "Failed to adjust progress output to new terminal size"
    (Some cause).

(** The line budget of a log box, and a box that [draw_content] can draw
    a cursor offset for: a log box whose line budget is not negative. *)
Definition lines_of (b : Box) : Z :=
  match variant b with
  | LogBox log => lines log
  | _ => 0
  end.

Definition drawable (b : Box) : Prop := is_log b = true /\ 0 <= lines_of b.

(** A log box that has drawn its content. *)
Definition drawn (b : Box) : Prop := is_log b = true /\ offset_of b <> None.

(** The log box of a display. *)
Definition log_of (display : nat) (w : ProgressDisplay.world) : Box :=
  ProgressDisplay.boxes w !!!
    ProgressDisplay.log_box (ProgressDisplay.objects w !!! display).

(** The keys that [end_on_input] waits through. *)
Definition no_key (key : Z) : Prop := key = -1 \/ key = ProgressDisplay.KEY_RESIZE.

(** The worker a metric box stands for: none for the first box, the
    summary, and worker [index - 1] for the box at [index]. *)
Definition worker_of (index : nat) : option Z :=
  if Nat.eqb index 0 then None else Some (Z.of_nat index - 1).

(** The metrics a box shows ([[]] for the boxes that show none). *)
Definition metrics_of (b : Box) : list Metric :=
  match variant b with
  | MetricBox metrics => metrics
  | _ => []
  end.

Definition is_metric (b : Box) : bool :=
  match variant b with
  | MetricBox _ => true
  | _ => false
  end.

(** * Properties *)

(** ** The log box *)

Lemma lastn_length {A} (n : nat) (l : list A) :
  length (lastn n l) = Nat.min n (length l).
Proof. unfold lastn. rewrite length_skipn. lia. Qed.

Lemma lastn_all {A} (n : nat) (l : list A) :
  (length l <= n)%nat -> lastn n l = l.
Proof.
  intros H. unfold lastn. replace (length l - n)%nat with O by lia.
  reflexivity.
Qed.

Lemma lastn_snoc {A} (n : nat) (l : list A) (a : A) :
  (0 < n)%nat -> lastn n (lastn n l ++ [a]) = lastn n (l ++ [a]).
Proof.
  intros Hn. unfold lastn.
  rewrite !length_app, length_skipn. cbn [length].
  destruct (Nat.le_gt_cases (length l) n) as [Hle | Hgt].
  - replace (length l - n)%nat with O by lia. cbn [skipn].
    f_equal. lia.
  - rewrite (skipn_app (length l + 1 - n)).
    replace (length l + 1 - n - length l)%nat with O by lia.
    cbn [skipn].
    rewrite (skipn_app (length l - (length l - n) + 1 - n)).
    rewrite length_skipn.
    replace (length l - (length l - n) + 1 - n - (length l - (length l - n)))%nat
      with O by lia.
    cbn [skipn]. f_equal.
    rewrite skipn_skipn. f_equal. lia.
Qed.

(** One [append] keeps the last [n] of everything appended so far. *)
Lemma append_lastn {A} (d : deque A) (a : A) (n : nat) :
  (0 < n)%nat -> maxlen d = Some n -> (length (items d) <= n)%nat ->
  maxlen (append d a) = Some n /\
  items (append d a) = lastn n (items d ++ [a]).
Proof.
  intros Hn Hm Hlen. unfold append. rewrite Hm.
  destruct n as [|n]; [lia|].
  destruct (Nat.ltb_spec (length (items d)) (S n)) as [Hlt | Hge]; cbn.
  - split; [reflexivity|]. rewrite lastn_all; [reflexivity|].
    rewrite length_app. cbn. lia.
  - split; [reflexivity|]. unfold lastn.
    rewrite length_app. cbn [length].
    replace (length (items d) + 1 - S n)%nat with 1%nat by lia.
    rewrite (skipn_app 1).
    destruct (items d) as [|a0 l0] eqn:E; cbn in *; [lia|].
    replace (1 - S (length l0))%nat with O by lia.
    reflexivity.
Qed.

Lemma append_unbounded {A} (d : deque A) (a : A) :
  maxlen d = None ->
  maxlen (append d a) = None /\ items (append d a) = items d ++ [a].
Proof. intros Hm. unfold append. rewrite Hm. cbn. auto. Qed.

(** *** What the methods of a box leave alone *)

Lemma draw_content_log_cases ext offset log :
  (lines log < 0 /\
   exists e, draw_content_log ext offset log = (log, Raise e)) \/
  (0 <= lines log /\
   exists p, draw_content_log ext offset log =
     (mkLogFields (columns log) (lines log) (messages log)
        (cursor_position log) (Some p), Return tt)).
Proof.
  unfold draw_content_log, _map_messages_to_lines, new_deque.
  destruct (Z.ltb_spec (lines log) 0) as [Hlt | Hge].
  - left. split; [assumption|]. eexists. reflexivity.
  - right. split; [assumption|].
    match goal with
    | |- context [draw_lines ?e ?c ?o ?l ?a ?b ?d] =>
        destruct (draw_lines e c o l a b d) as [n l'] eqn:E
    end.
    exists (mkPosition n l'). reflexivity.
Qed.

Lemma draw_content_cases ext b :
  (exists e, draw_content ext b = (b, Raise e) /\ is_log b = true) \/
  (draw_content ext b = (b, Return tt) /\ is_log b = false) \/
  (exists log p,
     variant b = LogBox log /\ 0 <= lines log /\
     draw_content ext b =
       (set_variant
          (LogBox (mkLogFields (columns log) (lines log) (messages log)
                     (cursor_position log) (Some p))) b,
        Return tt)).
Proof.
  unfold draw_content, is_log. destruct b as [bo ti wi po la v].
  destruct v as [m | bn | log]; cbn.
  - right. left. auto.
  - right. left. auto.
  - destruct (draw_content_log_cases ext (get_border_offset
      (mkBox bo ti wi po la (LogBox log))) log) as [[Hlt [e He]] | [Hge [p Hp]]].
    + left. exists e. rewrite He. cbn. auto.
    + right. right. exists log, p. rewrite Hp. cbn. auto.
Qed.

(** The bordered flag, the title and the kind of a box with its content,
    but for the two cursor attributes of a log box. *)
Lemma draw_content_content_of ext b :
  content_of (fst (draw_content ext b)) = content_of b.
Proof.
  destruct (draw_content_cases ext b)
    as [[e [H _]] | [[H _] | [log [p [Hv [_ H]]]]]]; rewrite H; cbn;
    try reflexivity.
  unfold content_of. cbn. rewrite Hv. reflexivity.
Qed.

Lemma draw_content_frame ext b :
  let b' := fst (draw_content ext b) in
  window b' = window b /\ position b' = position b /\
  last_size b' = last_size b /\ size_of b' = size_of b.
Proof.
  destruct (draw_content_cases ext b)
    as [[e [H _]] | [[H _] | [log [p [Hv [_ H]]]]]]; rewrite H; cbn;
    try tauto.
  repeat split. unfold size_of, get_height, get_width. cbn. rewrite Hv.
  reflexivity.
Qed.

Lemma kept_refl b : kept b b.
Proof. unfold kept. auto. Qed.

Lemma kept_trans b1 b2 b3 : kept b1 b2 -> kept b2 b3 -> kept b1 b3.
Proof.
  unfold kept. intros [H1 [H2 H3]] [H4 [H5 H6]].
  repeat split; [congruence | auto | auto].
Qed.

Lemma content_of_size b b' : content_of b' = content_of b -> size_of b' = size_of b.
Proof.
  unfold content_of, size_of, get_height, get_width.
  destruct b as [bo ti wi po la v], b' as [bo' ti' wi' po' la' v']. cbn.
  intros H.
  destruct v as [m | bn | l], v' as [m' | bn' | l']; inversion H; subst;
    reflexivity.
Qed.

Lemma content_of_is_log b b' : content_of b' = content_of b -> is_log b' = is_log b.
Proof.
  unfold content_of, is_log.
  destruct b as [bo ti wi po la v], b' as [bo' ti' wi' po' la' v']. cbn.
  intros H. destruct v, v'; inversion H; reflexivity.
Qed.

Lemma kept_size b b' : kept b b' -> size_of b' = size_of b.
Proof. intros [H _]. apply content_of_size, H. Qed.

Lemma set_last_size_kept sz b : kept b (set_last_size sz b).
Proof. unfold kept. auto. Qed.

Lemma set_window_at_kept p b : kept b (set_window_at p b).
Proof. unfold kept. auto. Qed.

Lemma set_box_position_kept p b : kept b (set_box_position p b).
Proof. unfold kept. auto. Qed.

Lemma draw_content_kept ext b : kept b (fst (draw_content ext b)).
Proof.
  split; [apply draw_content_content_of|].
  destruct (draw_content_frame ext b) as [Hw _]. split; [congruence|].
  destruct (draw_content_cases ext b)
    as [[e [H _]] | [[H _] | [log [p [Hv [_ H]]]]]]; rewrite H; cbn; auto.
Qed.

(** [update] never raises: it opens the window if need be, caches the size
    and draws. *)
Lemma update_eq ext b :
  update ext b =
  (fst (draw_content ext
          (mkBox (border b) (title b) true
             (if window b then position b else Some (mkPosition 0 0))
             (Some (size_of b)) (variant b))),
   Return tt).
Proof.
  unfold update, render, _require_window, _initialize_window, compute_size,
    bind, try_except, modify, ret.
  destruct b as [bo ti wi po la v].
  destruct wi; unfold set_window_at, set_last_size, size_of, get_height,
    get_width; cbn;
    match goal with
    | |- context [draw_content ext ?b] =>
        destruct (draw_content ext b) as [b' [[]|]]
    end; reflexivity.
Qed.

Lemma update_returns ext b : snd (update ext b) = Return tt.
Proof. rewrite update_eq. reflexivity. Qed.

Lemma update_kept ext b : kept b (fst (update ext b)).
Proof.
  rewrite update_eq. cbn [fst].
  eapply kept_trans; [|apply draw_content_kept].
  unfold kept. cbn. auto.
Qed.

Lemma update_frame ext b :
  let b' := fst (update ext b) in
  window b' = true /\
  position b' = (if window b then position b else Some (mkPosition 0 0)) /\
  last_size b' = Some (size_of b).
Proof.
  rewrite update_eq. cbn [fst].
  match goal with
  | |- context [draw_content ext ?b0] =>
      destruct (draw_content_frame ext b0) as [Hw [Hp [Hl _]]]
  end.
  cbn in *. auto.
Qed.

Lemma resize_eq ext l c b :
  resize ext l c b =
  if window b then update ext (set_last_size (size_of b) b)
  else (b, Return tt).
Proof.
  unfold resize, compute_size, bind. destruct (window b); reflexivity.
Qed.

Lemma resize_returns ext l c b : snd (resize ext l c b) = Return tt.
Proof.
  rewrite resize_eq. destruct (window b); [apply update_returns | reflexivity].
Qed.

Lemma resize_kept ext l c b : kept b (fst (resize ext l c b)).
Proof.
  rewrite resize_eq. destruct (window b) eqn:E; [|apply kept_refl].
  eapply kept_trans; [apply (set_last_size_kept (size_of b))|apply update_kept].
Qed.

Lemma resize_frame ext l c b :
  let b' := fst (resize ext l c b) in
  window b' = window b /\ position b' = position b.
Proof.
  rewrite resize_eq. destruct (window b) eqn:E; cbn; [|auto].
  destruct (update_frame ext (set_last_size (size_of b) b)) as [Hw [Hp _]].
  cbn in *. rewrite E in Hp. auto.
Qed.

(** [set_position] either assigns the position and returns, or finds an
    existing window that curses refuses to move and raises, the position
    staying as it was. *)
Lemma set_position_cases ext y x b :
  let '(b', r) := set_position ext y x b in
  kept b b' /\ window b' = true /\
  ((r = Return tt /\ position b' = Some (mkPosition y x)) \/
   (window b = true /\ move_ok ext y x = false /\
    r = Raise (ValueError "error moving window" (Some curses_error)) /\
    position b' = position b)).
Proof.
  unfold set_position. destruct (window b) eqn:Ew.
  - unfold bind.
    pose proof (resize_returns ext (Some 1) (Some 1) b) as Hr.
    pose proof (resize_kept ext (Some 1) (Some 1) b) as Hk.
    pose proof (resize_frame ext (Some 1) (Some 1) b) as [Hw Hp].
    destruct (resize ext (Some 1) (Some 1) b) as [b1 r1]. cbn in *. subst r1.
    rewrite Ew in Hw.
    destruct (move_ok ext y x) eqn:Em; cbn.
    + pose proof (resize_returns ext None None
                    (set_box_position (mkPosition y x) b1)) as Hr2.
      pose proof (resize_kept ext None None
                    (set_box_position (mkPosition y x) b1)) as Hk2.
      pose proof (resize_frame ext None None
                    (set_box_position (mkPosition y x) b1)) as [Hw2 Hp2].
      destruct (resize ext None None _) as [b2 r2]. cbn in *. subst r2.
      split; [|split].
      * eapply kept_trans; [exact Hk|].
        eapply kept_trans; [apply (set_box_position_kept (mkPosition y x))|exact Hk2].
      * congruence.
      * left. auto.
    + split; [exact Hk|]. split; [exact Hw|]. right. auto.
  - unfold _initialize_window, compute_size, bind, modify. cbn.
    split; [|split; [reflexivity|left; auto]].
    unfold kept. cbn. auto.
Qed.

Lemma compute_size_kept b : kept b (fst (compute_size b)).
Proof. apply set_last_size_kept. Qed.

(** [resize_for_layout] rewrites the line and column budget of a log box
    and nothing else of any box. *)
Lemma resize_for_layout_frame properties b :
  let b' := fst (resize_for_layout properties b) in
  border b' = border b /\ title b' = title b /\ window b' = window b /\
  position b' = position b /\ last_size b' = last_size b /\
  is_log b' = is_log b /\ queue b' = queue b /\ capacity b' = capacity b /\
  offset_of b' = offset_of b /\
  (is_log b = false -> b' = b).
Proof.
  unfold resize_for_layout, resize_for_layout_log, is_log, queue, capacity,
    offset_of.
  destruct b as [bo ti wi po la v]. destruct v as [m | bn | log]; cbn;
    try (repeat split; reflexivity).
  destruct (_ <? 3); cbn; repeat split; discriminate.
Qed.

(** *** The line and column budget *)

(** C7.  For every layout snapshot, [LogBox.resize_for_layout] sets the
    column budget to [max_row_width - 2] and the line budget to
    [lines - current_line - 2]; it raises the sizing error exactly when the
    new line budget is below 3 and returns [True] exactly when it is not;
    the message queue and the cursor offset are left as they were. *)
Theorem resize_for_layout_budget (properties : LayoutProperties)
  (b : Box) (log : LogFields) :
  let self := set_variant (LogBox log) b in
  let self' := fst (resize_for_layout properties self) in
  let r := snd (resize_for_layout properties self) in
  get_width self' = lp_max_row_width properties - 2 /\
  get_height self' =
    lp_lines properties - lp_current_line properties - 2 /\
  (get_height self' < 3 <->
   r = Raise (ProgressException
                "Insufficient space available to display log messages" None)) /\
  (3 <= get_height self' <-> r = Return true) /\
  queue self' = queue self /\ offset_of self' = offset_of self.
Proof.
  cbn zeta. unfold resize_for_layout, resize_for_layout_log, get_width,
    get_height, queue, offset_of. cbn.
  destruct (Z.ltb_spec (lp_lines properties - lp_current_line properties - 2) 3)
    as [Hlt | Hge]; cbn; repeat split; intros; try lia; try discriminate;
    try reflexivity.
Qed.

(** *** The bounded queue *)

Lemma kept_queue b b' :
  kept b b' -> queue b' = queue b /\ capacity b' = capacity b /\
  is_log b' = is_log b.
Proof.
  intros [H _]. split; [|split; [|apply content_of_is_log, H]].
  - unfold content_of, queue in *.
    destruct b as [bo ti wi po la v], b' as [bo' ti' wi' po' la' v'].
    cbn in *. destruct v, v'; inversion H; reflexivity.
  - unfold content_of, capacity in *.
    destruct b as [bo ti wi po la v], b' as [bo' ti' wi' po' la' v'].
    cbn in *. destruct v, v'; inversion H; reflexivity.
Qed.

Lemma add_message_queue ext message b :
  is_log b = true ->
  let b' := fst (add_message ext message b) in
  is_log b' = true /\
  exists d, variant b = LogBox d /\
    capacity b' = maxlen (append (messages d) (filter_control_characters ext message)) /\
    queue b' = items (append (messages d) (filter_control_characters ext message)).
Proof.
  unfold is_log, add_message. destruct (variant b) as [m | bn | log] eqn:Ev;
    try discriminate.
  intros _. cbn zeta.
  match goal with
  | |- context [update ext ?b0] =>
      destruct (kept_queue b0 _ (update_kept ext b0)) as [Hq [Hc Hl]]
  end.
  unfold is_log in Hl. rewrite Hl, Hq, Hc. unfold queue, capacity. cbn.
  split; [reflexivity|]. exists log. auto.
Qed.

Lemma run_call_kept ext c b :
  match c with
  | Add_message _ => True
  | Resize_for_layout _ => True
  | _ => kept b (run_call ext c b)
  end.
Proof.
  destruct c; cbn; try exact I.
  - apply update_kept.
  - apply resize_kept.
  - pose proof (set_position_cases ext y0 x0 b) as H.
    destruct (set_position ext y0 x0 b). apply H.
  - apply compute_size_kept.
Qed.

(** One call keeps the queue, unless it pushes a message. *)
Lemma run_call_queue ext c b :
  is_log b = true ->
  let b' := run_call ext c b in
  is_log b' = true /\
  match c with
  | Add_message message =>
      exists d, variant b = LogBox d /\
        capacity b' = maxlen (append (messages d) (filter_control_characters ext message)) /\
        queue b' = items (append (messages d) (filter_control_characters ext message))
  | _ => capacity b' = capacity b /\ queue b' = queue b
  end.
Proof.
  intros Hl. pose proof (run_call_kept ext c b) as Hk.
  destruct c; cbn zeta;
    try (apply kept_queue in Hk; destruct Hk as [Hq [Hc Hl']];
         rewrite Hl', Hq, Hc; auto).
  - apply add_message_queue, Hl.
  - cbn. destruct (resize_for_layout_frame properties b)
      as [_ [_ [_ [_ [_ [Hl' [Hq [Hc _]]]]]]]].
    rewrite Hl', Hq, Hc. auto.
Qed.

Lemma run_calls_snoc ext cs c b :
  run_calls ext (cs ++ [c]) b = run_call ext c (run_calls ext cs b).
Proof. unfold run_calls. rewrite fold_left_app. reflexivity. Qed.

Lemma pushed_snoc cs c :
  pushed (cs ++ [c]) =
  pushed cs ++ match c with Add_message message => [message] | _ => [] end.
Proof.
  induction cs as [|c0 cs IH]; cbn.
  - destruct c; reflexivity.
  - destruct c0; cbn; rewrite IH; reflexivity.
Qed.

Lemma lastn_tail {A} (a : A) (l : list A) : lastn (length l) (a :: l) = l.
Proof.
  unfold lastn. cbn [length].
  replace (S (length l) - length l)%nat with 1%nat by lia. reflexivity.
Qed.


(** C5.  The queue of a log box holds at most as many messages as its
    capacity: an explicit [max_messages] above 0, [max(lines, 512)] for
    [max_messages] 0, none for a negative [max_messages].  After any calls
    on the box the queue is the most recent messages pushed, filtered of
    control characters and in the order they came, as many as the capacity
    allows; so a capacity of [n] keeps the last [n] of [n + 1] messages. *)
Theorem log_queue_bounded (ext : External) (columns lines max_messages : Z)
  (cs : list box_call) :
  exists b, new_LogBox columns lines max_messages = Return b /\
    let b' := run_calls ext cs b in
    let sent := map (filter_control_characters ext) (pushed cs) in
    capacity b' =
      (if max_messages <? 0 then None
       else if max_messages =? 0
            then Some (Z.to_nat (Z.max lines DEFAULT_MAX_MESSAGES))
            else Some (Z.to_nat max_messages)) /\
    match capacity b' with
    | Some n =>
        (length (queue b') <= n)%nat /\ queue b' = lastn n sent /\
        (forall oldest rest,
            pushed cs = oldest :: rest -> length rest = n ->
            queue b' = map (filter_control_characters ext) rest)
    | None => queue b' = sent
    end.
Proof.
  unfold new_LogBox, _determine_max_messages, new_deque, DEFAULT_MAX_MESSAGES.
  set (cap := if max_messages <? 0 then None
              else if max_messages =? 0 then Some (Z.to_nat (Z.max lines 512))
                   else Some (Z.to_nat max_messages)).
  assert (Hcap : forall n, cap = Some n -> (0 < n)%nat).
  { intros n. unfold cap.
    destruct (Z.ltb_spec max_messages 0); [discriminate|].
    destruct (Z.eqb_spec max_messages 0); intros [= <-]; lia. }
  exists (mkBox true None false None None
            (LogBox (mkLogFields columns lines (mkDeque [] cap) None None))).
  split.
  { unfold cap. destruct (Z.ltb_spec max_messages 0) as [Hneg | Hpos];
      [reflexivity|].
    destruct (Z.eqb_spec max_messages 0).
    - destruct (Z.ltb_spec (Z.max lines 512) 0); [lia|reflexivity].
    - destruct (Z.ltb_spec max_messages 0); [lia|reflexivity]. }
  cbn zeta. fold cap.
  set (b0 := mkBox true None false None None
               (LogBox (mkLogFields columns lines (mkDeque [] cap) None None))).
  assert (Hinv : is_log (run_calls ext cs b0) = true /\
                 capacity (run_calls ext cs b0) = cap /\
                 match cap with
                 | Some n =>
                     (length (queue (run_calls ext cs b0)) <= n)%nat /\
                     queue (run_calls ext cs b0) =
                       lastn n (map (filter_control_characters ext) (pushed cs))
                 | None =>
                     queue (run_calls ext cs b0) =
                       map (filter_control_characters ext) (pushed cs)
                 end).
  { induction cs as [|c cs IH] using rev_ind.
    - cbn. repeat split. destruct cap; cbn; auto. split; [lia|reflexivity].
    - rewrite run_calls_snoc, pushed_snoc, map_app.
      destruct IH as [Hl [Hc Hq]].
      pose proof (run_call_queue ext c _ Hl) as [Hl' Hstep].
      split; [exact Hl'|].
      destruct c; cbn zeta in Hstep;
        try (destruct Hstep as [Hc' Hq']; rewrite Hc', Hq', Hc;
             cbn [map]; rewrite app_nil_r; split; [reflexivity|exact Hq]).
      destruct Hstep as [d [Hv [Hc' Hq']]].
      assert (Hcd : maxlen (messages d) = cap).
      { rewrite <- Hc. unfold capacity. rewrite Hv. reflexivity. }
      assert (Hqd : items (messages d) = queue (run_calls ext cs b0)).
      { unfold queue. rewrite Hv. reflexivity. }
      rewrite Hc', Hq'. cbn [map].
      destruct cap as [n|].
      + destruct Hq as [Hlen Hq].
        destruct (append_lastn (messages d)
                    (filter_control_characters ext message) n)
          as [Hm Hi]; [apply Hcap; reflexivity|exact Hcd|rewrite Hqd; exact Hlen|].
        rewrite Hm, Hi, Hqd. split; [reflexivity|].
        split.
        * rewrite lastn_length. lia.
        * rewrite Hq. apply lastn_snoc, Hcap. reflexivity.
      + destruct (append_unbounded (messages d)
                    (filter_control_characters ext message) Hcd) as [Hm Hi].
        rewrite Hm, Hi, Hqd, Hq. auto. }
  destruct Hinv as [_ [Hc Hq]]. split; [exact Hc|]. rewrite Hc.
  destruct cap as [n|]; [|exact Hq].
  destruct Hq as [Hlen Hq]. split; [exact Hlen|]. split; [exact Hq|].
  intros oldest rest Hp Hn. rewrite Hq, Hp. cbn [map].
  rewrite <- Hn, <- (length_map (filter_control_characters ext) rest).
  apply lastn_tail.
Qed.

(** *** Wrapping *)

Lemma slice_index_nat (n c : nat) : slice_index n (Z.of_nat c) = c.
Proof.
  unfold slice_index. destruct (Z.ltb_spec (Z.of_nat c) 0); lia.
Qed.

Lemma ceil_div_0 (c : nat) : (0 < c)%nat -> ceil_div 0 c = O.
Proof.
  intros Hc. unfold ceil_div. apply Nat.div_small. lia.
Qed.

Lemma ceil_div_step (a c : nat) :
  (0 < c)%nat -> (0 < a)%nat -> ceil_div a c = S (ceil_div (a - c) c).
Proof.
  intros Hc Ha. unfold ceil_div.
  destruct (Nat.le_gt_cases a c) as [Hle | Hgt].
  - replace (a - c)%nat with O by lia.
    replace (a + c - 1)%nat with (a - 1 + 1 * c)%nat by lia.
    rewrite Nat.div_add by lia.
    rewrite (Nat.div_small (a - 1)) by lia.
    rewrite (Nat.div_small (0 + c - 1)) by lia. reflexivity.
  - replace (a + c - 1)%nat with (a - c + c - 1 + 1 * c)%nat by lia.
    rewrite Nat.div_add by lia. lia.
Qed.

Lemma ceil_div_pos (a c : nat) :
  (0 < c)%nat -> ceil_div a c = O -> a = O.
Proof.
  intros Hc H. destruct a as [|a]; [reflexivity|].
  rewrite ceil_div_step in H by lia. discriminate.
Qed.

Lemma slices_S (c n : nat) (message : str) :
  slices c (S n) message = firstn c message :: slices c n (skipn c message).
Proof.
  unfold slices. cbn [seq map]. f_equal.
  rewrite <- seq_shift, map_map. apply map_ext. intros i.
  unfold slice. rewrite skipn_skipn. do 2 f_equal. lia.
Qed.

(** With enough lines left, the inner loop cuts the whole message into its
    slices and uses one line for each. *)
Lemma wrap_message_slices (c : nat) :
  (0 < c)%nat ->
  forall (remaining : nat) (message : str),
    (ceil_div (length message) c <= remaining)%nat ->
    wrap_message (Z.of_nat c) remaining message =
    (slices c (ceil_div (length message) c) message,
     (remaining - ceil_div (length message) c)%nat).
Proof.
  intros Hc. induction remaining as [|r IH]; intros message Hle.
  - assert (Hm : length message = O) by (apply (ceil_div_pos _ c); lia).
    destruct message; [|discriminate]. cbn. rewrite ceil_div_0 by lia.
    reflexivity.
  - destruct message as [|a m].
    + cbn. rewrite ceil_div_0 by lia. reflexivity.
    + cbn [wrap_message]. unfold slice_from, slice_to.
      rewrite slice_index_nat.
      rewrite (ceil_div_step (length (a :: m)) c) in * by (cbn; lia).
      rewrite <- (length_skipn c (a :: m)) in *.
      rewrite IH by lia. rewrite slices_S. f_equal.
Qed.

Lemma slices_length (c n : nat) (message : str) :
  length (slices c n message) = n.
Proof. unfold slices. rewrite length_map, length_seq. reflexivity. Qed.

Lemma slices_lookup (c n i : nat) (message : str) :
  (i < n)%nat -> slices c n message !! i = Some (slice c i message).
Proof.
  intros Hi. unfold slices. rewrite list_lookup_fmap.
  rewrite lookup_seq_lt by exact Hi. reflexivity.
Qed.

Lemma slices_width (c n : nat) (message : str) :
  Forall (fun l => (length l <= c)%nat) (slices c n message).
Proof.
  unfold slices. apply List.Forall_forall. intros l Hl.
  apply in_map_iff in Hl as [i [<- _]]. unfold slice.
  rewrite length_firstn. lia.
Qed.

(** Lines pushed on the left of a deque with room for them stay, in the
    order of the message. *)
Lemma appendleft_all {A} (n : nat) (ls acc : list A) :
  (length ls + length acc <= n)%nat ->
  fold_left appendleft (rev ls) (mkDeque acc (Some n)) =
  mkDeque (ls ++ acc) (Some n).
Proof.
  induction ls as [|a ls IH]; intros Hlen; [reflexivity|].
  cbn [rev]. rewrite fold_left_app. cbn [fold_left].
  rewrite IH by (cbn in Hlen; lia).
  unfold appendleft. cbn [maxlen items].
  destruct n as [|n]; [cbn in Hlen; lia|].
  destruct (Nat.ltb_spec (length (ls ++ acc)) (S n)) as [Hlt | Hge].
  - reflexivity.
  - rewrite length_app in Hge. cbn in Hlen. lia.
Qed.

(** C6.  A log box of column width [C > 0] whose queue is one message of
    length [L], with a line budget of at least [ceil(L / C)]: wrapping
    yields [ceil(L / C)] lines, each at most [C] characters long, the
    [i]-th being the slice [message[i*C : (i+1)*C]]; an empty message
    yields no line. *)
Theorem wrap_single_message (log : LogFields) (message : str) (offset : Z) :
  0 < columns log ->
  items (messages log) = [message] ->
  Z.of_nat (ceil_div (length message) (Z.to_nat (columns log))) <= lines log ->
  exists d, _map_messages_to_lines log offset = Return d /\
    let c := Z.to_nat (columns log) in
    let n := ceil_div (length message) c in
    length (items d) = n /\
    Forall (fun l => (length l <= c)%nat) (items d) /\
    (forall i, (i < n)%nat ->
       items d !! i = Some (firstn c (skipn (i * c) message))) /\
    (length message = O -> items d = []).
Proof.
  intros Hc Hq Hlines.
  set (c := Z.to_nat (columns log)). set (n := ceil_div (length message) c).
  assert (Hc' : (0 < c)%nat) by (unfold c; lia).
  assert (HC : columns log = Z.of_nat c) by (unfold c; lia).
  exists (mkDeque (slices c n message) (Some (Z.to_nat (lines log)))).
  split.
  - unfold _map_messages_to_lines, new_deque.
    destruct (Z.ltb_spec (lines log) 0) as [Hneg | Hpos]; [lia|].
    f_equal. rewrite Hq. cbn [rev app map_loop].
    destruct (Z.to_nat (lines log)) as [|r] eqn:Er.
    + assert (Hn : n = O) by (fold c n in Hlines; lia).
      rewrite Hn. reflexivity.
    + rewrite HC. rewrite wrap_message_slices; [|exact Hc'|fold n; fold c n in Hlines; lia].
      fold n. rewrite appendleft_all.
      * rewrite app_nil_r. reflexivity.
      * rewrite slices_length. cbn. fold c n in Hlines. lia.
  - cbn [items]. split; [apply slices_length|].
    split; [apply slices_width|]. split.
    + intros i Hi. apply slices_lookup, Hi.
    + intros HL. unfold n. rewrite HL, ceil_div_0 by exact Hc'. reflexivity.
Qed.

(** *** The cursor *)


Lemma get_cursor_position_set b o :
  is_log b = true -> offset_of b = Some o ->
  get_cursor_position b =
  Return (mkPosition (fst (origin b) + y o) (snd (origin b) + x o)).
Proof.
  unfold is_log, offset_of, get_cursor_position, origin.
  destruct (variant b); try discriminate. intros _ ->.
  destruct (position b); reflexivity.
Qed.



(** ** The rate *)






(** ** The registry of live displays *)





(** ** Resizing the display *)

Lemma update_items_returns ext items s :
  snd (BoxLayout.update_items ext items s) = Return tt.
Proof.
  revert s. induction items as [|[item|] items IH]; intros s; cbn;
    [reflexivity| |apply IH].
  unfold bind, BoxLayout.on_box.
  pose proof (update_returns ext (BoxLayout.heap s !!! item)) as Hu.
  destruct (update ext (BoxLayout.heap s !!! item)) as [b' r]. cbn in Hu.
  subst r. apply IH.
Qed.

Lemma update_content_returns ext s :
  snd (BoxLayout.update_content ext s) = Return tt.
Proof.
  unfold BoxLayout.update_content, bind, gets. apply update_items_returns.
Qed.

Lemma on_layout_calls {A} display (m : M BoxLayout.state A) w :
  ProgressDisplay.calls (fst (ProgressDisplay.on_layout display m w)) =
  ProgressDisplay.calls w.
Proof.
  unfold ProgressDisplay.on_layout. destruct (m _) as [s r]. reflexivity.
Qed.

Lemma on_layout_snd {A} display (m : M BoxLayout.state A) w :
  snd (ProgressDisplay.on_layout display m w) =
  snd (m (BoxLayout.mkState
            (ProgressDisplay.layout (ProgressDisplay.objects w !!! display))
            (ProgressDisplay.boxes w))).
Proof.
  unfold ProgressDisplay.on_layout. destruct (m _) as [s r]. reflexivity.
Qed.

(** The outcome of the reflow that [resize] runs at [w]. *)
Lemma resize_calls ext display w :
  let size := ProgressDisplay.os_terminal_size w in
  let l := ProgressDisplay.size_lines size in
  let c := ProgressDisplay.size_columns size in
  let smaller :=
    c <? ProgressDisplay.size_columns
           (ProgressDisplay.term_size (ProgressDisplay.objects w !!! display)) in
  let reflow := ProgressDisplay.Layout_resize display l c in
  let w' := fst (ProgressDisplay.resize ext display w) in
  match snd (ProgressDisplay.resize ext display w) with
  | Return _ =>
      ProgressDisplay.calls w' =
      ProgressDisplay.calls w ++
      (if smaller then reflow :: surface_calls l c
       else surface_calls l c ++ [reflow]) ++
      rerender_calls display
  | Raise e =>
      ProgressDisplay.calls w' =
      ProgressDisplay.calls w ++
      (if smaller then [reflow] else surface_calls l c ++ [reflow])
  end.
Proof.
  cbn zeta.
  unfold ProgressDisplay.resize, ProgressDisplay.refresh, bind,
    ProgressDisplay.self, ProgressDisplay.on_self, ProgressDisplay.do, modify,
    ret, gets.
  cbn beta iota.
  destruct (ProgressDisplay.size_columns (ProgressDisplay.os_terminal_size w) <?
            ProgressDisplay.size_columns
              (ProgressDisplay.term_size
                 (ProgressDisplay.objects w !!! display))) eqn:Es;
    cbn [negb]; cbn beta iota.
  - match goal with
    | |- context [ProgressDisplay.on_layout display
                    (BoxLayout.resize ext ?l ?c) ?w2] =>
        pose proof (on_layout_calls display (BoxLayout.resize ext l c) w2) as Hc;
        destruct (ProgressDisplay.on_layout display (BoxLayout.resize ext l c) w2)
          as [w3 [[]|e]]
    end; cbn [fst snd] in *.
    + match goal with
      | |- context [ProgressDisplay.on_layout display
                      (BoxLayout.update_content ext) ?w4] =>
          pose proof (on_layout_calls display (BoxLayout.update_content ext) w4)
            as Hu;
          pose proof (on_layout_snd display (BoxLayout.update_content ext) w4)
            as Hs;
          rewrite update_content_returns in Hs;
          destruct (ProgressDisplay.on_layout display
                      (BoxLayout.update_content ext) w4) as [w5 r5]
      end; cbn [fst snd] in *. subst r5. cbn.
      rewrite Hu. cbn. rewrite Hc. cbn.
      unfold surface_calls, rerender_calls.
      rewrite <- !app_assoc. reflexivity.
    + rewrite Hc. reflexivity.
  - match goal with
    | |- context [ProgressDisplay.on_layout display
                    (BoxLayout.resize ext ?l ?c) ?w2] =>
        pose proof (on_layout_calls display (BoxLayout.resize ext l c) w2) as Hc;
        destruct (ProgressDisplay.on_layout display (BoxLayout.resize ext l c) w2)
          as [w3 [[]|e]]
    end; cbn [fst snd] in *.
    + match goal with
      | |- context [ProgressDisplay.on_layout display
                      (BoxLayout.update_content ext) ?w4] =>
          pose proof (on_layout_calls display (BoxLayout.update_content ext) w4)
            as Hu;
          pose proof (on_layout_snd display (BoxLayout.update_content ext) w4)
            as Hs;
          rewrite update_content_returns in Hs;
          destruct (ProgressDisplay.on_layout display
                      (BoxLayout.update_content ext) w4) as [w5 r5]
      end; cbn [fst snd] in *. subst r5. cbn.
      rewrite Hu. cbn. rewrite Hc. cbn.
      unfold surface_calls, rerender_calls.
      rewrite <- !app_assoc. reflexivity.
    + rewrite Hc. cbn. unfold surface_calls.
      rewrite <- !app_assoc. reflexivity.
Qed.

(** C2 (amended).  [ProgressDisplay.resize] reflows the layout before it
    resizes the terminal surface when the terminal has become narrower,
    and after it otherwise.  A call whose reflow returns resizes the
    surface once and ends with a full re-render.  A call whose reflow
    raises ends with the reflow: the surface has then not been resized when
    the terminal has become narrower, it has been resized once otherwise,
    and nothing is rendered again. *)
Theorem resize_reflow_order (ext : External) (display : nat)
  (w : ProgressDisplay.world) :
  let size := ProgressDisplay.os_terminal_size w in
  let l := ProgressDisplay.size_lines size in
  let c := ProgressDisplay.size_columns size in
  let smaller :=
    c <? ProgressDisplay.size_columns
           (ProgressDisplay.term_size (ProgressDisplay.objects w !!! display)) in
  let reflow := ProgressDisplay.Layout_resize display l c in
  let w' := fst (ProgressDisplay.resize ext display w) in
  match snd (ProgressDisplay.resize ext display w) with
  | Return _ =>
      ProgressDisplay.calls w' =
      ProgressDisplay.calls w ++
      (if smaller then reflow :: surface_calls l c
       else surface_calls l c ++ [reflow]) ++
      rerender_calls display
  | Raise e =>
      ProgressDisplay.calls w' =
      ProgressDisplay.calls w ++
      (if smaller then [reflow] else surface_calls l c ++ [reflow])
  end.
Proof. apply resize_calls. Qed.

(** C2 as stated fails: on a terminal shrunk from 130 to 30 columns the
    reflow raises the sizing error, and the call ends without resizing the
    terminal surface and without a re-render. *)
Lemma resize_shrunk_too_far :
  let w := user_resizes 40 30 one_display in
  let w' := fst (ProgressDisplay.resize plain 0 w) in
  snd (ProgressDisplay.resize plain 0 w) =
    Raise (ProgressException "Insufficient columns available" None) /\
  calls_since w w' = [ProgressDisplay.Layout_resize 0 40 30] /\
  surface_resizes (calls_since w w') <> 1%nat.
Proof. vm_compute. repeat split; discriminate. Qed.

(** ** Failures of an update *)

Lemma list_remove_lookup (l : list nat) :
  forall i d, l !! i = Some d ->
    exists l', ProgressDisplay.list_remove d l = Some l' /\
               length l = S (length l').
Proof.
  induction l as [|a l IH]; intros i d Hi; [discriminate|].
  cbn. destruct (Nat.eqb_spec a d) as [-> | Hne].
  - exists l. auto.
  - destruct i as [|i]; [cbn in Hi; congruence|].
    destruct (IH i d Hi) as [l' [Hr Hlen]]. rewrite Hr.
    exists (a :: l'). cbn. auto.
Qed.

(** The loop of [reset_terminal] returns; it calls [endwin] once for
    every display it visits, which is at least once when there is a display
    at its index, and touches nothing but the registry and the terminal. *)
Lemma for_display_end fuel :
  forall i w,
    (length (ProgressDisplay._displays w) <= fuel + i)%nat ->
    let w' := fst (ProgressDisplay.for_display fuel i ProgressDisplay.end_ w) in
    snd (ProgressDisplay.for_display fuel i ProgressDisplay.end_ w) = Return tt /\
    ProgressDisplay.objects w' = ProgressDisplay.objects w /\
    ProgressDisplay.boxes w' = ProgressDisplay.boxes w /\
    exists k,
      ProgressDisplay.calls w' =
        ProgressDisplay.calls w ++ repeat ProgressDisplay.Endwin k /\
      (k = O -> w' = w) /\
      ((0 < k)%nat -> ProgressDisplay.mode w' = ProgressDisplay.Normal) /\
      ((i < length (ProgressDisplay._displays w))%nat -> (0 < k)%nat).
Proof.
  induction fuel as [|fuel IH]; intros i w Hlen; cbn zeta.
  - cbn. rewrite (lookup_ge_None_2 _ i) by lia. cbn.
    repeat split. exists O. rewrite app_nil_r. repeat split; try lia.
  - cbn [ProgressDisplay.for_display].
    destruct (ProgressDisplay._displays w !! i) as [d|] eqn:Ed.
    + destruct (list_remove_lookup _ _ _ Ed) as [l' [Hr Hl]].
      assert (Hend : ProgressDisplay.end_ d w =
                     (ProgressDisplay.set_displays l'
                        (ProgressDisplay.set_mode ProgressDisplay.Normal
                           (ProgressDisplay.record ProgressDisplay.Endwin w)),
                      Return tt)).
      { unfold ProgressDisplay.end_, bind, ProgressDisplay.do, modify. cbn.
        rewrite Hr. reflexivity. }
      set (w1 := ProgressDisplay.set_displays l' _) in Hend.
      assert (Hstep :
        bind (ProgressDisplay.end_ d)
          (fun _ => ProgressDisplay.for_display fuel (S i) ProgressDisplay.end_)
          w =
        ProgressDisplay.for_display fuel (S i) ProgressDisplay.end_ w1).
      { unfold bind. rewrite Hend. reflexivity. }
      rewrite Hstep.
      destruct (IH (S i) w1) as [H1 [H2 [H3 [k [H4 [H5 [H6 H7]]]]]]];
        [unfold w1; cbn; lia|].
      destruct (ProgressDisplay.for_display fuel (S i) ProgressDisplay.end_ w1)
        as [w2 r2]. cbn [fst snd] in *. subst r2.
      split; [reflexivity|]. split; [exact H2|]. split; [exact H3|].
      exists (S k). split; [|split; [|split]].
      * rewrite H4. unfold w1. cbn. rewrite <- app_assoc. reflexivity.
      * discriminate.
      * intros _. destruct k as [|k]; [|apply H6; lia].
        rewrite (H5 eq_refl). reflexivity.
      * lia.
    + cbn. repeat split. exists O. rewrite app_nil_r.
      repeat split; try lia. intros Hi. apply lookup_ge_None in Ed. lia.
Qed.

(** [reset_terminal] returns and, with a display in the registry, leaves
    the terminal in its normal mode. *)
Lemma reset_terminal_restores w :
  let w' := fst (ProgressDisplay.reset_terminal w) in
  snd (ProgressDisplay.reset_terminal w) = Return tt /\
  exists k,
    ProgressDisplay.calls w' =
      ProgressDisplay.calls w ++ repeat ProgressDisplay.Endwin k /\
    (ProgressDisplay._displays w <> [] ->
     (0 < k)%nat /\ ProgressDisplay.mode w' = ProgressDisplay.Normal).
Proof.
  unfold ProgressDisplay.reset_terminal.
  destruct (for_display_end (length (ProgressDisplay._displays w)) 0 w)
    as [H1 [_ [_ [k [H4 [_ [H6 H7]]]]]]]; [lia|].
  split; [exact H1|]. exists k. split; [exact H4|].
  intros Hne. assert (Hk : (0 < k)%nat).
  { apply H7. destruct (ProgressDisplay._displays w); [congruence|cbn; lia]. }
  auto.
Qed.

(** What [handle_update] does when rendering raises [e] after the pending
    resize, if any, was served: it runs [reset_terminal], which ends with
    the terminal in normal mode when the registry is not empty, and raises
    the display failure with [e] as its cause. *)
Lemma handle_update_failure ext display progress w w1 w2 r1 e :
  ProgressDisplay._resize_if_necessary ext display w = (w1, Return r1) ->
  bind (ProgressDisplay._display_metrics ext display progress)
       (fun _ => ProgressDisplay.refresh) w1 = (w2, Raise e) ->
  let w' := fst (ProgressDisplay.handle_update ext display progress w) in
  snd (ProgressDisplay.handle_update ext display progress w) =
    Raise (ProgressException "Rendering progress update failed" (Some e)) /\
  exists k,
    ProgressDisplay.calls w' =
      ProgressDisplay.calls w2 ++ repeat ProgressDisplay.Endwin k /\
    (ProgressDisplay._displays w2 <> [] ->
     (0 < k)%nat /\ ProgressDisplay.mode w' = ProgressDisplay.Normal).
Proof.
  intros Hres Hrender.
  destruct (reset_terminal_restores w2) as [Hr [k [Hc Hm]]].
  assert (Heq :
    ProgressDisplay.handle_update ext display progress w =
    (fst (ProgressDisplay.reset_terminal w2),
     Raise (ProgressException "Rendering progress update failed" (Some e)))).
  { unfold ProgressDisplay.handle_update.
    unfold bind at 1. rewrite Hres. unfold try_except. rewrite Hrender.
    unfold bind at 1, raise.
    destruct (ProgressDisplay.reset_terminal w2) as [w3 r3].
    cbn [fst snd] in *. subst r3. reflexivity. }
  rewrite Heq. cbn [fst snd].
  split; [reflexivity|]. exists k. auto.
Qed.


(** ** The layout *)

(** *** The heap *)

Lemma heap_insert_same (heap : list Box) (i : nat) (b : Box) :
  (i < length heap)%nat -> <[i := b]> heap !!! i = b.
Proof. intros H. apply list_lookup_total_insert_eq, H. Qed.

Lemma heap_insert_other (heap : list Box) (i j : nat) (b : Box) :
  i <> j -> <[i := b]> heap !!! j = heap !!! j.
Proof. intros H. apply list_lookup_total_insert_ne, H. Qed.

Lemma heap_insert_twice (heap : list Box) (i : nat) (b b' : Box) :
  <[i := b']> (<[i := b]> heap) = <[i := b']> heap.
Proof. apply list_insert_insert_eq. Qed.

(** *** Measuring a row *)

Lemma heap_lookup_out (heap : list Box) (i : nat) :
  (length heap <= i)%nat -> heap !!! i = inhabitant.
Proof.
  intros H. rewrite list_lookup_total_alt.
  rewrite (lookup_ge_None_2 heap i) by exact H. reflexivity.
Qed.

(** A box read back after [resize_for_layout] wrote it: an identity
    without a box reads as a box that is not a log box, which
    [resize_for_layout] leaves alone. *)
Lemma heap_insert_resized (heap : list Box) (i : nat) properties :
  <[i := fst (resize_for_layout properties (heap !!! i))]> heap !!! i =
  fst (resize_for_layout properties (heap !!! i)).
Proof.
  destruct (Nat.lt_ge_cases i (length heap)) as [Hlt | Hge].
  - apply heap_insert_same, Hlt.
  - rewrite list_insert_ge by exact Hge.
    rewrite (heap_lookup_out heap i Hge). reflexivity.
Qed.

(** One turn of the first loop of [_position_row]. *)
Lemma measure_row_step box rest v s :
  let l := BoxLayout.self s in
  let properties := BoxLayout.get_layout_properties l in
  let b := BoxLayout.heap s !!! box in
  let b1 := fst (resize_for_layout properties b) in
  let s2 :=
    BoxLayout.mkState l (<[box := measured properties b]> (BoxLayout.heap s)) in
  BoxLayout.measure_row (box :: rest) v s =
  match snd (resize_for_layout properties b) with
  | Raise e => (BoxLayout.mkState l (<[box := b1]> (BoxLayout.heap s)), Raise e)
  | Return _ =>
      let height := fst (size_of b1) in
      let width := snd (size_of b1) in
      let required_width := width + BoxLayout.padding l in
      if negb (len (BoxLayout.positioned v) =? 0) &&
         (negb (len (BoxLayout.extra v) =? 0) ||
          (BoxLayout.row_width v + required_width >? BoxLayout.cols l))
      then
        BoxLayout.measure_row rest
          (BoxLayout.mkRowVars (BoxLayout.positioned v)
             (BoxLayout.extra v ++ [box]) (BoxLayout.row_width v)
             (BoxLayout.unpadded_row_width v) (BoxLayout.row_height v)) s2
      else
        if BoxLayout.row_width v + required_width >? BoxLayout.cols l
        then (s2, Raise (ProgressException "Insufficient columns available" None))
        else
          BoxLayout.measure_row rest
            (BoxLayout.mkRowVars
               (BoxLayout.positioned v ++ [(box, height, width)])
               (BoxLayout.extra v)
               (BoxLayout.row_width v + required_width)
               (BoxLayout.unpadded_row_width v + width)
               (Z.max (BoxLayout.row_height v) height)) s2
  end.
Proof.
  cbn zeta. cbn [BoxLayout.measure_row].
  unfold bind at 1. unfold gets at 1. cbn iota beta.
  unfold bind at 1. unfold BoxLayout.on_box at 1.
  pose proof (heap_insert_resized (BoxLayout.heap s) box
                (BoxLayout.get_layout_properties (BoxLayout.self s))) as Hread.
  destruct (resize_for_layout _ (BoxLayout.heap s !!! box)) as [b1 r1] eqn:Er.
  cbn [fst snd] in *. destruct r1 as [a|e]; [|reflexivity].
  unfold bind at 1. unfold BoxLayout.on_box at 1. cbn [BoxLayout.heap].
  rewrite Hread.
  unfold compute_size. cbn [BoxLayout.self]. rewrite heap_insert_twice.
  unfold bind at 1. unfold gets at 1. cbn iota beta. cbn [BoxLayout.self].
  unfold measured. rewrite Er. cbn [fst].
  destruct (size_of b1) as [height width]. cbn [fst snd].
  destruct (negb (len (BoxLayout.positioned v) =? 0) && _); [reflexivity|].
  destruct (_ >? _); reflexivity.
Qed.

Lemma heap_insert_cases (heap : list Box) (i j : nat) (b : Box) :
  <[i := b]> heap !!! j = heap !!! j \/
  (i = j /\ (i < length heap)%nat /\ <[i := b]> heap !!! j = b).
Proof.
  destruct (decide (i = j)) as [<- | Hne].
  - destruct (Nat.lt_ge_cases i (length heap)) as [Hlt | Hge].
    + right. split; [reflexivity|]. split; [exact Hlt|].
      apply heap_insert_same, Hlt.
    + left. rewrite list_insert_ge by exact Hge. reflexivity.
  - left. apply heap_insert_other, Hne.
Qed.

(** A relation that holds between a box and what is written in its
    place holds between the heaps, box by box. *)
Lemma heap_insert_related (R : Box -> Box -> Prop) (heap : list Box)
  (i : nat) (b : Box) :
  (forall b0, R b0 b0) -> R (heap !!! i) b ->
  forall j, R (heap !!! j) (<[i := b]> heap !!! j).
Proof.
  intros Hrefl Hb j.
  destruct (heap_insert_cases heap i j b) as [-> | [<- [_ ->]]]; auto.
Qed.

Lemma same_place_refl b : same_place b b.
Proof. unfold same_place. auto. Qed.

Lemma same_place_trans b1 b2 b3 :
  same_place b1 b2 -> same_place b2 b3 -> same_place b1 b3.
Proof.
  unfold same_place. intros [H1 [H2 H3]] [H4 [H5 H6]].
  repeat split; congruence.
Qed.

Lemma resize_for_layout_same_place properties b :
  same_place b (fst (resize_for_layout properties b)).
Proof.
  unfold same_place, static_of, resize_for_layout, resize_for_layout_log.
  destruct b as [bo ti wi po la v]. destruct v as [m | bn | log]; cbn; auto.
  destruct (_ <? 3); cbn; auto.
Qed.

Lemma measured_same_place properties b : same_place b (measured properties b).
Proof.
  unfold measured.
  destruct (resize_for_layout_same_place properties b) as [H1 [H2 H3]].
  unfold same_place, static_of in *. cbn. auto.
Qed.

(** What measuring makes of the size of a box depends on the layout and
    on what the box is, not on the size it had. *)
Lemma resize_for_layout_size properties b :
  size_of (fst (resize_for_layout properties b)) =
  match variant b with
  | LogBox _ =>
      if border b
      then log_size properties
      else (lp_lines properties - lp_current_line properties - 2,
            lp_max_row_width properties - 2)
  | _ => size_of b
  end.
Proof.
  unfold resize_for_layout, resize_for_layout_log, size_of, get_height,
    get_width, log_size.
  destruct b as [bo ti wi po la v]. destruct v as [m | bn | log]; cbn;
    try reflexivity.
  destruct (_ <? 3); cbn; destruct bo; f_equal; lia.
Qed.

Lemma resize_for_layout_outcome properties b :
  snd (resize_for_layout properties b) =
  match variant b with
  | LogBox _ =>
      if lp_lines properties - lp_current_line properties - 2 <? 3
      then Raise (ProgressException
                    "Insufficient space available to display log messages" None)
      else Return true
  | _ => Return false
  end.
Proof.
  unfold resize_for_layout, resize_for_layout_log.
  destruct b as [bo ti wi po la v]. destruct v as [m | bn | log]; cbn;
    try reflexivity.
  destruct (_ <? 3); reflexivity.
Qed.

Lemma static_of_variant b b' :
  static_of b' = static_of b ->
  border b' = border b /\ is_log b' = is_log b /\
  (is_log b = false -> variant b' = variant b).
Proof.
  unfold static_of, is_log.
  destruct b as [bo ti wi po la v], b' as [bo' ti' wi' po' la' v']. cbn.
  intros H. destruct v, v'; inversion H; subst; auto.
  repeat split. discriminate.
Qed.

Lemma static_of_size properties b b' :
  static_of b' = static_of b ->
  size_of (fst (resize_for_layout properties b')) =
    size_of (fst (resize_for_layout properties b)) /\
  snd (resize_for_layout properties b') =
    snd (resize_for_layout properties b).
Proof.
  intros H. destruct (static_of_variant b b' H) as [Hb [Hl Hv]].
  rewrite !resize_for_layout_size, !resize_for_layout_outcome.
  unfold is_log in *. rewrite Hb.
  destruct (variant b) eqn:Ev.
  - rewrite (Hv eq_refl). unfold size_of, get_height, get_width.
    rewrite Hb, (Hv eq_refl), Ev. auto.
  - rewrite (Hv eq_refl). unfold size_of, get_height, get_width.
    rewrite Hb, (Hv eq_refl), Ev. auto.
  - destruct (variant b'); try discriminate. auto.
Qed.

Lemma measured_size properties b :
  size_of (measured properties b) =
  size_of (fst (resize_for_layout properties b)).
Proof. reflexivity. Qed.

(** Measuring a box again against the same snapshot gives the same
    size. *)
Lemma measured_settled properties b :
  size_of (fst (resize_for_layout properties (measured properties b))) =
  size_of (measured properties b).
Proof.
  rewrite measured_size.
  destruct (measured_same_place properties b) as [_ [_ Hs]].
  destruct (static_of_size properties b _ Hs) as [H _]. exact H.
Qed.

Lemma well_formed_static b b' :
  static_of b' = static_of b -> (is_log b = false -> size_of b' = size_of b) ->
  well_formed b = true -> well_formed b' = true.
Proof.
  intros Hs Hsz. destruct (static_of_variant b b' Hs) as [Hb [Hl _]].
  unfold well_formed. rewrite Hl, Hb.
  destruct (is_log b); [auto|]. rewrite Hsz by reflexivity. auto.
Qed.

Lemma measured_well_formed properties b :
  well_formed b = true -> well_formed (measured properties b) = true.
Proof.
  destruct (measured_same_place properties b) as [_ [_ Hs]].
  apply (well_formed_static _ _ Hs). intros Hl.
  rewrite measured_size, resize_for_layout_size.
  unfold is_log in Hl. destruct (variant b); try discriminate; reflexivity.
Qed.

Lemma widths_snoc positioned e :
  widths (positioned ++ [e]) = widths positioned + snd e.
Proof.
  unfold widths. induction positioned as [|e0 p IH]; cbn; [lia|].
  rewrite IH. lia.
Qed.

Lemma padded_widths_snoc pad positioned e :
  padded_widths pad (positioned ++ [e]) =
  padded_widths pad positioned + (snd e + pad).
Proof.
  unfold padded_widths. induction positioned as [|e0 p IH]; cbn; [lia|].
  rewrite IH. lia.
Qed.

Lemma heap_insert_measured_size (heap : list Box) (box : nat) properties :
  size_of (<[box := measured properties (heap !!! box)]> heap !!! box) =
  size_of (measured properties (heap !!! box)).
Proof.
  destruct (Nat.lt_ge_cases box (length heap)) as [Hlt | Hge].
  - rewrite heap_insert_same by exact Hlt. reflexivity.
  - rewrite list_insert_ge by exact Hge.
    rewrite (heap_lookup_out heap box Hge). reflexivity.
Qed.

(** The first loop leaves the layout alone and every box where it is. *)
Lemma measure_row_frame row :
  forall v s,
    let s' := fst (BoxLayout.measure_row row v s) in
    BoxLayout.self s' = BoxLayout.self s /\
    length (BoxLayout.heap s') = length (BoxLayout.heap s) /\
    (forall id, same_place (BoxLayout.heap s !!! id) (BoxLayout.heap s' !!! id)) /\
    (forall id, id ∉ row -> BoxLayout.heap s' !!! id = BoxLayout.heap s !!! id).
Proof.
  induction row as [|box rest IH]; intros v s; cbn zeta.
  - cbn. repeat split; auto using same_place_refl.
  - rewrite measure_row_step. cbv zeta.
    set (properties := BoxLayout.get_layout_properties (BoxLayout.self s)).
    set (b := BoxLayout.heap s !!! box).
    assert (Hstep : forall b',
      same_place b b' ->
      let s2 := BoxLayout.mkState (BoxLayout.self s)
                  (<[box := b']> (BoxLayout.heap s)) in
      BoxLayout.self s2 = BoxLayout.self s /\
      length (BoxLayout.heap s2) = length (BoxLayout.heap s) /\
      (forall id, same_place (BoxLayout.heap s !!! id) (BoxLayout.heap s2 !!! id)) /\
      (forall id, id ∉ box :: rest ->
         BoxLayout.heap s2 !!! id = BoxLayout.heap s !!! id)).
    { intros b' Hb'. cbn. repeat split.
      - apply length_insert.
      - apply (heap_insert_related same_place); auto using same_place_refl.
      - apply (heap_insert_related same_place); auto using same_place_refl.
      - apply (heap_insert_related same_place); auto using same_place_refl.
      - intros id Hid. apply heap_insert_other. intros ->. apply Hid. left. }
    assert (Hrest : forall v2 b',
      same_place b b' ->
      let s2 := BoxLayout.mkState (BoxLayout.self s)
                  (<[box := b']> (BoxLayout.heap s)) in
      let s' := fst (BoxLayout.measure_row rest v2 s2) in
      BoxLayout.self s' = BoxLayout.self s /\
      length (BoxLayout.heap s') = length (BoxLayout.heap s) /\
      (forall id, same_place (BoxLayout.heap s !!! id) (BoxLayout.heap s' !!! id)) /\
      (forall id, id ∉ box :: rest ->
         BoxLayout.heap s' !!! id = BoxLayout.heap s !!! id)).
    { intros v2 b' Hb'. cbn zeta.
      destruct (Hstep b' Hb') as [H1 [H2 [H3 H4]]].
      destruct (IH v2 (BoxLayout.mkState (BoxLayout.self s)
                         (<[box := b']> (BoxLayout.heap s))))
        as [H5 [H6 [H7 H8]]].
      split; [congruence|]. split; [congruence|]. split.
      - intros id. eapply same_place_trans; [apply H3|apply H7].
      - intros id Hid. rewrite H8; [apply H4, Hid|].
        intros Hin. apply Hid. right. exact Hin. }
    destruct (snd (resize_for_layout properties b)) as [a|e].
    + destruct (negb (len (BoxLayout.positioned v) =? 0) && _).
      * apply Hrest, measured_same_place.
      * destruct (_ >? _).
        -- apply (Hstep _ (measured_same_place properties b)).
        -- apply Hrest, measured_same_place.
    + apply (Hstep _ (resize_for_layout_same_place properties b)).
Qed.


Lemma heap_insert_measured_settled (heap : list Box) (box : nat) properties :
  size_of (fst (resize_for_layout properties
                  (<[box := measured properties (heap !!! box)]> heap !!! box))) =
  size_of (measured properties (heap !!! box)).
Proof.
  destruct (Nat.lt_ge_cases box (length heap)) as [Hlt | Hge].
  - rewrite heap_insert_same by exact Hlt. apply measured_settled.
  - rewrite list_insert_ge by exact Hge.
    rewrite (heap_lookup_out heap box Hge). reflexivity.
Qed.

(** A measured box has a size that is not negative. *)
Lemma measured_not_negative s box a :
  layout_ok s ->
  let properties := BoxLayout.get_layout_properties (BoxLayout.self s) in
  let b := BoxLayout.heap s !!! box in
  snd (resize_for_layout properties b) = Return a ->
  0 <= fst (size_of (fst (resize_for_layout properties b))) /\
  0 <= snd (size_of (fst (resize_for_layout properties b))).
Proof.
  intros [_ [_ [Hm Hw]]]. cbn zeta.
  rewrite resize_for_layout_size, resize_for_layout_outcome.
  specialize (Hw box). unfold well_formed, is_log in Hw.
  destruct (variant (BoxLayout.heap s !!! box)) eqn:Ev.
  - intros _. lia.
  - intros _. lia.
  - rewrite Hw. unfold log_size, BoxLayout.get_layout_properties. cbn.
    destruct (Z.ltb_spec
      (BoxLayout.lines (BoxLayout.self s) -
       BoxLayout.current_line (BoxLayout.self s) - 2) 3); [discriminate|].
    intros _. lia.
Qed.

Lemma layout_ok_measured s box :
  layout_ok s ->
  layout_ok
    (BoxLayout.mkState (BoxLayout.self s)
       (<[box := measured (BoxLayout.get_layout_properties (BoxLayout.self s))
                   (BoxLayout.heap s !!! box)]> (BoxLayout.heap s))).
Proof.
  intros [Hp [Hc [Hm Hw]]]. unfold layout_ok. cbn.
  repeat split; try assumption. intros id.
  destruct (heap_insert_cases (BoxLayout.heap s) box id
              (measured (BoxLayout.get_layout_properties (BoxLayout.self s))
                 (BoxLayout.heap s !!! box)))
    as [-> | [_ [_ ->]]]; [apply Hw|].
  apply measured_well_formed, Hw.
Qed.

Lemma entry_ok_measured s box H H' e :
  H <= H' ->
  entry_ok s H e ->
  entry_ok
    (BoxLayout.mkState (BoxLayout.self s)
       (<[box := measured (BoxLayout.get_layout_properties (BoxLayout.self s))
                   (BoxLayout.heap s !!! box)]> (BoxLayout.heap s))) H' e.
Proof.
  intros HH [H1 [H2 [H3 H4]]]. unfold entry_ok. cbn.
  destruct (heap_insert_cases (BoxLayout.heap s) box (fst (fst e))
              (measured (BoxLayout.get_layout_properties (BoxLayout.self s))
                 (BoxLayout.heap s !!! box)))
    as [-> | [Heq [_ ->]]].
  - repeat split; try assumption; lia.
  - subst box. rewrite measured_settled, measured_size.
    repeat split; try assumption; lia.
Qed.

(** The invariant of the first loop of [_position_row]. *)
Lemma measure_row_ok row :
  forall v s s' v',
    layout_ok s -> row_ok s v ->
    BoxLayout.measure_row row v s = (s', Return v') ->
    layout_ok s' /\ row_ok s' v'.
Proof.
  induction row as [|box rest IH]; intros v s s' v' Hok Hrow Hrun.
  - cbn in Hrun. injection Hrun as <- <-. auto.
  - rewrite measure_row_step in Hrun. cbv zeta in Hrun.
    set (properties := BoxLayout.get_layout_properties (BoxLayout.self s)) in *.
    set (b := BoxLayout.heap s !!! box) in *.
    destruct (snd (resize_for_layout properties b)) as [a|e] eqn:Eo;
      [|discriminate].
    destruct (measured_not_negative s box a Hok Eo) as [Hh Hw].
    fold properties b in Hh, Hw.
    pose proof (layout_ok_measured s box Hok) as Hok2.
    fold properties b in Hok2.
    destruct Hrow as [Hent [Hu [Hr [Hc Hrh]]]].
    destruct (negb (len (BoxLayout.positioned v) =? 0) && _) eqn:Ec.
    + apply IH in Hrun; [exact Hrun|exact Hok2|].
      unfold row_ok. cbn. repeat split; try assumption.
      eapply Forall_impl; [exact Hent|]. intros e0 He0.
      apply (entry_ok_measured s box (BoxLayout.row_height v));
        [lia|exact He0].
    + destruct (Z.gtb_spec
        (BoxLayout.row_width v +
         (snd (size_of (fst (resize_for_layout properties b))) +
          BoxLayout.padding (BoxLayout.self s)))
        (BoxLayout.cols (BoxLayout.self s))) as [Hgt | Hle];
        [discriminate|].
      apply IH in Hrun; [exact Hrun|exact Hok2|].
      unfold row_ok.
      cbn [BoxLayout.positioned BoxLayout.unpadded_row_width
           BoxLayout.row_width BoxLayout.row_height BoxLayout.self
           BoxLayout.heap].
      split; [|split; [|split; [|split]]].
      * apply Forall_app. split.
        -- eapply Forall_impl; [exact Hent|]. intros e0 He0.
           apply (entry_ok_measured s box (BoxLayout.row_height v));
             [lia|exact He0].
        -- apply Forall_cons. split; [|apply Forall_nil; exact I].
           unfold entry_ok. cbn. fold properties. unfold b in *.
           rewrite heap_insert_measured_settled,
             heap_insert_measured_size, measured_size.
           repeat split; try lia; apply surjective_pairing.
      * rewrite widths_snoc, Hu. reflexivity.
      * rewrite padded_widths_snoc, Hr. reflexivity.
      * intros _. exact Hle.
      * lia.
Qed.

(** *** Placing a row *)

Lemma round_half_bounds (d : Z) : 0 <= d -> 0 <= round_half d <= d.
Proof.
  intros Hd. unfold round_half.
  pose proof (Z.div_mod d 2 ltac:(lia)) as Hdm.
  pose proof (Z.mod_pos_bound d 2 ltac:(lia)) as Hm.
  destruct (Z.even d) eqn:Ed; [lia|].
  assert (Hodd : d mod 2 = 1).
  { rewrite Zmod_even, Ed. reflexivity. }
  destruct (Z.even (d / 2)); lia.
Qed.

(** One turn of the second loop of [_position_row]. *)
Lemma place_row_step ext box height width rest H p x0 frw pp s :
  BoxLayout.place_row ext ((box, height, width) :: rest) H p x0 frw pp s =
  let y0 := BoxLayout.current_line (BoxLayout.self s) + round_half (H - height) in
  let s1 :=
    BoxLayout.mkState (BoxLayout.self s)
      (<[box := fst (set_position ext y0 x0 (BoxLayout.heap s !!! box))]>
         (BoxLayout.heap s)) in
  match snd (set_position ext y0 x0 (BoxLayout.heap s !!! box)) with
  | Return _ =>
      BoxLayout.place_row ext rest H p (x0 + width + p) (frw + pp + width) p s1
  | Raise e => (s1, Raise e)
  end.
Proof.
  cbn [BoxLayout.place_row]. unfold bind at 1. unfold gets at 1.
  cbn iota beta. unfold bind at 1. unfold BoxLayout.on_box.
  destruct (set_position ext _ x0 (BoxLayout.heap s !!! box)) as [b' [[]|e]];
    reflexivity.
Qed.

Lemma set_position_kept ext y0 x0 b : kept b (fst (set_position ext y0 x0 b)).
Proof.
  pose proof (set_position_cases ext y0 x0 b) as H.
  destruct (set_position ext y0 x0 b). apply H.
Qed.


Lemma kept_static b b' : kept b b' -> static_of b' = static_of b.
Proof.
  intros [H _]. unfold content_of, static_of in *.
  destruct b as [bo ti wi po la v], b' as [bo' ti' wi' po' la' v'].
  cbn in *. destruct v, v'; inversion H; reflexivity.
Qed.


(** The second loop leaves the layout alone and keeps every box but for
    its window, position and cursor. *)
Lemma place_row_frame ext positioned :
  forall H p x0 frw pp s,
    let s' := fst (BoxLayout.place_row ext positioned H p x0 frw pp s) in
    BoxLayout.self s' = BoxLayout.self s /\
    length (BoxLayout.heap s') = length (BoxLayout.heap s) /\
    (forall id, kept (BoxLayout.heap s !!! id) (BoxLayout.heap s' !!! id)) /\
    (forall id, id ∉ entry_ids positioned ->
       BoxLayout.heap s' !!! id = BoxLayout.heap s !!! id).
Proof.
  induction positioned as [|[[box height] width] rest IH];
    intros H p x0 frw pp s; cbn zeta.
  - cbn. repeat split; auto using kept_refl.
  - rewrite place_row_step. cbv zeta.
    set (y0 := BoxLayout.current_line (BoxLayout.self s) + round_half (H - height)).
    set (b' := fst (set_position ext y0 x0 (BoxLayout.heap s !!! box))).
    assert (Hk : kept (BoxLayout.heap s !!! box) b')
      by apply set_position_kept.
    set (s1 := BoxLayout.mkState (BoxLayout.self s)
                 (<[box := b']> (BoxLayout.heap s))).
    assert (Hs1 :
      BoxLayout.self s1 = BoxLayout.self s /\
      length (BoxLayout.heap s1) = length (BoxLayout.heap s) /\
      (forall id, kept (BoxLayout.heap s !!! id) (BoxLayout.heap s1 !!! id)) /\
      (forall id, id ∉ entry_ids ((box, height, width) :: rest) ->
         BoxLayout.heap s1 !!! id = BoxLayout.heap s !!! id)).
    { unfold s1. cbn. split; [reflexivity|]. split; [apply length_insert|].
      split.
      - apply (heap_insert_related kept); auto using kept_refl.
      - intros id Hid. apply heap_insert_other. intros ->. apply Hid. left. }
    destruct (snd (set_position ext y0 x0 (BoxLayout.heap s !!! box)))
      as [a|e]; [|exact Hs1].
    destruct Hs1 as [H1 [H2 [H3 H4]]].
    destruct (IH H p (x0 + width + p) (frw + pp + width) p s1)
      as [H5 [H6 [H7 H8]]].
    split; [congruence|]. split; [congruence|]. split.
    + intros id. eapply kept_trans; [apply H3|apply H7].
    + intros id Hid. rewrite H8; [apply H4, Hid|].
      intros Hin. apply Hid. right. exact Hin.
Qed.


(** *** A row *)

Lemma position_row_eq ext row s :
  BoxLayout._position_row ext row s =
  match BoxLayout.measure_row row BoxLayout.row_vars0 s with
  | (s1, Raise e) => (s1, Raise e)
  | (s1, Return v) =>
      let l := BoxLayout.self s1 in
      if BoxLayout.current_line l + BoxLayout.row_height v >? BoxLayout.lines l
      then (s1, Raise (ProgressException "Insufficient lines available" None))
      else
        let box_count := len (BoxLayout.positioned v) in
        let padding :=
          int_div (BoxLayout.cols l - BoxLayout.unpadded_row_width v)
            (box_count + 1) in
        let padded_width :=
          BoxLayout.unpadded_row_width v + padding * (box_count + 1) in
        let x0 := padding + int_div (BoxLayout.cols l - padded_width) 2 in
        match BoxLayout.place_row ext (BoxLayout.positioned v)
                (BoxLayout.row_height v) padding x0 0 0 s1 with
        | (s2, Raise e) => (s2, Raise e)
        | (s2, Return f) =>
            (BoxLayout.mkState
               (after_row (BoxLayout.row_height v) f (BoxLayout.self s2))
               (BoxLayout.heap s2),
             Return (BoxLayout.extra v))
        end
  end.
Proof.
  unfold BoxLayout._position_row. unfold bind at 1.
  destruct (BoxLayout.measure_row row BoxLayout.row_vars0 s) as [s1 [v|e]];
    [|reflexivity].
  unfold bind at 1. unfold gets at 1. cbn iota beta. cbv zeta.
  destruct (_ >? _); [reflexivity|].
  unfold bind at 1.
  destruct (BoxLayout.place_row ext _ _ _ _ 0 0 s1) as [s2 [f|e]];
    reflexivity.
Qed.


Lemma padded_widths_widths pad positioned :
  padded_widths pad positioned = widths positioned + pad * len positioned.
Proof.
  unfold padded_widths, widths, len.
  induction positioned as [|e p IH]; cbn [fold_right length]; [lia|].
  rewrite IH. lia.
Qed.

(** The padding the row is given and the column of its first box leave
    room for the row. *)
Lemma row_padding_fits (cols U n pad : Z) :
  1 <= n -> 0 <= pad -> U + pad * n <= cols ->
  let p := int_div (cols - U) (n + 1) in
  let x0 := p + int_div (cols - (U + p * (n + 1))) 2 in
  0 <= p /\ 0 <= x0 /\ x0 + (U + p * n) <= cols + p.
Proof.
  intros Hn Hpad Hfit. cbv zeta. unfold int_div.
  assert (Hd : 0 <= cols - U) by nia.
  rewrite (Z.quot_div_nonneg (cols - U) (n + 1)) by lia.
  set (p := (cols - U) / (n + 1)).
  assert (Hp : 0 <= p) by (apply Z.div_pos; lia).
  assert (Hmul : (n + 1) * p <= cols - U) by (apply Z.mul_div_le; lia).
  assert (Hr : 0 <= cols - (U + p * (n + 1))) by lia.
  rewrite (Z.quot_div_nonneg (cols - (U + p * (n + 1))) 2) by lia.
  assert (Hh : 0 <= (cols - (U + p * (n + 1))) / 2) by (apply Z.div_pos; lia).
  assert (Hh' : 2 * ((cols - (U + p * (n + 1))) / 2) <= cols - (U + p * (n + 1)))
    by (apply Z.mul_div_le; lia).
  repeat split; lia.
Qed.

Lemma heap_valid (heap : list Box) (row : list nat) (id : nat) :
  Forall (fun id => (id < length heap)%nat) row -> id ∈ row ->
  (id < length heap)%nat.
Proof.
  intros H Hin. rewrite Forall_forall in H. apply H, Hin.
Qed.



(** *** The errors of positioning *)


Lemma place_row_error ext positioned :
  forall H p x0 frw pp s e,
    snd (BoxLayout.place_row ext positioned H p x0 frw pp s) = Raise e ->
    e = ValueError "error moving window" (Some curses_error).
Proof.
  induction positioned as [|[[box height] width] rest IH];
    intros H p x0 frw pp s e; [discriminate|].
  rewrite place_row_step. cbv zeta.
  match goal with
  | |- context [set_position ext ?y0 x0 ?b] =>
      pose proof (set_position_cases ext y0 x0 b) as Hc;
      destruct (set_position ext y0 x0 b) as [b' r]
  end.
  cbn [fst snd].
  destruct Hc as [_ [_ [[-> _] | [_ [_ [-> _]]]]]]; [apply IH|].
  cbn. intros [= <-]. reflexivity.
Qed.




(** *** All rows *)




Lemma position_eq ext s :
  BoxLayout.position ext s =
  match BoxLayout.position_items ext
          (BoxLayout._unpositioned (BoxLayout.self s)) [] s with
  | (s1, Raise e) => (s1, Raise e)
  | (s1, Return row) =>
      match BoxLayout.position_rest ext (length row) row s1 with
      | (s2, Raise e) => (s2, Raise e)
      | (s2, Return _) =>
          (BoxLayout.mkState (positioned_all (BoxLayout.self s2))
             (BoxLayout.heap s2), Return tt)
      end
  end.
Proof.
  unfold BoxLayout.position. unfold bind at 1. unfold gets at 1.
  cbn iota beta. unfold bind at 1.
  destruct (BoxLayout.position_items ext _ [] s) as [s1 [row|e]];
    [|reflexivity].
  unfold bind at 1.
  destruct (BoxLayout.position_rest ext (length row) row s1) as [s2 [[]|e]];
    reflexivity.
Qed.



(** *** What positioning leaves alone, whatever its outcome *)

Lemma same_place_static b b' : same_place b b' -> static_of b' = static_of b.
Proof. intros [_ [_ H]]. exact H. Qed.

Lemma position_row_frame ext row s :
  let s' := fst (BoxLayout._position_row ext row s) in
  fixed_of (BoxLayout.self s') = fixed_of (BoxLayout.self s) /\
  length (BoxLayout.heap s') = length (BoxLayout.heap s) /\
  forall id,
    static_of (BoxLayout.heap s' !!! id) = static_of (BoxLayout.heap s !!! id).
Proof.
  cbn zeta. rewrite position_row_eq.
  pose proof (measure_row_frame row BoxLayout.row_vars0 s) as Hm.
  destruct (BoxLayout.measure_row row BoxLayout.row_vars0 s) as [s1 [v|e]];
    cbn zeta in Hm; cbn [fst] in Hm; destruct Hm as [H1 [H2 [H3 _]]].
  - cbv zeta.
    assert (Hs1 :
      fixed_of (BoxLayout.self s1) = fixed_of (BoxLayout.self s) /\
      length (BoxLayout.heap s1) = length (BoxLayout.heap s) /\
      forall id, static_of (BoxLayout.heap s1 !!! id) =
                 static_of (BoxLayout.heap s !!! id)).
    { rewrite H1. split; [reflexivity|]. split; [exact H2|].
      intros id. apply same_place_static, H3. }
    destruct (_ >? _); [exact Hs1|].
    match goal with
    | |- context [BoxLayout.place_row ext ?P ?H ?p ?x0 0 0 s1] =>
        pose proof (place_row_frame ext P H p x0 0 0 s1) as Hp;
        destruct (BoxLayout.place_row ext P H p x0 0 0 s1) as [s2 [f|e]]
    end; cbn zeta in Hp; cbn [fst] in Hp; destruct Hp as [H4 [H5 [H6 _]]];
      destruct Hs1 as [H7 [H8 H9]]; cbn [fst BoxLayout.self BoxLayout.heap].
    + split; [|split; [congruence|]].
      * unfold fixed_of, after_row in *. cbn. rewrite H4. exact H7.
      * intros id. rewrite (kept_static _ _ (H6 id)). apply H9.
    + split; [rewrite H4; exact H7|]. split; [congruence|].
      intros id. rewrite (kept_static _ _ (H6 id)). apply H9.
  - cbn [fst]. rewrite H1. split; [reflexivity|]. split; [exact H2|].
    intros id. apply same_place_static, H3.
Qed.

Lemma position_items_frame ext items :
  forall row s,
    let s' := fst (BoxLayout.position_items ext items row s) in
    fixed_of (BoxLayout.self s') = fixed_of (BoxLayout.self s) /\
    length (BoxLayout.heap s') = length (BoxLayout.heap s) /\
    forall id,
      static_of (BoxLayout.heap s' !!! id) = static_of (BoxLayout.heap s !!! id).
Proof.
  induction items as [|[item|] rest IH]; intros row s; cbn zeta.
  - cbn. auto.
  - cbn [BoxLayout.position_items]. apply IH.
  - cbn [BoxLayout.position_items]. unfold bind.
    pose proof (position_row_frame ext row s) as Hr.
    destruct (BoxLayout._position_row ext row s) as [s1 [later|e]];
      cbn zeta in Hr; cbn [fst] in Hr; [|exact Hr].
    destruct Hr as [H1 [H2 H3]].
    destruct (IH later s1) as [H4 [H5 H6]].
    split; [congruence|]. split; [congruence|].
    intros id. rewrite H6. apply H3.
Qed.

Lemma position_rest_frame ext fuel :
  forall row s,
    let s' := fst (BoxLayout.position_rest ext fuel row s) in
    fixed_of (BoxLayout.self s') = fixed_of (BoxLayout.self s) /\
    length (BoxLayout.heap s') = length (BoxLayout.heap s) /\
    forall id,
      static_of (BoxLayout.heap s' !!! id) = static_of (BoxLayout.heap s !!! id).
Proof.
  induction fuel as [|fuel IH]; intros row s; cbn zeta.
  - destruct row; cbn; auto.
  - destruct row as [|box rest]; [cbn; auto|].
    cbn [BoxLayout.position_rest]. unfold bind.
    pose proof (position_row_frame ext (box :: rest) s) as Hr.
    destruct (BoxLayout._position_row ext (box :: rest) s) as [s1 [later|e]];
      cbn zeta in Hr; cbn [fst] in Hr; [|exact Hr].
    destruct Hr as [H1 [H2 H3]].
    destruct (IH later s1) as [H4 [H5 H6]].
    split; [congruence|]. split; [congruence|].
    intros id. rewrite H6. apply H3.
Qed.

Lemma position_frame ext s :
  let s' := fst (BoxLayout.position ext s) in
  fixed_of (BoxLayout.self s') = fixed_of (BoxLayout.self s) /\
  length (BoxLayout.heap s') = length (BoxLayout.heap s) /\
  forall id,
    static_of (BoxLayout.heap s' !!! id) = static_of (BoxLayout.heap s !!! id).
Proof.
  cbn zeta. rewrite position_eq.
  pose proof (position_items_frame ext
                (BoxLayout._unpositioned (BoxLayout.self s)) [] s) as Hi.
  destruct (BoxLayout.position_items ext _ [] s) as [s1 [row|e]];
    cbn zeta in Hi; cbn [fst] in Hi; [|exact Hi].
  destruct Hi as [H1 [H2 H3]].
  pose proof (position_rest_frame ext (length row) row s1) as Hr.
  destruct (BoxLayout.position_rest ext (length row) row s1) as [s2 [[]|e]];
    cbn zeta in Hr; cbn [fst] in Hr; destruct Hr as [H4 [H5 H6]];
    cbn [fst BoxLayout.self BoxLayout.heap].
  - split; [|split; [congruence|]].
    + unfold fixed_of, positioned_all in *. cbn. congruence.
    + intros id. rewrite H6. apply H3.
  - split; [congruence|]. split; [congruence|].
    intros id. rewrite H6. apply H3.
Qed.

(** *** Two runs side by side *)








(** *** Resizing twice *)



(** ** The properties at concrete inputs *)

(** The example of the specification: 15 characters in a log box of 10
    columns and 3 lines wrap to two lines. *)
Example wrap_alphabet :
  _map_messages_to_lines small_log 1 =
  Return (mkDeque [list_ascii_of_string "abcdefghij";
                   list_ascii_of_string "klmno"] (Some 3%nat)).
Proof. reflexivity. Qed.

Lemma wrap_single_message_witness :
  exists d, _map_messages_to_lines small_log 1 = Return d /\
            length (items d) = 2%nat.
Proof.
  destruct (wrap_single_message small_log alphabet 1)
    as [d [Hd [Hlen _]]].
  - cbn. lia.
  - reflexivity.
  - vm_compute. discriminate.
  - exists d. split; [exact Hd|exact Hlen].
Defined.

(** Three messages pushed into a log box of capacity 2. *)
Lemma log_queue_bounded_witness :
  exists b, new_LogBox 10 3 2 = Return b /\
    queue (run_calls plain
             [Add_message (list_ascii_of_string "a");
              Add_message (list_ascii_of_string "b");
              Add_message (list_ascii_of_string "c")] b) =
    [list_ascii_of_string "b"; list_ascii_of_string "c"].
Proof.
  destruct (log_queue_bounded plain 10 3 2
              [Add_message (list_ascii_of_string "a");
               Add_message (list_ascii_of_string "b");
               Add_message (list_ascii_of_string "c")])
    as [b [Hb [Hcap Hq]]].
  exists b. split; [exact Hb|].
  cbn zeta in Hq. rewrite Hcap in Hq.
  change (if 2 <? 0 then None
          else if 2 =? 0 then Some (Z.to_nat (Z.max 3 DEFAULT_MAX_MESSAGES))
               else Some (Z.to_nat 2)) with (Some 2%nat) in Hq.
  apply proj2, proj2 in Hq.
  apply (Hq (list_ascii_of_string "a")
            [list_ascii_of_string "b"; list_ascii_of_string "c"]);
    reflexivity.
Defined.


Example rate_of_ten_in_four_seconds :
  ProgressDisplay._compute_rate 10 four = Return 2.
Proof. reflexivity. Qed.

Example rate_overflows :
  ProgressDisplay._compute_rate 10 (S754_finite false 1 (-1074)) =
  Raise (OverflowError "cannot convert float infinity to integer").
Proof. reflexivity. Qed.



(** ** The second display of the registry is skipped *)

Lemma list_remove_delete (l : list nat) :
  forall i d, NoDup l -> l !! i = Some d ->
    ProgressDisplay.list_remove d l = Some (delete i l).
Proof.
  induction l as [|a l IH]; intros i d Hnd Hi; [discriminate|].
  apply NoDup_cons in Hnd as [Hnotin Hnd].
  cbn [ProgressDisplay.list_remove]. destruct (Nat.eqb_spec a d) as [-> | Hne].
  - destruct i as [|i]; [reflexivity|]. cbn in Hi. exfalso. apply Hnotin.
    apply list_elem_of_lookup. exists i. exact Hi.
  - destruct i as [|i]; [cbn in Hi; congruence|]. cbn in Hi.
    rewrite (IH i d Hnd Hi). reflexivity.
Qed.

Lemma take_delete_here {A} (l : list A) (i : nat) :
  take i (delete i l) = take i l.
Proof.
  revert i. induction l as [|a l IH]; intros [|i]; cbn; try reflexivity.
  rewrite IH. reflexivity.
Qed.

Lemma NoDup_delete_at (l : list nat) (i : nat) : NoDup l -> NoDup (delete i l).
Proof.
  intros H. apply (sublist_NoDup (delete i l) l); [exact H|apply sublist_delete].
Qed.

Lemma for_display_S fuel i body w :
  ProgressDisplay.for_display (S fuel) i body w =
  match ProgressDisplay._displays w !! i with
  | None => (w, Return tt)
  | Some display =>
      bind (body display)
        (fun _ => ProgressDisplay.for_display fuel (S i) body) w
  end.
Proof. reflexivity. Qed.

(** The loop of [reset_terminal] never removes a display that lies before
    its index. *)
Lemma for_display_end_prefix fuel :
  forall i w,
    NoDup (ProgressDisplay._displays w) ->
    take i (ProgressDisplay._displays
              (fst (ProgressDisplay.for_display fuel i ProgressDisplay.end_ w))) =
    take i (ProgressDisplay._displays w).
Proof.
  induction fuel as [|fuel IH]; intros i w Hnd.
  - cbn. destruct (ProgressDisplay._displays w !! i); reflexivity.
  - cbn [ProgressDisplay.for_display].
    destruct (ProgressDisplay._displays w !! i) as [d|] eqn:Ed; [|reflexivity].
    assert (Hend : ProgressDisplay.end_ d w =
                   (ProgressDisplay.set_displays
                      (delete i (ProgressDisplay._displays w))
                      (ProgressDisplay.set_mode ProgressDisplay.Normal
                         (ProgressDisplay.record ProgressDisplay.Endwin w)),
                    Return tt)).
    { unfold ProgressDisplay.end_, bind, ProgressDisplay.do, modify. cbn.
      rewrite (list_remove_delete _ i d Hnd Ed). reflexivity. }
    unfold bind. rewrite Hend.
    set (w1 := ProgressDisplay.set_displays _ _).
    specialize (IH (S i) w1 ltac:(apply NoDup_delete_at, Hnd)).
    apply (f_equal (take i)) in IH. rewrite !take_take in IH.
    rewrite !Nat.min_l in IH by lia. rewrite IH. unfold w1. cbn.
    apply take_delete_here.
Qed.

(** With two displays or more in the registry, [reset_terminal] leaves the
    second one registered: it is not ended. *)
Lemma reset_terminal_skips_second w d0 d1 rest :
  NoDup (ProgressDisplay._displays w) ->
  ProgressDisplay._displays w = d0 :: d1 :: rest ->
  ProgressDisplay._displays (fst (ProgressDisplay.reset_terminal w)) !! 0%nat =
  Some d1.
Proof.
  intros Hnd Hds. unfold ProgressDisplay.reset_terminal. rewrite Hds.
  change (length (d0 :: d1 :: rest)) with (S (S (length rest))).
  rewrite for_display_S, Hds.
  change ((d0 :: d1 :: rest) !! 0%nat) with (Some d0).
  assert (Hend : ProgressDisplay.end_ d0 w =
                 (ProgressDisplay.set_displays (d1 :: rest)
                    (ProgressDisplay.set_mode ProgressDisplay.Normal
                       (ProgressDisplay.record ProgressDisplay.Endwin w)),
                  Return tt)).
  { unfold ProgressDisplay.end_, bind, ProgressDisplay.do, modify. cbn.
    rewrite Hds. cbn. rewrite Nat.eqb_refl. reflexivity. }
  unfold bind. rewrite Hend.
  set (w1 := ProgressDisplay.set_displays _ _).
  assert (Hnd1 : NoDup (ProgressDisplay._displays w1)).
  { unfold w1. cbn. rewrite Hds in Hnd. apply NoDup_cons in Hnd. apply Hnd. }
  pose proof (for_display_end_prefix (S (length rest)) 1 w1 Hnd1) as Hp.
  set (final := fst (ProgressDisplay.for_display (S (length rest)) 1
                       ProgressDisplay.end_ w1)) in *.
  change (ProgressDisplay._displays w1) with (d1 :: rest) in Hp.
  destruct (ProgressDisplay._displays final) as [|d ds]; [discriminate|].
  cbn in Hp. injection Hp as ->. reflexivity.
Qed.

(** ** The controller at concrete inputs *)

(** A display for two workers has three metric boxes of five metrics
    each. *)
Example two_workers_three_boxes :
  let w := fst (ProgressDisplay.new plain 2 (boot 40 130)) in
  let d := ProgressDisplay.objects w !!! 0%nat in
  length (ProgressDisplay.metric_boxes d) = 3%nat /\
  map (fun box => get_height (ProgressDisplay.boxes w !!! box))
      (ProgressDisplay.metric_boxes d) = [5; 5; 5].
Proof. vm_compute. split; reflexivity. Qed.

(** ** Boxes of fixed size that fit *)














Lemma kept_is_log b b' : kept b b' -> is_log b' = is_log b.
Proof. intros [H _]. apply content_of_is_log, H. Qed.







(** * Further properties of the boxes *)

(** ** Titles and metric lines *)

(** X1.  [render] centres a title that is shorter than the box: the title lies
    within the width of the box, and the margin on its left is the margin
    on its right or one column less. *)
Theorem title_offset_centres (width : Z) (title : str) :
  len title < width ->
  let left := title_offset width title in
  let right := width - len title - left in
  0 <= left /\ left + len title <= width /\ left <= right <= left + 1.
Proof.
  intros Hlt. cbn zeta. unfold title_offset, int_div.
  destruct (Z.ltb_spec (len title) width) as [_ | Hge]; [|lia].
  assert (Hd : 0 <= width - len title) by lia.
  pose proof (Z.quot_rem' (width - len title) 2) as Hq.
  pose proof (Z.rem_bound_pos (width - len title) 2 Hd ltac:(lia)) as Hr.
  lia.
Qed.

Lemma title_offset_centres_witness :
  let title := list_ascii_of_string "Summary" in
  0 <= title_offset 41 title /\ title_offset 41 title + len title <= 41 /\
  title_offset 41 title <= 41 - len title - title_offset 41 title
    <= title_offset 41 title + 1.
Proof.
  apply (title_offset_centres 41 (list_ascii_of_string "Summary")).
  vm_compute. reflexivity.
Defined.

(** A title that is not shorter than the box is written from column 0. *)
Lemma title_offset_long (width : Z) (title : str) :
  width <= len title -> title_offset width title = 0.
Proof.
  intros Hle. unfold title_offset.
  destruct (Z.ltb_spec (len title) width); [lia|reflexivity].
Qed.

Lemma len_app {A} (l1 l2 : list A) : len (l1 ++ l2) = len l1 + len l2.
Proof. unfold len. rewrite length_app. lia. Qed.

Lemma len_repeat {A} (a : A) (n : nat) : len (repeat a n) = Z.of_nat n.
Proof. unfold len. rewrite repeat_length. reflexivity. Qed.

(** X2.  The line of a metric is its label, a colon, and its value pushed to
    the right by spaces: it fills the width of the box exactly when label,
    colon and value are no longer than the box together, and it is longer
    than the box otherwise. *)
Theorem metric_line_width (width : Z) (metric : Metric) :
  let needed := len (label metric) + 1 + len (value metric) in
  len (metric_line width metric) = Z.max width needed /\
  metric_line width metric =
    label metric ++ [":"%char] ++
    repeat " "%char (Z.to_nat (width - needed)) ++ value metric.
Proof.
  cbn zeta. unfold metric_line, rjust. split.
  - rewrite !len_app, len_repeat. unfold len. simpl (length [_]). lia.
  - rewrite <- !app_assoc. cbn [app].
    replace (width - len (label metric ++ [":"%char]) - len (value metric))
      with (width - (len (label metric) + 1 + len (value metric)));
      [reflexivity|].
    rewrite len_app. unfold len. simpl (length [_]). lia.
Qed.

(** ** Windows *)


(** X4.  [Box.resize] does nothing to a box without a window: not even its
    size is computed.  On a box with a window it never raises, records the
    computed size, whatever extents were asked for, and leaves the position
    alone. *)
Theorem resize_needs_window (ext : External) (lines cols : option Z) (b : Box) :
  let b' := fst (resize ext lines cols b) in
  snd (resize ext lines cols b) = Return tt /\
  (if window b
   then window b' = true /\ position b' = position b /\
        last_size b' = Some (size_of b) /\ kept b b'
   else b' = b).
Proof.
  cbn zeta. split; [apply resize_returns|].
  destruct (window b) eqn:Ew.
  - destruct (resize_frame ext lines cols b) as [Hw Hp].
    split; [congruence|]. split; [exact Hp|]. split; [|apply resize_kept].
    rewrite resize_eq, Ew.
    destruct (update_frame ext (set_last_size (size_of b) b)) as [_ [_ Hl]].
    exact Hl.
  - rewrite resize_eq, Ew. reflexivity.
Qed.


(** ** The lines of the log box *)

Lemma removelast_Forall {A} (P : A -> Prop) (l : list A) :
  Forall P l -> Forall P (removelast l).
Proof.
  induction 1 as [|a l Ha Hl IH]; [constructor|].
  cbn. destruct l; [constructor|]. constructor; assumption.
Qed.

Lemma removelast_shorter {A} (l : list A) :
  length (removelast l) = (length l - 1)%nat.
Proof.
  induction l as [|a l IH]; [reflexivity|].
  cbn [removelast]. destruct l; [reflexivity|].
  cbn [length] in *. lia.
Qed.

(** A bounded deque stays within its bound when lines are pushed on its
    left, and the lines it holds are lines it held or lines pushed. *)
Lemma appendleft_bounded {A} (P : A -> Prop) (n : nat) (d : deque A) (a : A) :
  maxlen d = Some n -> (length (items d) <= n)%nat ->
  Forall P (items d) -> P a ->
  maxlen (appendleft d a) = Some n /\
  (length (items (appendleft d a)) <= n)%nat /\
  Forall P (items (appendleft d a)).
Proof.
  intros Hm Hlen HP Ha. unfold appendleft. rewrite Hm.
  destruct n as [|n]; [auto|].
  destruct (Nat.ltb_spec (length (items d)) (S n)) as [Hlt | Hge]; cbn.
  - split; [reflexivity|]. split; [lia|]. constructor; assumption.
  - split; [reflexivity|]. rewrite removelast_shorter.
    split; [lia|]. constructor; [assumption|apply removelast_Forall, HP].
Qed.

Lemma fold_appendleft_bounded {A} (P : A -> Prop) (n : nat) (ls : list A) :
  forall d,
    maxlen d = Some n -> (length (items d) <= n)%nat ->
    Forall P (items d) -> Forall P ls ->
    let d' := fold_left appendleft ls d in
    maxlen d' = Some n /\ (length (items d') <= n)%nat /\
    Forall P (items d').
Proof.
  induction ls as [|a ls IH]; intros d Hm Hlen HP Hls; cbn; [auto|].
  apply Forall_cons in Hls as [Ha Hls].
  destruct (appendleft_bounded P n d a Hm Hlen HP Ha) as [Hm' [Hlen' HP']].
  apply IH; assumption.
Qed.

(** Every line cut from a message is at most [columns] characters long,
    for a column width that is not negative. *)
Lemma wrap_message_width (columns : Z) :
  0 <= columns ->
  forall remaining message,
    Forall (fun l => len l <= columns)
      (fst (wrap_message columns remaining message)).
Proof.
  intros Hc. induction remaining as [|r IH]; intros message.
  - destruct message; constructor.
  - destruct message as [|a m]; [constructor|].
    cbn [wrap_message]. specialize (IH (slice_from (a :: m) columns)).
    destruct (wrap_message columns r (slice_from (a :: m) columns))
      as [message_lines r'].
    cbn [fst] in *. constructor; [|exact IH].
    unfold slice_to, slice_index, len.
    destruct (Z.ltb_spec columns 0); [lia|].
    rewrite length_firstn. lia.
Qed.

Lemma map_loop_bounded (columns : Z) (n : nat) :
  0 <= columns ->
  forall newest_first remaining d,
    maxlen d = Some n -> (length (items d) <= n)%nat ->
    Forall (fun l => len l <= columns) (items d) ->
    let d' := map_loop columns newest_first remaining d in
    (length (items d') <= n)%nat /\
    Forall (fun l => len l <= columns) (items d').
Proof.
  intros Hc. induction newest_first as [|message older IH];
    intros remaining d Hm Hlen HP; cbn zeta; [cbn; auto|].
  cbn [map_loop]. destruct remaining as [|r]; [auto|].
  pose proof (wrap_message_width columns Hc (S r) message) as Hw.
  destruct (wrap_message columns (S r) message) as [message_lines r'].
  cbn [fst] in Hw.
  destruct (fold_appendleft_bounded (fun l => len l <= columns) n
              (rev message_lines) d Hm Hlen HP) as [Hm' [Hlen' HP']].
  { apply Forall_rev, Hw. }
  apply IH; assumption.
Qed.

Lemma map_loop_count (columns : Z) (n : nat) :
  forall newest_first remaining d,
    maxlen d = Some n -> (length (items d) <= n)%nat ->
    (length (items (map_loop columns newest_first remaining d)) <= n)%nat.
Proof.
  induction newest_first as [|message older IH];
    intros remaining d Hm Hlen; [cbn; auto|].
  cbn [map_loop]. destruct remaining as [|r]; [auto|].
  destruct (wrap_message columns (S r) message) as [message_lines r'].
  destruct (fold_appendleft_bounded (fun _ => True) n
              (rev message_lines) d Hm Hlen) as [Hm' [Hlen' _]].
  { apply Forall_forall. auto. }
  { apply Forall_forall. auto. }
  apply IH; assumption.
Qed.

(** X6.  [_map_messages_to_lines] rejects a negative line budget with the
    [ValueError] of [deque].  Otherwise it returns at most [lines] lines,
    whatever the messages and the column width, and for a column width
    that is not negative no line is longer than [columns]. *)
Theorem map_messages_to_lines_bounded (log : LogFields) (offset : Z) :
  if lines log <? 0
  then _map_messages_to_lines log offset =
         Raise (ValueError "maxlen must be non-negative" None)
  else exists d,
         _map_messages_to_lines log offset = Return d /\
         len (items d) <= lines log /\
         (0 <= columns log ->
          Forall (fun l => len l <= columns log) (items d)).
Proof.
  unfold _map_messages_to_lines, new_deque.
  destruct (Z.ltb_spec (lines log) 0) as [Hneg | Hpos]; [reflexivity|].
  eexists. split; [reflexivity|]. split.
  - pose proof (map_loop_count (columns log) (Z.to_nat (lines log))
                  (rev (items (messages log))) (Z.to_nat (lines log))
                  (mkDeque [] (Some (Z.to_nat (lines log)))) eq_refl) as H.
    cbn [items length] in H. unfold len. lia.
  - intros Hc.
    apply (map_loop_bounded (columns log) (Z.to_nat (lines log)) Hc
             (rev (items (messages log))) (Z.to_nat (lines log))
             (mkDeque [] (Some (Z.to_nat (lines log)))) eq_refl);
      cbn; [lia|constructor].
Qed.

Lemma wrapped_app (c : nat) (a b : list str) :
  wrapped c (a ++ b) = wrapped c a ++ wrapped c b.
Proof. unfold wrapped. rewrite map_app, concat_app. reflexivity. Qed.

Lemma wrapped_snoc (c : nat) (a : list str) (m : str) :
  wrapped c (a ++ [m]) =
  wrapped c a ++ slices c (ceil_div (length m) c) m.
Proof.
  rewrite wrapped_app. unfold wrapped at 2. cbn. rewrite app_nil_r.
  reflexivity.
Qed.

Lemma map_loop_0 (columns : Z) (newest_first : list str) (d : deque str) :
  map_loop columns newest_first 0 d = d.
Proof. destruct newest_first; reflexivity. Qed.

(** While the messages fit in the lines that remain, the outer loop puts
    all their slices on top of the lines it has, the older above the
    newer. *)
Lemma map_loop_fit (c : nat) :
  (0 < c)%nat ->
  forall (newest_first rest : list str) (r : nat) (acc : list str) (n : nat),
    (length (wrapped c (rev newest_first)) <= r)%nat ->
    (r + length acc <= n)%nat ->
    map_loop (Z.of_nat c) (newest_first ++ rest) r (mkDeque acc (Some n)) =
    map_loop (Z.of_nat c) rest
      (r - length (wrapped c (rev newest_first)))
      (mkDeque (wrapped c (rev newest_first) ++ acc) (Some n)).
Proof.
  intros Hc. induction newest_first as [|m older IH];
    intros rest r acc n Hfit Hroom.
  - cbn. rewrite Nat.sub_0_r. reflexivity.
  - cbn [rev] in *. rewrite wrapped_snoc in *. rewrite length_app in Hfit.
    rewrite slices_length in Hfit.
    cbn [app map_loop]. destruct r as [|r0].
    + assert (H0 : length (wrapped c (rev older)) = O) by lia.
      assert (H1 : ceil_div (length m) c = O) by lia.
      destruct (wrapped c (rev older)); [|discriminate].
      rewrite H1. cbn. rewrite map_loop_0. reflexivity.
    + rewrite wrap_message_slices by (try exact Hc; lia).
      rewrite appendleft_all by (rewrite slices_length; lia).
      rewrite IH by (try rewrite length_app, slices_length; lia).
      rewrite length_app, slices_length, <- app_assoc.
      f_equal. lia.
Qed.

(** With fewer lines than the message needs, the inner loop keeps the
    first slices of the message, as many as there are lines, and leaves no
    line. *)
Lemma wrap_message_cut (c : nat) :
  (0 < c)%nat ->
  forall (remaining : nat) (message : str),
    (remaining <= ceil_div (length message) c)%nat ->
    wrap_message (Z.of_nat c) remaining message =
    (slices c remaining message, O).
Proof.
  intros Hc. induction remaining as [|r IH]; intros message Hle.
  - destruct message; reflexivity.
  - destruct message as [|a m].
    + rewrite ceil_div_0 in Hle by lia. lia.
    + cbn [wrap_message]. unfold slice_from, slice_to.
      rewrite slice_index_nat.
      rewrite (ceil_div_step (length (a :: m)) c) in Hle by (cbn; lia).
      rewrite <- (length_skipn c (a :: m)) in Hle.
      rewrite IH by lia. rewrite slices_S. reflexivity.
Qed.

(** X7.  When the slices of all messages fit in the lines of the box, the box
    shows them all: every message cut into slices of [columns] characters,
    the oldest message first; a message that is empty takes no line. *)
Theorem map_messages_to_lines_all (log : LogFields) (offset : Z) :
  0 < columns log ->
  let c := Z.to_nat (columns log) in
  len (wrapped c (items (messages log))) <= lines log ->
  _map_messages_to_lines log offset =
    Return (mkDeque (wrapped c (items (messages log)))
              (Some (Z.to_nat (lines log)))).
Proof.
  intros Hc c Hfit. unfold len in Hfit.
  assert (Hc' : (0 < c)%nat) by (unfold c; lia).
  assert (HC : columns log = Z.of_nat c) by (unfold c; lia).
  unfold _map_messages_to_lines, new_deque.
  destruct (Z.ltb_spec (lines log) 0) as [Hneg | Hpos]; [lia|].
  f_equal. rewrite HC.
  rewrite <- (app_nil_r (rev (items (messages log)))).
  rewrite (map_loop_fit c Hc');
    rewrite ?rev_involutive; cbn [length]; try lia.
  cbn [map_loop]. rewrite app_nil_r. reflexivity.
Qed.

(** X8.  When the lines run out in the middle of a message, the newer messages
    are shown whole, the message is cut at its end (its first slices are
    shown, as many as lines are left) and the older messages are not
    shown. *)
Theorem map_messages_to_lines_cut (log : LogFields) (offset : Z)
  (older newer : list str) (message : str) :
  0 < columns log ->
  items (messages log) = older ++ message :: newer ->
  let c := Z.to_nat (columns log) in
  let left := (Z.to_nat (lines log) - length (wrapped c newer))%nat in
  len (wrapped c newer) <= lines log ->
  (left <= ceil_div (length message) c)%nat ->
  _map_messages_to_lines log offset =
    Return (mkDeque (slices c left message ++ wrapped c newer)
              (Some (Z.to_nat (lines log)))).
Proof.
  intros Hc Hq c left Hfit Hcut. unfold len in Hfit.
  assert (Hc' : (0 < c)%nat) by (unfold c; lia).
  assert (HC : columns log = Z.of_nat c) by (unfold c; lia).
  unfold _map_messages_to_lines, new_deque.
  destruct (Z.ltb_spec (lines log) 0) as [Hneg | Hpos]; [lia|].
  f_equal. rewrite HC, Hq, rev_app_distr. cbn [rev].
  rewrite <- app_assoc. cbn [app].
  rewrite (map_loop_fit c Hc');
    rewrite ?rev_involutive; cbn [length]; try lia.
  fold left. rewrite app_nil_r. cbn [map_loop].
  destruct left as [|l0] eqn:El; [reflexivity|].
  rewrite wrap_message_cut by (try exact Hc'; lia).
  rewrite appendleft_all by (rewrite slices_length; lia).
  apply map_loop_0.
Qed.

Lemma map_messages_to_lines_all_witness :
  _map_messages_to_lines small_log 1 =
    Return (mkDeque (wrapped 10 [alphabet]) (Some 3%nat)).
Proof.
  apply (map_messages_to_lines_all small_log 1); [reflexivity|].
  vm_compute. discriminate.
Defined.

Lemma map_messages_to_lines_cut_witness :
  _map_messages_to_lines
    (mkLogFields 4 3 (mkDeque [alphabet; alphabet] (Some 512%nat)) None None) 1 =
    Return (mkDeque (slices 4 3 alphabet ++ wrapped 4 []) (Some 3%nat)).
Proof.
  apply (map_messages_to_lines_cut
           (mkLogFields 4 3 (mkDeque [alphabet; alphabet] (Some 512%nat))
              None None) 1 [alphabet] [] alphabet).
  - reflexivity.
  - reflexivity.
  - vm_compute. discriminate.
  - vm_compute. lia.
Defined.

(** ** The cursor after a draw *)

Lemma draw_lines_accepted (ext : External) (columns offset : Z) :
  (forall y0 x0 s, addstr_ok ext y0 x0 s = true) ->
  forall ls line_number last_line_number last_line_length,
    draw_lines ext columns offset ls line_number last_line_number
      last_line_length =
    match ls with
    | [] => (last_line_number, last_line_length)
    | _ :: _ => (line_number + len ls - 1, len (List.last ls []))
    end.
Proof.
  intros Hok. induction ls as [|line rest IH]; intros ln lln lll;
    [reflexivity|].
  cbn [draw_lines]. rewrite Hok, IH.
  destruct rest as [|next rest].
  - cbn [List.last]. f_equal. unfold len. cbn [length]. lia.
  - change (List.last (line :: next :: rest) [])
      with (List.last (next :: rest) []).
    f_equal. unfold len. cbn [length]. lia.
Qed.

Lemma draw_content_log_accepted (ext : External) (offset : Z) (log : LogFields)
  (d : deque str) :
  (forall y0 x0 s, addstr_ok ext y0 x0 s = true) ->
  _map_messages_to_lines log offset = Return d ->
  draw_content_log ext offset log =
    (with_cursor_offset
       (mkPosition (offset + Z.max 0 (len (items d) - 1))
                   (len (List.last (items d) []))) log,
     Return tt).
Proof.
  intros Hok Hd. unfold draw_content_log. rewrite Hd.
  rewrite (draw_lines_accepted ext _ _ Hok).
  unfold with_cursor_offset. destruct (items d) as [|l ls].
  - unfold len. cbn [List.last length].
    change (Z.of_nat 0) with 0.
    replace (offset + Z.max 0 (0 - 1)) with offset by lia. reflexivity.
  - replace (offset + Z.max 0 (len (l :: ls) - 1))
      with (offset + len (l :: ls) - 1); [reflexivity|].
    unfold len. cbn [length]. lia.
Qed.

(** X9.  When curses accepts every line, [draw_content] leaves the cursor
    offset of a log box on the last line drawn, after its last character:
    [offset + n - 1] lines down for [n] lines, with [offset] the border
    offset of the box, and the length of the last line across.  With
    nothing to draw the offset is [(offset, 0)].  Nothing else of the box
    changes. *)
Theorem draw_content_cursor (ext : External) (b : Box) (log : LogFields)
  (d : deque str) :
  variant b = LogBox log ->
  (forall y0 x0 s, addstr_ok ext y0 x0 s = true) ->
  _map_messages_to_lines log (get_border_offset b) = Return d ->
  draw_content ext b =
    (set_variant
       (LogBox
          (with_cursor_offset
             (mkPosition (get_border_offset b + Z.max 0 (len (items d) - 1))
                         (len (List.last (items d) []))) log)) b,
     Return tt).
Proof.
  intros Hv Hok Hd. unfold draw_content. rewrite Hv.
  rewrite (draw_content_log_accepted ext (get_border_offset b) log d Hok Hd).
  reflexivity.
Qed.

Lemma draw_content_cursor_witness :
  draw_content plain (mkBox true None false None None (LogBox small_log)) =
    (mkBox true None false None None
       (LogBox (with_cursor_offset (mkPosition 2 5) small_log)),
     Return tt).
Proof.
  apply (draw_content_cursor plain
           (mkBox true None false None None (LogBox small_log)) small_log
           (mkDeque (wrapped 10 [alphabet]) (Some 3%nat))).
  - reflexivity.
  - intros y0 x0 s. reflexivity.
  - reflexivity.
Defined.

(** * Further properties of the layout *)

(** ** The geometry of a row *)

(** The first loop of [_position_row] keeps the order of the row: the
    boxes it places are the first of the row and the boxes it leaves for
    later the last, and the height of the row is the greatest height among
    the boxes placed. *)
Lemma measure_row_order row :
  forall v s s' v',
    BoxLayout.measure_row row v s = (s', Return v') ->
    (BoxLayout.extra v <> [] -> BoxLayout.positioned v <> []) ->
    exists placed spilled,
      BoxLayout.positioned v' = BoxLayout.positioned v ++ placed /\
      BoxLayout.extra v' = BoxLayout.extra v ++ spilled /\
      row = entry_ids placed ++ spilled /\
      (BoxLayout.extra v <> [] -> placed = []) /\
      (row <> [] -> BoxLayout.positioned v = [] -> placed <> []) /\
      BoxLayout.row_height v' =
        fold_left (fun H e => Z.max H (snd (fst e))) placed
          (BoxLayout.row_height v).
Proof.
  induction row as [|box rest IH]; intros v s s' v' Hrun Hinv.
  - cbn in Hrun. injection Hrun as <- <-. exists [], [].
    rewrite !app_nil_r. repeat split; congruence.
  - rewrite measure_row_step in Hrun. cbv zeta in Hrun.
    destruct (snd (resize_for_layout _ _)) as [a|e]; [|discriminate].
    destruct (negb (len (BoxLayout.positioned v) =? 0) && _) eqn:Ec.
    + apply andb_true_iff in Ec as [Ec _].
      assert (Hne : BoxLayout.positioned v <> []).
      { intros Hnil. rewrite Hnil in Ec. discriminate. }
      apply IH in Hrun as [placed [spilled [Hp [He [Hrow [Hx [_ Hh]]]]]]];
        [|intros _; exact Hne].
      cbn in Hp, He, Hx, Hh.
      assert (Hpl : placed = []).
      { apply Hx. destruct (BoxLayout.extra v); discriminate. }
      subst placed. exists [], (box :: spilled).
      split; [exact Hp|]. split; [rewrite He, <- app_assoc; reflexivity|].
      split; [cbn in *; congruence|]. split; [reflexivity|].
      split; [congruence|exact Hh].
    + destruct (_ >? _) eqn:Ew; [discriminate|].
      assert (Hextra : BoxLayout.extra v = []).
      { destruct (BoxLayout.positioned v) as [|e0 p0] eqn:Ep.
        - destruct (BoxLayout.extra v); [reflexivity|].
          exfalso. apply Hinv; [discriminate|reflexivity].
        - cbn [len length] in Ec.
          destruct (BoxLayout.extra v); [reflexivity|].
          exfalso. revert Ec. unfold len. cbn [length].
          destruct (Z.eqb_spec (Z.of_nat (S (length p0))) 0); [lia|].
          destruct (Z.eqb_spec (Z.of_nat (S (length l))) 0); [lia|].
          cbn. discriminate. }
      apply IH in Hrun as [placed [spilled [Hp [He [Hrow [_ [_ Hh]]]]]]];
        [|cbn; rewrite Hextra; congruence].
      cbn in Hp, He, Hh.
      eexists (_ :: placed), spilled.
      split; [rewrite Hp, <- app_assoc; reflexivity|].
      split; [exact He|]. split; [cbn; rewrite Hrow; reflexivity|].
      split; [rewrite Hextra; congruence|].
      split; [discriminate|exact Hh].
Qed.

(** The second loop of [_position_row] puts the boxes side by side from
    [x0] on, [p] columns apart, each centred on the height of the row. *)
Lemma place_row_positions ext positioned :
  forall H p x0 frw pp s s' f,
    NoDup (entry_ids positioned) ->
    Forall (fun e => (fst (fst e) < length (BoxLayout.heap s))%nat) positioned ->
    BoxLayout.place_row ext positioned H p x0 frw pp s = (s', Return f) ->
    forall i e, positioned !! i = Some e ->
      position (BoxLayout.heap s' !!! fst (fst e)) =
      Some (mkPosition
              (BoxLayout.current_line (BoxLayout.self s) +
               round_half (H - snd (fst e)))
              (x0 + padded_widths p (take i positioned))).
Proof.
  induction positioned as [|[[box height] width] rest IH];
    intros H p x0 frw pp s s' f Hnd Hvalid Hrun i e Hi;
    [rewrite lookup_nil in Hi; discriminate|].
  rewrite place_row_step in Hrun. cbv zeta in Hrun.
  cbn [entry_ids map fst] in Hnd. apply NoDup_cons in Hnd as [Hnotin Hnd].
  apply Forall_cons in Hvalid as [Hbox Hvalid]. cbn [fst] in Hbox.
  match type of Hrun with
  | context [set_position ext ?y0 x0 ?b] =>
      pose proof (set_position_cases ext y0 x0 b) as Hc;
      destruct (set_position ext y0 x0 b) as [b' r]
  end.
  cbn [fst snd] in Hrun. destruct r as [[]|e0]; [|discriminate].
  destruct Hc as [_ [_ [[_ Hpos] | [_ [_ [Habs _]]]]]]; [|discriminate].
  destruct i as [|i].
  - cbn in Hi. injection Hi as <-. cbn [fst snd take padded_widths fold_right].
    pose proof (place_row_frame ext rest H p (x0 + width + p)
                  (frw + pp + width) p
                  (BoxLayout.mkState (BoxLayout.self s)
                     (<[box := b']> (BoxLayout.heap s)))) as Hf.
    rewrite Hrun in Hf. cbn zeta in Hf. cbn [fst] in Hf.
    destruct Hf as [_ [_ [_ Hout]]].
    rewrite Hout by exact Hnotin. cbn [BoxLayout.heap].
    rewrite heap_insert_same by exact Hbox.
    rewrite Hpos. do 2 f_equal. lia.
  - cbn in Hi.
    assert (Hvalid1 :
      Forall (fun e => (fst (fst e) <
                length (BoxLayout.heap
                          (BoxLayout.mkState (BoxLayout.self s)
                             (<[box := b']> (BoxLayout.heap s)))))%nat) rest).
    { eapply Forall_impl; [exact Hvalid|]. intros e1 He1.
      cbn [BoxLayout.heap]. rewrite length_insert. exact He1. }
    rewrite (IH H p (x0 + width + p) (frw + pp + width) p _ s' f Hnd
               Hvalid1 Hrun i e Hi).
    cbn [BoxLayout.self take padded_widths fold_right snd].
    do 2 f_equal. fold (padded_widths p (take i rest)). lia.
Qed.

Lemma entry_heights (s : BoxLayout.state) (placed : list (nat * Z * Z)) :
  Forall (fun e =>
            size_of (BoxLayout.heap s !!! fst (fst e)) = (snd (fst e), snd e))
    placed ->
  forall from,
    fold_left (fun H e => Z.max H (snd (fst e))) placed from =
    row_height_of s (entry_ids placed) from.
Proof.
  unfold row_height_of. induction 1 as [|e placed He _ IH]; intros from;
    [reflexivity|].
  cbn. rewrite He. cbn [fst]. apply IH.
Qed.

Lemma entry_span (s : BoxLayout.state) (gap : Z) (placed : list (nat * Z * Z)) :
  Forall (fun e =>
            size_of (BoxLayout.heap s !!! fst (fst e)) = (snd (fst e), snd e))
    placed ->
  padded_widths gap placed = span s gap (entry_ids placed).
Proof.
  unfold padded_widths, span. induction 1 as [|e placed He _ IH];
    [reflexivity|].
  cbn. rewrite He, IH. reflexivity.
Qed.

Lemma row_height_of_least (s : BoxLayout.state) (row : list nat) :
  forall from, from <= row_height_of s row from.
Proof.
  unfold row_height_of. induction row as [|id row IH]; intros from; cbn;
    [lia|].
  specialize (IH (Z.max from (fst (size_of (BoxLayout.heap s !!! id))))). lia.
Qed.

(** What [_position_row] does when it returns: the boxes it places are
    the first boxes of the row, in order; they stand side by side from
    [x0] on with one and the same [gap] after each, each centred on the
    height of the row, which is the height of the tallest of them; and the
    vertical cursor moves down by that height and the padding. *)
Lemma position_row_geometry ext row s s' later :
  layout_ok s -> row_valid s row -> NoDup row ->
  BoxLayout._position_row ext row s = (s', Return later) ->
  exists placed gap x0,
    row = placed ++ later /\
    (row <> [] -> placed <> []) /\
    (placed <> [] -> 0 <= gap /\ 0 <= x0) /\
    BoxLayout.current_line (BoxLayout.self s') =
      BoxLayout.current_line (BoxLayout.self s) + row_height_of s' placed 0 +
      BoxLayout.padding (BoxLayout.self s) /\
    forall i id, placed !! i = Some id ->
      let b := BoxLayout.heap s' !!! id in
      position b =
        Some (mkPosition
                (BoxLayout.current_line (BoxLayout.self s) +
                 round_half (row_height_of s' placed 0 - fst (size_of b)))
                (x0 + span s' gap (take i placed))) /\
      0 <= fst (size_of b) <= row_height_of s' placed 0 /\
      0 <= snd (size_of b).
Proof.
  intros Hok Hvalid Hnd Hrun. rewrite position_row_eq in Hrun.
  pose proof (measure_row_frame row BoxLayout.row_vars0 s) as Hframe.
  destruct (BoxLayout.measure_row row BoxLayout.row_vars0 s)
    as [s1 [v|e]] eqn:Em; [|discriminate].
  cbn zeta in Hframe. cbn [fst] in Hframe.
  destruct Hframe as [Hself1 [Hlen1 _]].
  destruct (measure_row_ok row BoxLayout.row_vars0 s s1 v Hok) as [Hok1 Hrow];
    [|exact Em|].
  { unfold row_ok, BoxLayout.row_vars0. cbn.
    repeat split; try lia; try reflexivity; try congruence.
    apply Forall_nil. exact I. }
  destruct (measure_row_order row _ _ _ _ Em)
    as [pl [spilled [Hp [He [Hsplit [_ [Hne Hh]]]]]]];
    [cbn; congruence|].
  cbn in Hp, He, Hh, Hne. cbv zeta in Hrun.
  destruct (Z.gtb_spec
    (BoxLayout.current_line (BoxLayout.self s1) + BoxLayout.row_height v)
    (BoxLayout.lines (BoxLayout.self s1))) as [Hgt | Hfit]; [discriminate|].
  match type of Hrun with
  | context [BoxLayout.place_row ext ?P ?H ?p ?x0 0 0 s1] =>
      pose proof (place_row_frame ext P H p x0 0 0 s1) as Hframe2;
      pose proof (place_row_positions ext P H p x0 0 0 s1) as Hpos;
      destruct (BoxLayout.place_row ext P H p x0 0 0 s1) as [s2 [f|e]] eqn:Ep;
        [|discriminate]
  end.
  cbn zeta in Hframe2. cbn [fst] in Hframe2.
  destruct Hframe2 as [Hself2 [_ [Hkept2 _]]].
  injection Hrun as <- <-.
  destruct Hok1 as [Hpad [Hcur [Hmrw Hwf]]].
  destruct Hrow as [Hent [Hu [Hr [Hc Hrh]]]].
  rewrite Hp in *. rewrite He in *. clear Hp He.
  match type of Ep with
  | BoxLayout.place_row ext _ _ ?p ?x0 0 0 s1 = _ =>
      pose (gap := p); pose (start := x0)
  end.
  assert (Hids : forall e, e ∈ pl -> fst (fst e) ∈ row).
  { intros e0 He0. rewrite Hsplit. apply elem_of_app. left.
    unfold entry_ids. apply (list_elem_of_fmap_2 (fun e => fst (fst e))).
    exact He0. }
  assert (Hsz2 :
    Forall (fun e0 =>
              size_of (BoxLayout.heap s2 !!! fst (fst e0)) =
              (snd (fst e0), snd e0)) pl).
  { eapply Forall_impl; [exact Hent|]. intros e0 [He1 _].
    rewrite (kept_size _ _ (Hkept2 (fst (fst e0)))). exact He1. }
  set (s' := BoxLayout.mkState
               (after_row (BoxLayout.row_height v) f (BoxLayout.self s2))
               (BoxLayout.heap s2)).
  assert (HH : BoxLayout.row_height v = row_height_of s' (entry_ids pl) 0).
  { rewrite Hh. apply (entry_heights s' pl). exact Hsz2. }
  exists (entry_ids pl), gap, start.
  split; [exact Hsplit|]. split.
  { intros Hrne Hnil. apply (Hne Hrne eq_refl).
    destruct pl; [reflexivity|discriminate]. }
  split.
  { intros Hplne.
    assert (Hne' : pl <> []).
    { intros Hnil. rewrite Hnil in Hplne. apply Hplne. reflexivity. }
    assert (Hn : 1 <= len pl).
    { unfold len. destruct pl; [congruence|]. cbn [length]. lia. }
    specialize (Hc Hne'). rewrite Hr, padded_widths_widths in Hc.
    destruct (row_padding_fits (BoxLayout.cols (BoxLayout.self s1))
                (widths pl) (len pl)
                (BoxLayout.padding (BoxLayout.self s1)) Hn Hpad Hc)
      as [Hp0 [Hx0 _]].
    rewrite <- Hu in Hp0, Hx0. split; [exact Hp0|exact Hx0]. }
  split.
  { rewrite <- HH. unfold s', after_row. cbn.
    rewrite Hself2, Hself1. reflexivity. }
  intros i id Hi. cbn zeta.
  unfold entry_ids in Hi. rewrite list_lookup_fmap in Hi.
  destruct (pl !! i) as [e0|] eqn:Ei; [|discriminate].
  cbn in Hi. injection Hi as <-.
  assert (He0 : e0 ∈ pl) by (eapply list_elem_of_lookup_2; exact Ei).
  pose proof (proj1 (Forall_forall _ _) Hsz2 e0 He0) as Hsize.
  pose proof (proj1 (Forall_forall _ _) Hent e0 He0) as [_ [_ [Hhb Hwb]]].
  change (BoxLayout.heap s') with (BoxLayout.heap s2).
  rewrite Hsize. cbn [fst snd]. rewrite <- HH.
  split; [|split; [exact Hhb|exact Hwb]].
  assert (Hnd' : NoDup (entry_ids pl)).
  { rewrite Hsplit in Hnd. apply NoDup_app in Hnd. apply Hnd. }
  assert (Hval' : Forall (fun e1 : nat * Z * Z =>
                    (fst (fst e1) < length (BoxLayout.heap s1))%nat) pl).
  { apply Forall_forall. intros e1 He1. rewrite Hlen1.
    apply (heap_valid _ row); [exact Hvalid|apply Hids, He1]. }
  rewrite (Hpos s2 f Hnd' Hval' eq_refl i e0 Ei).
  assert (Hspan : span s' gap (take i (entry_ids pl)) =
                  padded_widths gap (take i pl)).
  { pose proof (fmap_take (fun e : nat * Z * Z => fst (fst e)) i pl) as Ht.
    change (entry_ids (take i pl) = take i (entry_ids pl)) in Ht.
    rewrite <- Ht. symmetry. apply (entry_span s' gap (take i pl)).
    apply Forall_take. exact Hsz2. }
  rewrite Hspan. unfold gap, start. rewrite Hself1. reflexivity.
Qed.

Lemma span_snoc (s : BoxLayout.state) (gap : Z) (ids : list nat) (id : nat) :
  span s gap (ids ++ [id]) =
  span s gap ids + snd (size_of (BoxLayout.heap s !!! id)) + gap.
Proof.
  unfold span. induction ids as [|a ids IH]; cbn; [lia|].
  cbn in IH. rewrite IH. lia.
Qed.

Lemma row_state_ok : layout_ok row_state.
Proof.
  unfold layout_ok.
  split; [vm_compute; discriminate|].
  split; [vm_compute; discriminate|].
  split; [vm_compute; discriminate|].
  intros id. destruct id as [|[|id]]; reflexivity.
Qed.

Lemma row_state_valid : row_valid row_state [0%nat; 1%nat].
Proof. repeat constructor. Qed.

Lemma NoDup_two : NoDup [0%nat; 1%nat].
Proof.
  apply NoDup_cons. split.
  - intros H. apply list_elem_of_singleton in H. discriminate.
  - apply NoDup_singleton.
Qed.



(** X11.  The boxes that [_position_row] places stand side by side in the order
    of the row: each begins where the box before it ends plus a gap, the
    same gap for the whole row, and the gap is not negative, so that no two
    of them overlap; the first begins at a column that is not negative. *)
Theorem row_boxes_side_by_side (ext : External) (row : list nat)
  (s s' : BoxLayout.state) (later : list nat) :
  layout_ok s -> row_valid s row -> NoDup row ->
  BoxLayout._position_row ext row s = (s', Return later) ->
  exists placed gap,
    row = placed ++ later /\
    (placed <> [] -> 0 <= gap) /\
    (forall first, placed !! 0%nat = Some first ->
       exists p, position (BoxLayout.heap s' !!! first) = Some p /\ 0 <= x p) /\
    forall i a b, placed !! i = Some a -> placed !! S i = Some b ->
      exists pa pb,
        position (BoxLayout.heap s' !!! a) = Some pa /\
        position (BoxLayout.heap s' !!! b) = Some pb /\
        x pb = x pa + snd (size_of (BoxLayout.heap s' !!! a)) + gap.
Proof.
  intros Hok Hvalid Hnd Hrun.
  destruct (position_row_geometry ext row s s' later Hok Hvalid Hnd Hrun)
    as [placed [gap [x0 [Hsplit [_ [Hgap [_ Hpos]]]]]]].
  exists placed, gap. split; [exact Hsplit|]. split; [apply Hgap|]. split.
  - intros first Hfirst. destruct (Hpos _ _ Hfirst) as [Hp _].
    eexists. split; [exact Hp|]. cbn.
    assert (Hne : placed <> []) by (intros ->; discriminate).
    destruct (Hgap Hne). rewrite take_0. unfold span. cbn [x fold_right]. lia.
  - intros i a b Ha Hb.
    destruct (Hpos _ _ Ha) as [Hpa _]. destruct (Hpos _ _ Hb) as [Hpb _].
    eexists. eexists. split; [exact Hpa|]. split; [exact Hpb|]. cbn.
    rewrite (take_S_r placed i a Ha), span_snoc. lia.
Qed.

Lemma row_boxes_side_by_side_witness :
  exists placed gap,
    [0%nat; 1%nat] = placed ++ [] /\
    (placed <> [] -> 0 <= gap) /\
    (forall first, placed !! 0%nat = Some first ->
       exists p,
         position (BoxLayout.heap
                     (fst (BoxLayout._position_row plain [0%nat; 1%nat]
                             row_state)) !!! first) = Some p /\
         0 <= x p) /\
    forall i a b, placed !! i = Some a -> placed !! S i = Some b ->
      exists pa pb,
        position (BoxLayout.heap
                    (fst (BoxLayout._position_row plain [0%nat; 1%nat]
                            row_state)) !!! a) = Some pa /\
        position (BoxLayout.heap
                    (fst (BoxLayout._position_row plain [0%nat; 1%nat]
                            row_state)) !!! b) = Some pb /\
        x pb = x pa +
               snd (size_of
                      (BoxLayout.heap
                         (fst (BoxLayout._position_row plain [0%nat; 1%nat]
                                 row_state)) !!! a)) + gap.
Proof.
  apply (row_boxes_side_by_side plain [0%nat; 1%nat] row_state
           (fst (BoxLayout._position_row plain [0%nat; 1%nat] row_state)) []
           row_state_ok row_state_valid NoDup_two).
  vm_compute. reflexivity.
Defined.

(** X12.  A row takes up a band of lines: every box that [_position_row] places
    is centred on the height of the tallest box placed, lies between the
    vertical cursor and the cursor plus that height, and the cursor moves
    down by that height and the padding, by the padding alone for an empty
    row. *)
Theorem row_band (ext : External) (row : list nat)
  (s s' : BoxLayout.state) (later : list nat) :
  layout_ok s -> row_valid s row -> NoDup row ->
  BoxLayout._position_row ext row s = (s', Return later) ->
  exists placed,
    row = placed ++ later /\
    let top := BoxLayout.current_line (BoxLayout.self s) in
    let H := row_height_of s' placed 0 in
    BoxLayout.current_line (BoxLayout.self s') =
      top + H + BoxLayout.padding (BoxLayout.self s) /\
    forall id, id ∈ placed ->
      let height := fst (size_of (BoxLayout.heap s' !!! id)) in
      exists p,
        position (BoxLayout.heap s' !!! id) = Some p /\
        y p = top + round_half (H - height) /\
        top <= y p /\ y p + height <= top + H.
Proof.
  intros Hok Hvalid Hnd Hrun.
  destruct (position_row_geometry ext row s s' later Hok Hvalid Hnd Hrun)
    as [placed [gap [x0 [Hsplit [_ [_ [Hcur Hpos]]]]]]].
  exists placed. split; [exact Hsplit|]. cbn zeta. split; [exact Hcur|].
  intros id Hin. apply list_elem_of_lookup_1 in Hin as [i Hi].
  pose proof (Hpos _ _ Hi) as Hq. cbn zeta in Hq.
  destruct Hq as [Hp [Hh _]].
  eexists. split; [exact Hp|]. cbn [y]. split; [reflexivity|].
  assert (Hd : 0 <= row_height_of s' placed 0 -
                    fst (size_of (BoxLayout.heap s' !!! id))) by lia.
  pose proof (round_half_bounds _ Hd).
  lia.
Qed.

Lemma row_band_witness :
  exists placed,
    [0%nat; 1%nat] = placed ++ [] /\
    let s' := fst (BoxLayout._position_row plain [0%nat; 1%nat] row_state) in
    let top := BoxLayout.current_line (BoxLayout.self row_state) in
    let H := row_height_of s' placed 0 in
    BoxLayout.current_line (BoxLayout.self s') =
      top + H + BoxLayout.padding (BoxLayout.self row_state) /\
    forall id, id ∈ placed ->
      let height := fst (size_of (BoxLayout.heap s' !!! id)) in
      exists p,
        position (BoxLayout.heap s' !!! id) = Some p /\
        y p = top + round_half (H - height) /\
        top <= y p /\ y p + height <= top + H.
Proof.
  apply (row_band plain [0%nat; 1%nat] row_state
           (fst (BoxLayout._position_row plain [0%nat; 1%nat] row_state)) []
           row_state_ok row_state_valid NoDup_two).
  vm_compute. reflexivity.
Defined.

(** ** The list of items to position *)

Lemma position_row_unpositioned ext row s :
  BoxLayout._unpositioned
    (BoxLayout.self (fst (BoxLayout._position_row ext row s))) =
  BoxLayout._unpositioned (BoxLayout.self s).
Proof.
  rewrite position_row_eq.
  pose proof (measure_row_frame row BoxLayout.row_vars0 s) as Hm.
  destruct (BoxLayout.measure_row row BoxLayout.row_vars0 s) as [s1 [v|e]];
    cbn zeta in Hm; cbn [fst] in Hm; destruct Hm as [H1 _];
    [|cbn [fst]; rewrite H1; reflexivity].
  cbv zeta. destruct (_ >? _); [cbn [fst]; rewrite H1; reflexivity|].
  match goal with
  | |- context [BoxLayout.place_row ext ?P ?H ?p ?x0 0 0 s1] =>
      pose proof (place_row_frame ext P H p x0 0 0 s1) as Hp;
      destruct (BoxLayout.place_row ext P H p x0 0 0 s1) as [s2 [f|e]]
  end; cbn zeta in Hp; cbn [fst] in Hp; destruct Hp as [H2 _];
    cbn [fst BoxLayout.self after_row BoxLayout._unpositioned];
    unfold after_row; cbn; rewrite ?H2, H1; reflexivity.
Qed.

Lemma position_items_unpositioned ext items :
  forall row s,
    BoxLayout._unpositioned
      (BoxLayout.self (fst (BoxLayout.position_items ext items row s))) =
    BoxLayout._unpositioned (BoxLayout.self s).
Proof.
  induction items as [|[item|] rest IH]; intros row s.
  - reflexivity.
  - cbn [BoxLayout.position_items]. apply IH.
  - cbn [BoxLayout.position_items]. unfold bind.
    pose proof (position_row_unpositioned ext row s) as Hr.
    destruct (BoxLayout._position_row ext row s) as [s1 [later|e]];
      cbn [fst] in Hr; [|exact Hr].
    rewrite IH. exact Hr.
Qed.

Lemma position_rest_unpositioned ext fuel :
  forall row s,
    BoxLayout._unpositioned
      (BoxLayout.self (fst (BoxLayout.position_rest ext fuel row s))) =
    BoxLayout._unpositioned (BoxLayout.self s).
Proof.
  induction fuel as [|fuel IH]; intros row s.
  - destruct row; reflexivity.
  - destruct row as [|box rest]; [reflexivity|].
    cbn [BoxLayout.position_rest]. unfold bind.
    pose proof (position_row_unpositioned ext (box :: rest) s) as Hr.
    destruct (BoxLayout._position_row ext (box :: rest) s) as [s1 [later|e]];
      cbn [fst] in Hr; [|exact Hr].
    rewrite IH. exact Hr.
Qed.

Lemma position_unpositioned ext s :
  BoxLayout._unpositioned (BoxLayout.self (fst (BoxLayout.position ext s))) =
    match snd (BoxLayout.position ext s) with
    | Return _ => []
    | Raise _ => BoxLayout._unpositioned (BoxLayout.self s)
    end.
Proof.
  rewrite position_eq.
  pose proof (position_items_unpositioned ext
                (BoxLayout._unpositioned (BoxLayout.self s)) [] s) as Hi.
  destruct (BoxLayout.position_items ext _ [] s) as [s1 [row|e]];
    cbn [fst] in Hi; [|exact Hi].
  pose proof (position_rest_unpositioned ext (length row) row s1) as Hr.
  destruct (BoxLayout.position_rest ext (length row) row s1) as [s2 [[]|e]];
    cbn [fst snd] in *; [reflexivity|congruence].
Qed.

(** X13.  [position] assigns [_unpositioned] at its end only: it leaves the
    list empty when it returns and as it was when it raises, so that the
    items of a failed call are all still to position.  It never changes
    [_content], the extents or the padding. *)
Theorem position_empties_unpositioned (ext : External) (s : BoxLayout.state) :
  let s' := fst (BoxLayout.position ext s) in
  fixed_of (BoxLayout.self s') = fixed_of (BoxLayout.self s) /\
  BoxLayout._unpositioned (BoxLayout.self s') =
    match snd (BoxLayout.position ext s) with
    | Return _ => []
    | Raise _ => BoxLayout._unpositioned (BoxLayout.self s)
    end.
Proof.
  cbn zeta. split; [apply position_frame|apply position_unpositioned].
Qed.

(** X14.  Positioning a layout that [position] has just positioned does
    nothing: the second call returns and leaves the layout and the boxes
    as they are. *)
Theorem position_again_does_nothing (ext : External) (s s' : BoxLayout.state) :
  BoxLayout.position ext s = (s', Return tt) ->
  BoxLayout.position ext s' = (s', Return tt).
Proof.
  intros Hrun.
  pose proof (position_unpositioned ext s) as Hu.
  rewrite Hrun in Hu. cbn [fst snd] in Hu.
  rewrite position_eq, Hu. cbn.
  destruct s' as [l heap]. cbn in *. destruct l. cbn in *. subst.
  reflexivity.
Qed.

Lemma position_again_does_nothing_witness :
  BoxLayout.position plain (fst (BoxLayout.position plain two_row_layout)) =
  (fst (BoxLayout.position plain two_row_layout), Return tt).
Proof.
  apply (position_again_does_nothing plain two_row_layout).
  vm_compute. reflexivity.
Defined.

(** ** The error of the columns *)

(** Once a box is placed on the row, the first loop of [_position_row]
    never raises the error of the columns: a box that does not fit is left
    for a later row. *)
Lemma measure_row_columns row :
  forall v s,
    BoxLayout.positioned v <> [] ->
    snd (BoxLayout.measure_row row v s) <>
    Raise (ProgressException "Insufficient columns available" None).
Proof.
  induction row as [|box rest IH]; intros v s Hne; [cbn; discriminate|].
  rewrite measure_row_step. cbv zeta.
  pose proof (resize_for_layout_outcome
                (BoxLayout.get_layout_properties (BoxLayout.self s))
                (BoxLayout.heap s !!! box)) as Ho.
  destruct (snd (resize_for_layout _ _)) as [a|e].
  - assert (Hlen : (len (BoxLayout.positioned v) =? 0) = false).
    { unfold len. destruct (BoxLayout.positioned v); [congruence|].
      cbn [length]. apply Z.eqb_neq. lia. }
    rewrite Hlen. cbn [negb andb].
    destruct (negb (len (BoxLayout.extra v) =? 0) || _) eqn:Ec.
    + apply IH. exact Hne.
    + apply orb_false_iff in Ec as [_ Ec]. rewrite Ec.
      apply IH. cbn. intros Hnil. apply app_eq_nil in Hnil as [_ Hnil].
      discriminate.
  - cbn [snd]. intros Heq. injection Heq as ->.
    destruct (variant (BoxLayout.heap s !!! box)); try discriminate.
    destruct (_ <? 3); discriminate.
Qed.

(** X15.  [_position_row] raises the error of the columns for the first box of
    a row only: exactly when that box, measured, is wider with the padding
    than the columns of the layout.  Every other box that does not fit is
    handed back for a later row. *)
Theorem columns_error_first_box (ext : External) (box : nat)
  (rest : list nat) (s : BoxLayout.state) :
  let l := BoxLayout.self s in
  let measuring :=
    resize_for_layout (BoxLayout.get_layout_properties l)
      (BoxLayout.heap s !!! box) in
  snd (BoxLayout._position_row ext (box :: rest) s) =
    Raise (ProgressException "Insufficient columns available" None) <->
  (exists r, snd measuring = Return r) /\
  snd (size_of (fst measuring)) + BoxLayout.padding l > BoxLayout.cols l.
Proof.
  cbn zeta. rewrite position_row_eq, measure_row_step. cbv zeta.
  pose proof (resize_for_layout_outcome
                (BoxLayout.get_layout_properties (BoxLayout.self s))
                (BoxLayout.heap s !!! box)) as Ho.
  destruct (snd (resize_for_layout _ _)) as [a|e].
  - change (len (BoxLayout.positioned BoxLayout.row_vars0) =? 0) with true.
    change (BoxLayout.row_width BoxLayout.row_vars0) with 0.
    cbn [negb andb].
    destruct (Z.gtb_spec
      (0 + (snd (size_of (fst (resize_for_layout
                  (BoxLayout.get_layout_properties (BoxLayout.self s))
                  (BoxLayout.heap s !!! box)))) +
            BoxLayout.padding (BoxLayout.self s)))
      (BoxLayout.cols (BoxLayout.self s))) as [Hgt | Hle].
    + cbn [snd]. split; [intros _|reflexivity].
      split; [eexists; reflexivity|lia].
    + split; [|intros [_ Hw]; lia].
      match goal with
      | |- context [BoxLayout.measure_row rest ?v1 ?s2] =>
          pose proof (measure_row_columns rest v1 s2) as Hno;
          destruct (BoxLayout.measure_row rest v1 s2) as [s1 [v|e]]
      end.
      * cbv beta iota zeta. destruct (_ >? _); [cbn [snd]; discriminate|].
        match goal with
        | |- context [BoxLayout.place_row ext ?P ?H ?p ?x0 0 0 s1] =>
            pose proof (place_row_error ext P H p x0 0 0 s1) as Hp;
            destruct (BoxLayout.place_row ext P H p x0 0 0 s1) as [s3 [f|e]]
        end; [cbn [snd]; discriminate|].
        cbn [snd] in *. intros Hraise. injection Hraise as ->.
        specialize (Hp _ eq_refl). discriminate.
      * cbn [snd] in *. intros Hraise. exfalso.
        injection Hraise as ->.
        apply Hno; [cbn; discriminate|reflexivity].
  - cbn [snd]. split.
    + intros Heq. injection Heq as ->.
      destruct (variant (BoxLayout.heap s !!! box)); try discriminate.
      destruct (_ <? 3); discriminate.
    + intros [[r Hr] _]. discriminate.
Qed.

(** ** Redrawing *)

Lemma update_items_frame ext items :
  forall s,
    let s' := fst (BoxLayout.update_items ext items s) in
    BoxLayout.self s' = BoxLayout.self s /\
    length (BoxLayout.heap s') = length (BoxLayout.heap s) /\
    forall id,
      kept (BoxLayout.heap s !!! id) (BoxLayout.heap s' !!! id) /\
      (window (BoxLayout.heap s !!! id) = true ->
       window (BoxLayout.heap s' !!! id) = true /\
       position (BoxLayout.heap s' !!! id) =
         position (BoxLayout.heap s !!! id)).
Proof.
  induction items as [|[item|] items IH]; intros s; cbn zeta.
  - cbn. split; [reflexivity|]. split; [reflexivity|].
    intros id. split; [apply kept_refl|auto].
  - cbn [BoxLayout.update_items]. unfold bind, BoxLayout.on_box.
    pose proof (update_returns ext (BoxLayout.heap s !!! item)) as Hu.
    pose proof (update_kept ext (BoxLayout.heap s !!! item)) as Hk.
    pose proof (update_frame ext (BoxLayout.heap s !!! item)) as [Hw [Hp _]].
    destruct (update ext (BoxLayout.heap s !!! item)) as [b' r].
    cbn [fst snd] in *. subst r.
    destruct (IH (BoxLayout.mkState (BoxLayout.self s)
                    (<[item := b']> (BoxLayout.heap s)))) as [H1 [H2 H3]].
    cbn [BoxLayout.self BoxLayout.heap] in *.
    split; [exact H1|]. split; [rewrite H2; apply length_insert|].
    intros id. destruct (H3 id) as [Hk3 Hw3].
    destruct (heap_insert_cases (BoxLayout.heap s) item id b')
      as [Heq | [<- [_ Heq]]]; rewrite Heq in *.
    + auto.
    + split; [eapply kept_trans; [exact Hk|exact Hk3]|].
      intros Hwin. rewrite Hwin in Hp.
      destruct (Hw3 Hw) as [Hw4 Hp4]. split; [exact Hw4|congruence].
  - cbn [BoxLayout.update_items]. apply IH.
Qed.


(** * Further properties of the controller *)

(** ** The registry of live displays *)

Lemma list_remove_absent (d : nat) (l : list nat) :
  d ∉ l -> ProgressDisplay.list_remove d l = None.
Proof.
  induction l as [|a l IH]; intros Hnotin; [reflexivity|].
  cbn [ProgressDisplay.list_remove].
  destruct (Nat.eqb_spec a d) as [-> | Hne].
  - exfalso. apply Hnotin. left.
  - rewrite IH; [reflexivity|]. intros Hin. apply Hnotin. right. exact Hin.
Qed.

Lemma delete_NoDup_absent (l : list nat) (i d : nat) :
  NoDup l -> l !! i = Some d -> d ∉ delete i l.
Proof.
  revert i. induction l as [|a l IH]; intros i Hnd Hi; [discriminate|].
  apply NoDup_cons in Hnd as [Hnotin Hnd]. destruct i as [|i].
  - cbn in *. injection Hi as <-. exact Hnotin.
  - cbn in *. intros Hin. apply elem_of_cons in Hin as [-> | Hin].
    + apply Hnotin. eapply list_elem_of_lookup_2. exact Hi.
    + apply (IH i Hnd Hi Hin).
Qed.

(** X17.  [end] works once: on a registered display it calls [endwin] and takes
    the display out of the registry, the other displays staying in their
    order; a second [end] on the same display calls [endwin] again and
    then raises the [ValueError] of [list.remove]. *)
Theorem end_twice_raises (display i : nat) (w : ProgressDisplay.world) :
  NoDup (ProgressDisplay._displays w) ->
  ProgressDisplay._displays w !! i = Some display ->
  let w1 := fst (ProgressDisplay.end_ display w) in
  let w2 := fst (ProgressDisplay.end_ display w1) in
  snd (ProgressDisplay.end_ display w) = Return tt /\
  ProgressDisplay._displays w1 = delete i (ProgressDisplay._displays w) /\
  snd (ProgressDisplay.end_ display w1) =
    Raise (ValueError "list.remove(x): x not in list" None) /\
  ProgressDisplay._displays w2 = ProgressDisplay._displays w1 /\
  ProgressDisplay.mode w2 = ProgressDisplay.Normal /\
  calls_since w w2 = [ProgressDisplay.Endwin; ProgressDisplay.Endwin].
Proof.
  intros Hnd Hi. cbn zeta.
  assert (Hend : ProgressDisplay.end_ display w =
                 (ProgressDisplay.set_displays
                    (delete i (ProgressDisplay._displays w))
                    (ProgressDisplay.set_mode ProgressDisplay.Normal
                       (ProgressDisplay.record ProgressDisplay.Endwin w)),
                  Return tt)).
  { unfold ProgressDisplay.end_, bind, ProgressDisplay.do, modify. cbn.
    rewrite (list_remove_delete _ i display Hnd Hi). reflexivity. }
  rewrite Hend. cbn [fst snd].
  split; [reflexivity|]. split; [reflexivity|].
  unfold ProgressDisplay.end_ at 1 2 3 4, bind, ProgressDisplay.do, modify.
  cbn. rewrite (list_remove_absent display)
    by (apply delete_NoDup_absent; assumption).
  cbn. split; [reflexivity|]. split; [reflexivity|]. split; [reflexivity|].
  unfold calls_since. cbn. rewrite <- app_assoc.
  rewrite drop_app_length. reflexivity.
Qed.

Lemma end_twice_raises_witness :
  snd (ProgressDisplay.end_ 0 (fst (ProgressDisplay.end_ 0 two_displays))) =
  Raise (ValueError "list.remove(x): x not in list" None).
Proof.
  assert (Hnd : NoDup (ProgressDisplay._displays two_displays)).
  { change (NoDup [0%nat; 1%nat]). apply NoDup_two. }
  apply (end_twice_raises 0 0 two_displays Hnd eq_refl).
Defined.

(** The loop of [reset_terminal] from index [i] on: the displays before
    the index stay, and of the others every second one is skipped, because
    [end] takes the display at the index out of the list while the index
    moves on. *)
Lemma for_display_end_skips fuel :
  forall pre post w,
    NoDup (ProgressDisplay._displays w) ->
    ProgressDisplay._displays w = pre ++ post ->
    (length post <= fuel)%nat ->
    ProgressDisplay._displays
      (fst (ProgressDisplay.for_display fuel (length pre)
              ProgressDisplay.end_ w)) =
    pre ++ skipped post.
Proof.
  induction fuel as [|fuel IH]; intros pre post w Hnd Hds Hfuel.
  - destruct post; [|cbn in Hfuel; lia].
    rewrite app_nil_r in Hds. cbn [ProgressDisplay.for_display].
    rewrite Hds, (lookup_ge_None_2 pre (length pre)) by lia.
    cbn. rewrite app_nil_r. exact Hds.
  - rewrite for_display_S. destruct post as [|a rest].
    + rewrite app_nil_r in Hds.
      rewrite Hds, (lookup_ge_None_2 pre (length pre)) by lia.
      cbn. rewrite app_nil_r. exact Hds.
    + assert (Hi : ProgressDisplay._displays w !! length pre = Some a).
      { rewrite Hds. apply list_lookup_middle. reflexivity. }
      rewrite Hi.
      assert (Hend : ProgressDisplay.end_ a w =
                     (ProgressDisplay.set_displays (pre ++ rest)
                        (ProgressDisplay.set_mode ProgressDisplay.Normal
                           (ProgressDisplay.record ProgressDisplay.Endwin w)),
                      Return tt)).
      { unfold ProgressDisplay.end_, bind, ProgressDisplay.do, modify. cbn.
        rewrite (list_remove_delete _ (length pre) a Hnd Hi), Hds.
        rewrite delete_middle. reflexivity. }
      unfold bind. rewrite Hend.
      set (w1 := ProgressDisplay.set_displays _ _).
      assert (Hnd1 : NoDup (ProgressDisplay._displays w1)).
      { unfold w1. cbn. rewrite Hds in Hnd.
        apply NoDup_app in Hnd as [H1 [H2 H3]].
        apply NoDup_cons in H3 as [_ H3]. apply NoDup_app.
        split; [exact H1|]. split; [|exact H3].
        intros x0 Hin Hin'. apply (H2 x0 Hin). right. exact Hin'. }
      destruct rest as [|b rest'].
      * assert (Hout : ProgressDisplay._displays w1 !! S (length pre) = None).
        { unfold w1. cbn. rewrite app_nil_r. apply lookup_ge_None_2. lia. }
        destruct fuel; cbn [ProgressDisplay.for_display]; rewrite Hout;
          unfold w1; cbn; reflexivity.
      * specialize (IH (pre ++ [b]) rest' w1 Hnd1).
        rewrite length_app in IH. cbn [length] in IH.
        rewrite Nat.add_1_r in IH.
        rewrite IH.
        -- rewrite <- app_assoc. reflexivity.
        -- unfold w1. cbn. rewrite <- app_assoc. reflexivity.
        -- cbn in Hfuel. lia.
Qed.

(** X18.  [reset_terminal] ends every other display only: of the registered
    displays it ends the first, the third and so on, and leaves the second,
    the fourth and so on registered and not ended.  It never raises. *)
Theorem reset_terminal_ends_every_other (w : ProgressDisplay.world) :
  NoDup (ProgressDisplay._displays w) ->
  let w' := fst (ProgressDisplay.reset_terminal w) in
  snd (ProgressDisplay.reset_terminal w) = Return tt /\
  ProgressDisplay._displays w' = skipped (ProgressDisplay._displays w).
Proof.
  intros Hnd. cbn zeta. split; [apply reset_terminal_restores|].
  unfold ProgressDisplay.reset_terminal.
  apply (for_display_end_skips _ [] (ProgressDisplay._displays w) w Hnd);
    [reflexivity|lia].
Qed.

Lemma reset_terminal_ends_every_other_witness :
  ProgressDisplay._displays (fst (ProgressDisplay.reset_terminal two_displays)) =
  skipped (ProgressDisplay._displays two_displays).
Proof.
  assert (Hnd : NoDup (ProgressDisplay._displays two_displays)).
  { change (NoDup [0%nat; 1%nat]). apply NoDup_two. }
  apply (reset_terminal_ends_every_other two_displays Hnd).
Defined.

(** ** What the controller leaves alone *)

Section Frames.

Context {X : Type} (P : ProgressDisplay.world -> X).

Context (ok : ProgressDisplay.t -> ProgressDisplay.t -> Prop).

Hypothesis ok_term_size :
  forall size o, ok o (ProgressDisplay.set_term_size size o).
Hypothesis ok_layout : forall l o, ok o (ProgressDisplay.set_layout l o).
Hypothesis ok_boxes_of :
  forall banner_box metric_boxes log_box o,
    ok o (ProgressDisplay.set_boxes_of banner_box metric_boxes log_box o).
Hypothesis P_objects :
  forall d o w,
    ok (ProgressDisplay.objects w !!! d) o ->
    P (ProgressDisplay.set_object d o w) = P w.
Hypothesis P_boxes : forall bs w, P (ProgressDisplay.set_boxes bs w) = P w.
Hypothesis P_calls : forall c w, P (ProgressDisplay.record c w) = P w.

Lemma preserves_ret {A} (a : A) : preserves P (ret a).
Proof. intros w. reflexivity. Qed.

Lemma preserves_raise {A} (e : Exn) :
  preserves P (raise e : M ProgressDisplay.world A).
Proof. intros w. reflexivity. Qed.

Lemma preserves_lift {A} (r : outcome A) :
  preserves P (ProgressDisplay.lift r).
Proof. intros w. reflexivity. Qed.

Lemma preserves_gets {A} (f : ProgressDisplay.world -> A) :
  preserves P (gets f).
Proof. intros w. reflexivity. Qed.

Lemma preserves_bind {A B} (m : M ProgressDisplay.world A)
  (k : A -> M ProgressDisplay.world B) :
  preserves P m -> (forall a, preserves P (k a)) -> preserves P (bind m k).
Proof.
  intros Hm Hk w. unfold bind. specialize (Hm w).
  destruct (m w) as [w1 [a|e]]; cbn [fst] in *; [|exact Hm].
  rewrite (Hk a w1). exact Hm.
Qed.

Lemma preserves_try {A} (m : M ProgressDisplay.world A)
  (h : Exn -> M ProgressDisplay.world A) :
  preserves P m -> (forall e, preserves P (h e)) ->
  preserves P (try_except m h).
Proof.
  intros Hm Hh w. unfold try_except. specialize (Hm w).
  destruct (m w) as [w1 [a|e]]; cbn [fst] in *; [exact Hm|].
  rewrite (Hh e w1). exact Hm.
Qed.

Lemma preserves_do (c : ProgressDisplay.call) :
  preserves P (ProgressDisplay.do c).
Proof. intros w. apply P_calls. Qed.

Lemma preserves_self (display : nat) : preserves P (ProgressDisplay.self display).
Proof. intros w. reflexivity. Qed.

Lemma preserves_on_self (display : nat) f :
  (forall o, ok o (f o)) ->
  preserves P (ProgressDisplay.on_self display f).
Proof. intros Hf w. apply P_objects, Hf. Qed.


Lemma preserves_on_layout {A} (display : nat) (m : M BoxLayout.state A) :
  preserves P (ProgressDisplay.on_layout display m).
Proof.
  intros w. unfold ProgressDisplay.on_layout. cbv zeta.
  destruct (m _) as [s r]. cbn [fst].
  rewrite P_objects by apply ok_layout. apply P_boxes.
Qed.

Lemma preserves_new_box (b : Box) : preserves P (ProgressDisplay.new_box b).
Proof. intros w. apply P_boxes. Qed.

Lemma preserves_get_metrics progress worker_index :
  preserves P (ProgressDisplay._get_metrics progress worker_index).
Proof.
  unfold ProgressDisplay._get_metrics.
  repeat (apply preserves_bind; [apply preserves_lift|intros ?]).
  destruct (_ >? _); [apply preserves_raise|apply preserves_ret].
Qed.

Lemma preserves_refresh : preserves P ProgressDisplay.refresh.
Proof.
  unfold ProgressDisplay.refresh.
  apply preserves_bind; [apply preserves_do|intros _; apply preserves_do].
Qed.

Lemma preserves_resize ext display :
  preserves P (ProgressDisplay.resize ext display).
Proof.
  unfold ProgressDisplay.resize.
  apply preserves_bind; [apply preserves_gets|intros size].
  apply preserves_bind; [apply preserves_self|intros d].
  cbv zeta.
  repeat (apply preserves_bind; [|intros ?]);
    try apply preserves_do;
    try (apply preserves_on_self; intros o; apply ok_term_size);
    try apply preserves_on_layout; try apply preserves_refresh.
  - destruct (_ <? _); [|apply preserves_ret].
    apply preserves_bind; [apply preserves_do|intros _].
    apply preserves_on_layout.
  - destruct (negb _); [|apply preserves_ret].
    apply preserves_bind; [apply preserves_do|intros _].
    apply preserves_on_layout.
Qed.



Lemma preserves_initialize_metric_boxes_from default_update indexes :
  forall boxes,
    preserves P
      (ProgressDisplay.initialize_metric_boxes_from default_update
         indexes boxes).
Proof.
  induction indexes as [|index rest IH]; intros boxes; [apply preserves_ret|].
  cbn [ProgressDisplay.initialize_metric_boxes_from].
  apply preserves_bind; [apply preserves_get_metrics|intros metrics].
  apply preserves_bind; [apply preserves_new_box|intros box].
  apply IH.
Qed.



End Frames.

Lemma objects_insert_cases (objects : list ProgressDisplay.t) (i j : nat)
  (o : ProgressDisplay.t) :
  <[i := o]> objects !!! j = objects !!! j \/
  (i = j /\ (i < length objects)%nat /\ <[i := o]> objects !!! j = o).
Proof.
  destruct (decide (i = j)) as [<- | Hne].
  - destruct (Nat.lt_ge_cases i (length objects)) as [Hlt | Hge].
    + right. split; [reflexivity|]. split; [exact Hlt|].
      apply list_lookup_total_insert_eq, Hlt.
    + left. rewrite list_insert_ge by exact Hge. reflexivity.
  - left. apply list_lookup_total_insert_ne, Hne.
Qed.

Lemma pending_set_object (display d : nat) (o : ProgressDisplay.t) w :
  ProgressDisplay.pending_resize o =
    ProgressDisplay.pending_resize (ProgressDisplay.objects w !!! d) ->
  pending display (ProgressDisplay.set_object d o w) = pending display w.
Proof.
  intros Ho. unfold pending, ProgressDisplay.set_object. cbn.
  destruct (objects_insert_cases (ProgressDisplay.objects w) d display o)
    as [-> | [<- [_ ->]]]; [reflexivity|exact Ho].
Qed.



Lemma resize_pending ext display d :
  preserves (pending d) (ProgressDisplay.resize ext display).
Proof.
  apply (preserves_resize _
           (fun o o' => ProgressDisplay.pending_resize o' =
                        ProgressDisplay.pending_resize o)); auto.
  intros d0 o w Ho. apply pending_set_object, Ho.
Qed.

Lemma reset_terminal_objects w :
  ProgressDisplay.objects (fst (ProgressDisplay.reset_terminal w)) =
  ProgressDisplay.objects w.
Proof.
  unfold ProgressDisplay.reset_terminal.
  apply (for_display_end (length (ProgressDisplay._displays w)) 0 w). lia.
Qed.

Lemma pending_in_range display w :
  pending display w = true ->
  (display < length (ProgressDisplay.objects w))%nat.
Proof.
  unfold pending. intros Hp.
  destruct (Nat.lt_ge_cases display (length (ProgressDisplay.objects w)))
    as [Hlt | Hge]; [exact Hlt|].
  rewrite list_lookup_total_alt, (lookup_ge_None_2 _ _ Hge) in Hp.
  discriminate.
Qed.

Lemma resize_if_necessary_eq ext display w :
  ProgressDisplay._resize_if_necessary ext display w =
  if negb (pending display w) then (w, Return false)
  else
    match ProgressDisplay.resize ext display w with
    | (w1, Return _) =>
        (ProgressDisplay.set_object display
           (ProgressDisplay.set_pending_resize false
              (ProgressDisplay.objects w1 !!! display)) w1,
         Return true)
    | (w1, Raise e) =>
        (fst (ProgressDisplay.reset_terminal w1), Raise (resize_failed e))
    end.
Proof.
  unfold ProgressDisplay._resize_if_necessary, bind at 1.
  unfold ProgressDisplay.self at 1, gets at 1. cbn beta iota.
  fold (pending display w). destruct (negb (pending display w));
    [reflexivity|].
  unfold try_except, bind.
  destruct (ProgressDisplay.resize ext display w) as [w1 [[]|e]];
    [reflexivity|].
  pose proof (reset_terminal_restores w1) as [Hr _].
  destruct (ProgressDisplay.reset_terminal w1) as [w2 r2].
  cbn [fst snd] in *. subst r2. reflexivity.
Qed.


(** ** Pending resizes *)

(** X19.  [_resize_if_necessary] clears the pending flag exactly when it
    returns, and it returns whether a resize was pending.  When the resize
    fails it raises [ProgressException] from the error, and the flag stays
    set: the next call tries the resize again. *)
Theorem resize_if_necessary_clears_flag (ext : External) (display : nat)
  (w : ProgressDisplay.world) :
  let w' := fst (ProgressDisplay._resize_if_necessary ext display w) in
  match snd (ProgressDisplay._resize_if_necessary ext display w) with
  | Return did => did = pending display w /\ pending display w' = false
  | Raise e =>
      pending display w = true /\ pending display w' = true /\
      exists cause, e = resize_failed cause
  end.
Proof.
  cbn zeta. rewrite resize_if_necessary_eq.
  destruct (pending display w) eqn:Ep; cbn [negb]; [|cbn; auto].
  pose proof (resize_pending ext display display w) as Hp.
  destruct (ProgressDisplay.resize ext display w) as [w1 [[]|e]];
    cbn [fst snd] in *.
  - split; [reflexivity|].
    rewrite Ep in Hp. apply pending_in_range in Hp as Hlt.
    unfold pending, ProgressDisplay.set_object.
    cbn [ProgressDisplay.objects].
    rewrite list_lookup_total_insert_eq by exact Hlt. reflexivity.
  - split; [reflexivity|]. split; [|eexists; reflexivity].
    unfold pending in *. rewrite reset_terminal_objects, Hp. exact Ep.
Qed.


(** ** Progress updates *)


(** ** Construction *)



(** ** Metrics *)

(** X22.  The guard of [_compute_rate] excludes the division by zero: the rate
    never raises [ZeroDivisionError], and an elapsed time that is zero,
    negative or not a number gives the rate 0. *)
Theorem compute_rate_never_divides_by_zero (value : Z) (elapsed_time : float) :
  (float_gt_zero elapsed_time = false ->
   ProgressDisplay._compute_rate value elapsed_time = Return 0) /\
  forall msg,
    ProgressDisplay._compute_rate value elapsed_time <>
    Raise (ZeroDivisionError msg).
Proof.
  unfold ProgressDisplay._compute_rate. split.
  - intros ->. reflexivity.
  - intros msg. destruct (float_gt_zero elapsed_time) eqn:Eg; [|discriminate].
    unfold truediv. destruct (float_of_int value) as [a|e] eqn:Ef.
    + assert (Hz : SFeqb elapsed_time (S754_zero false) = false).
      { unfold float_gt_zero, SFltb, SFeqb in *.
        destruct elapsed_time as [s|s| |s m e]; cbn in *;
          try discriminate; try reflexivity; destruct s; reflexivity. }
      rewrite Hz.
      destruct (SFdiv prec emax a elapsed_time); cbn; discriminate.
    + unfold float_of_int in Ef.
      destruct (binary_normalize _ _ _ _ _); try discriminate.
      injection Ef as <-. discriminate.
Qed.

(** X23.  [_get_metrics] reads three counters and computes two rates: it
    returns five metrics, as many as [METRICS_COUNT], with their labels in
    a fixed order, it does not touch the state, and it raises only what a
    read or a rate raises; its error of a count out of sync is never
    raised. *)
Theorem get_metrics_five {S : Type}
  (progress : ProgressDisplay.ScanProgressUpdate) (worker_index : option Z)
  (s : S) :
  fst (ProgressDisplay._get_metrics progress worker_index s) = s /\
  match snd (ProgressDisplay._get_metrics progress worker_index s) with
  | Return metrics =>
      len metrics = ProgressDisplay.METRICS_COUNT /\
      map label metrics =
        map list_ascii_of_string
          ["Files Processed"; "Bytes Processed"; "Matches Found";
           "Files / Second"; "Bytes / Second"]%string
  | Raise e =>
      (exists key,
         ProgressDisplay.get_int_metric progress key worker_index = Raise e) \/
      (exists value,
         ProgressDisplay._compute_rate value
           (ProgressDisplay.elapsed_time progress) = Raise e)
  end.
Proof.
  unfold ProgressDisplay._get_metrics, bind, ProgressDisplay.lift.
  destruct (ProgressDisplay.get_int_metric progress "counts" worker_index)
    as [fc|e] eqn:E1;
    [|cbn; split; [reflexivity|left; eexists; exact E1]].
  destruct (ProgressDisplay.get_int_metric progress "bytes" worker_index)
    as [bc|e] eqn:E2;
    [|cbn; split; [reflexivity|left; eexists; exact E2]].
  destruct (ProgressDisplay.get_int_metric progress "matches" worker_index)
    as [mc|e] eqn:E3;
    [|cbn; split; [reflexivity|left; eexists; exact E3]].
  destruct (ProgressDisplay._compute_rate fc _) as [fr|e] eqn:E4;
    [|cbn; split; [reflexivity|right; eexists; exact E4]].
  destruct (ProgressDisplay._compute_rate bc _) as [br|e] eqn:E5;
    [|cbn; split; [reflexivity|right; eexists; exact E5]].
  change (len [ProgressDisplay.new_Metric "Files Processed" fc;
               ProgressDisplay.new_Metric "Bytes Processed" bc;
               ProgressDisplay.new_Metric "Matches Found" mc;
               ProgressDisplay.new_Metric "Files / Second" fr;
               ProgressDisplay.new_Metric "Bytes / Second" br] >?
          ProgressDisplay.METRICS_COUNT) with false.
  cbn. auto.
Qed.

(** * The end of the scan *)

(** ** Waiting for a key *)

(** X24.  [end_on_input] waits through the polls that find no key and through
    the resize events, and ends the display at the first real key: with no
    resize pending, the waiting changes nothing. *)
Theorem end_on_input_first_key (ext : External) (waiting rest : list Z)
  (key : Z) (display : nat) (w : ProgressDisplay.world) :
  Forall no_key waiting ->
  ~ no_key key ->
  pending display w = false ->
  ProgressDisplay.end_on_input ext (waiting ++ key :: rest) display w =
  ProgressDisplay.end_ display w.
Proof.
  intros Hwait Hkey Hp. unfold ProgressDisplay.end_on_input, bind.
  assert (Hloop :
    ProgressDisplay.wait_for_input ext (waiting ++ key :: rest) display w =
    (w, Return tt)).
  { induction Hwait as [|k waiting Hk _ IH].
    - cbn [app ProgressDisplay.wait_for_input].
      assert (Hc : negb (key =? -1) &&
                   negb (key =? ProgressDisplay.KEY_RESIZE) = true).
      { unfold no_key in Hkey. apply andb_true_iff.
        split; apply negb_true_iff, Z.eqb_neq; intros ->; apply Hkey; auto. }
      rewrite Hc. reflexivity.
    - cbn [app ProgressDisplay.wait_for_input].
      assert (Hc : negb (k =? -1) &&
                   negb (k =? ProgressDisplay.KEY_RESIZE) = false).
      { destruct Hk as [-> | ->]; reflexivity. }
      rewrite Hc. unfold bind.
      rewrite resize_if_necessary_eq, Hp. cbn [negb]. exact IH. }
  rewrite Hloop. reflexivity.
Qed.

Lemma end_on_input_first_key_witness :
  ProgressDisplay.end_on_input plain [-1; 410; -1; 113; 113] 0 one_display =
  ProgressDisplay.end_ 0 one_display.
Proof.
  apply (end_on_input_first_key plain [-1; 410; -1] [113] 113 0 one_display).
  - apply Forall_cons. split; [left; reflexivity|].
    apply Forall_cons. split; [right; reflexivity|].
    apply Forall_cons. split; [left; reflexivity|].
    apply Forall_nil. exact I.
  - unfold no_key. intros [H | H]; discriminate.
  - reflexivity.
Defined.

(** ** The cursor at the end of the log *)

Lemma draw_content_draws ext b :
  drawable b ->
  snd (draw_content ext b) = Return tt /\ drawn (fst (draw_content ext b)).
Proof.
  unfold drawable, drawn, is_log, lines_of, offset_of, draw_content.
  destruct b as [bo ti wi po la v]. cbn [variant].
  destruct v as [m | bn | log]; intros [Hl Hlines]; try discriminate.
  destruct (draw_content_log_cases ext
              (get_border_offset (mkBox bo ti wi po la (LogBox log))) log)
    as [[Hlt _] | [_ [p Hp]]]; [lia|].
  rewrite Hp. cbn. repeat split. discriminate.
Qed.

Lemma update_draws ext b : drawable b -> drawn (fst (update ext b)).
Proof.
  intros Hd. rewrite update_eq. cbn [fst].
  apply draw_content_draws. exact Hd.
Qed.

Lemma kept_drawn b b' : kept b b' -> drawn b -> drawn b'.
Proof.
  intros Hk [Hl Ho]. split.
  - rewrite (kept_is_log _ _ Hk). exact Hl.
  - destruct Hk as [_ [_ Hk]]. apply Hk, Ho.
Qed.

Lemma drawn_log_end b : drawn b -> exists p, ProgressDisplay.log_end b = Return p.
Proof.
  intros [Hl Ho]. unfold ProgressDisplay.log_end.
  destruct (offset_of b) as [o|] eqn:Eo; [|congruence].
  rewrite (get_cursor_position_set b o Hl Eo). eexists. reflexivity.
Qed.

(** X25.  After an [update] whose lines curses accepts, the cursor that
    [_move_cursor_to_log_end] asks for is on the last line drawn, in the
    column after its last character of a bordered box: the border offset
    and the lines above it down from the position of the box, the length
    of the last line and one column for the border across. *)
Theorem log_end_behind_last_line (ext : External) (b : Box) (log : LogFields)
  (d : deque str) :
  variant b = LogBox log ->
  (forall y0 x0 s, addstr_ok ext y0 x0 s = true) ->
  _map_messages_to_lines log (get_border_offset b) = Return d ->
  let b' := fst (update ext b) in
  ProgressDisplay.log_end b' =
    Return (mkPosition
              (fst (origin b') + get_border_offset b +
               Z.max 0 (len (items d) - 1))
              (snd (origin b') + len (List.last (items d) []) + 1)).
Proof.
  intros Hv Hok Hd. cbn zeta. rewrite update_eq. cbn [fst].
  unfold draw_content. cbn [variant]. rewrite Hv.
  change (get_border_offset
            (mkBox (border b) (title b) true
               (if window b then position b else Some (mkPosition 0 0))
               (Some (size_of b)) (LogBox log)))
    with (get_border_offset b).
  rewrite (draw_content_log_accepted ext (get_border_offset b) log d Hok Hd).
  cbn [fst]. unfold ProgressDisplay.log_end, get_cursor_position, set_variant, origin.
  cbn [variant position cursor_offset with_cursor_offset y x].
  destruct (if window b then position b else Some (mkPosition 0 0)) as [p|];
    cbn [fst snd y x]; do 2 f_equal; lia.
Qed.

Lemma log_end_behind_last_line_witness :
  ProgressDisplay.log_end (fst (update plain
                  (mkBox true None false None None (LogBox small_log)))) =
  Return (mkPosition 2 6).
Proof.
  apply (log_end_behind_last_line plain
           (mkBox true None false None None (LogBox small_log)) small_log
           (mkDeque (wrapped 10 [alphabet]) (Some 3%nat))).
  - reflexivity.
  - intros y0 x0 s. reflexivity.
  - reflexivity.
Defined.

(** ** The handler of the end of the scan *)

Lemma add_message_draws ext message b :
  is_log b = true -> 0 <= lines_of b \/ offset_of b <> None ->
  snd (add_message ext message b) = Return tt /\
  drawn (fst (add_message ext message b)).
Proof.
  unfold is_log, lines_of, offset_of, add_message.
  destruct (variant b) as [m | bn | log] eqn:Ev; try discriminate.
  intros _ Hcase. split; [apply update_returns|].
  destruct Hcase as [Hlines | Hoff].
  - apply update_draws. unfold drawable, is_log, lines_of. cbn. auto.
  - eapply kept_drawn; [apply update_kept|].
    unfold drawn, is_log, offset_of. cbn. auto.
Qed.

(** X26.  [scan_finished_handler] returns on a display whose log box can be
    drawn or has been drawn: it records the results message, adds its
    closing message to the log box and nothing else to any box, and shows
    the cursor again with [curs_set(1)] as its one call to curses.  The
    registry and the mode of the terminal stay as they are. *)
Theorem scan_finished_handler_returns (ext : External) (display : nat)
  (results : str) (w : ProgressDisplay.world) :
  let d := ProgressDisplay.objects w !!! display in
  let closing :=
    list_ascii_of_string "Scan completed! Press any key to exit." in
  (display < length (ProgressDisplay.objects w))%nat ->
  (ProgressDisplay.log_box d < length (ProgressDisplay.boxes w))%nat ->
  is_log (log_of display w) = true ->
  0 <= lines_of (log_of display w) \/ offset_of (log_of display w) <> None ->
  let w' :=
    fst (ProgressDisplay.scan_finished_handler ext display (Return results) w) in
  snd (ProgressDisplay.scan_finished_handler ext display (Return results) w) =
    Return tt /\
  ProgressDisplay.results_message (ProgressDisplay.objects w' !!! display) =
    Some results /\
  ProgressDisplay.boxes w' =
    <[ProgressDisplay.log_box d :=
        fst (add_message ext closing (log_of display w))]>
      (ProgressDisplay.boxes w) /\
  calls_since w w' = [ProgressDisplay.Curs_set 1] /\
  ProgressDisplay._displays w' = ProgressDisplay._displays w /\
  ProgressDisplay.mode w' = ProgressDisplay.mode w.
Proof.
  cbn zeta. intros Hd Hb Hlog Hcase.
  destruct (add_message_draws ext
              (list_ascii_of_string "Scan completed! Press any key to exit.")
              (log_of display w) Hlog Hcase) as [Hret Hdrawn].
  destruct (drawn_log_end _ Hdrawn) as [p Hp].
  assert (Hrun :
    ProgressDisplay.scan_finished_handler ext display (Return results) w =
    (ProgressDisplay.record (ProgressDisplay.Curs_set 1)
       (ProgressDisplay.set_boxes
          (<[ProgressDisplay.log_box (ProgressDisplay.objects w !!! display) :=
               fst (add_message ext
                      (list_ascii_of_string
                         "Scan completed! Press any key to exit.")
                      (log_of display w))]> (ProgressDisplay.boxes w))
          (ProgressDisplay.set_object display
             (ProgressDisplay.set_results_message results
                (ProgressDisplay.objects w !!! display)) w)),
     Return tt)).
  { unfold ProgressDisplay.scan_finished_handler, ProgressDisplay.lift.
    unfold bind at 1. unfold bind at 1.
    unfold ProgressDisplay.on_self at 1, modify at 1.
    unfold bind at 1. unfold ProgressDisplay.self at 1, gets at 1.
    cbn [ProgressDisplay.objects ProgressDisplay.set_object].
    rewrite list_lookup_total_insert_eq by exact Hd.
    cbn [ProgressDisplay.log_box ProgressDisplay.set_results_message].
    unfold bind at 1. unfold ProgressDisplay.on_box at 1.
    cbn [ProgressDisplay.boxes ProgressDisplay.set_object].
    fold (log_of display w).
    destruct (add_message ext _ (log_of display w)) as [b' r] eqn:Ea.
    cbn [fst snd] in Hret, Hp. subst r.
    unfold bind at 1. unfold ProgressDisplay._move_cursor_to_log_end.
    unfold bind at 1. unfold ProgressDisplay.self at 1, gets at 1.
    unfold bind at 1. unfold gets at 1.
    cbn [ProgressDisplay.objects ProgressDisplay.set_object
         ProgressDisplay.set_boxes ProgressDisplay.boxes].
    rewrite list_lookup_total_insert_eq by exact Hd.
    cbn [ProgressDisplay.log_box ProgressDisplay.set_results_message].
    rewrite list_lookup_total_insert_eq by exact Hb.
    unfold bind at 1. unfold ProgressDisplay.lift. rewrite Hp.
    reflexivity. }
  rewrite Hrun. cbn [fst snd].
  split; [reflexivity|]. split.
  { cbn. rewrite list_lookup_total_insert_eq by exact Hd. reflexivity. }
  split; [reflexivity|]. split; [|split; reflexivity].
  unfold calls_since. cbn. rewrite drop_app_length. reflexivity.
Qed.

Lemma scan_finished_handler_returns_witness :
  snd (ProgressDisplay.scan_finished_handler plain 0
         (Return (list_ascii_of_string "done")) one_display) = Return tt.
Proof.
  apply (scan_finished_handler_returns plain 0
           (list_ascii_of_string "done") one_display).
  - vm_compute. lia.
  - vm_compute. lia.
  - reflexivity.
  - left. vm_compute. discriminate.
Defined.

(** ** The log box of a new display *)

Lemma kept_lines b b' : kept b b' -> lines_of b' = lines_of b.
Proof.
  intros [Hc _]. unfold content_of, lines_of in *.
  destruct (variant b) as [m | bn | l], (variant b') as [m' | bn' | l'];
    inversion Hc; reflexivity.
Qed.

Lemma kept_drawable b b' : kept b b' -> drawable b -> drawable b'.
Proof.
  intros Hk [Hl Hn]. split.
  - rewrite (kept_is_log _ _ Hk). exact Hl.
  - rewrite (kept_lines _ _ Hk). exact Hn.
Qed.

Lemma measured_drawable properties b r :
  snd (resize_for_layout properties b) = Return r ->
  drawable b -> drawable (measured properties b).
Proof.
  unfold drawable, measured, is_log, lines_of, resize_for_layout,
    resize_for_layout_log.
  destruct b as [bo ti wi po la v]. cbn [variant].
  destruct v as [m | bn | log]; intros Hr [Hl Hn]; try discriminate.
  cbn in *. destruct (Z.ltb_spec (lp_lines properties -
                                  lp_current_line properties - 2) 3);
    cbn in *; [discriminate|]. split; [reflexivity|lia].
Qed.

Lemma measure_row_drawable id row :
  forall v s s' v',
    BoxLayout.measure_row row v s = (s', Return v') ->
    drawable (BoxLayout.heap s !!! id) -> drawable (BoxLayout.heap s' !!! id).
Proof.
  induction row as [|box rest IH]; intros v s s' v' Hrun Hd.
  - cbn in Hrun. injection Hrun as <- _. exact Hd.
  - rewrite measure_row_step in Hrun. cbv zeta in Hrun.
    destruct (snd (resize_for_layout _ _)) as [r|e] eqn:Er; [|discriminate].
    assert (Hd2 : drawable
              (BoxLayout.heap
                 (BoxLayout.mkState (BoxLayout.self s)
                    (<[box := measured
                         (BoxLayout.get_layout_properties (BoxLayout.self s))
                         (BoxLayout.heap s !!! box)]> (BoxLayout.heap s)))
               !!! id)).
    { cbn [BoxLayout.heap].
      destruct (heap_insert_cases (BoxLayout.heap s) box id
                  (measured
                     (BoxLayout.get_layout_properties (BoxLayout.self s))
                     (BoxLayout.heap s !!! box)))
        as [-> | [<- [_ ->]]]; [exact Hd|].
      eapply measured_drawable; [exact Er|exact Hd]. }
    destruct (negb (len (BoxLayout.positioned v) =? 0) && _).
    + eapply IH; [exact Hrun|exact Hd2].
    + destruct (_ >? _); [discriminate|].
      eapply IH; [exact Hrun|exact Hd2].
Qed.

Lemma position_row_drawable ext id row s s' later :
  BoxLayout._position_row ext row s = (s', Return later) ->
  drawable (BoxLayout.heap s !!! id) -> drawable (BoxLayout.heap s' !!! id).
Proof.
  intros Hrun Hd. rewrite position_row_eq in Hrun.
  destruct (BoxLayout.measure_row row BoxLayout.row_vars0 s)
    as [s1 [v|e]] eqn:Em; [|discriminate].
  pose proof (measure_row_drawable id row _ _ _ _ Em Hd) as Hd1.
  cbv zeta in Hrun. destruct (_ >? _); [discriminate|].
  match type of Hrun with
  | context [BoxLayout.place_row ext ?P ?H ?p ?x0 0 0 s1] =>
      pose proof (place_row_frame ext P H p x0 0 0 s1) as Hf;
      destruct (BoxLayout.place_row ext P H p x0 0 0 s1) as [s2 [f|e]];
        [|discriminate]
  end.
  cbn zeta in Hf. cbn [fst] in Hf. destruct Hf as [_ [_ [Hk _]]].
  injection Hrun as <- _. cbn [BoxLayout.heap].
  eapply kept_drawable; [apply Hk|exact Hd1].
Qed.

Lemma position_items_drawable ext id items :
  forall row s s' row',
    BoxLayout.position_items ext items row s = (s', Return row') ->
    drawable (BoxLayout.heap s !!! id) -> drawable (BoxLayout.heap s' !!! id).
Proof.
  induction items as [|[item|] rest IH]; intros row s s' row' Hrun Hd.
  - cbn in Hrun. injection Hrun as <- _. exact Hd.
  - cbn [BoxLayout.position_items] in Hrun. eapply IH; eassumption.
  - cbn [BoxLayout.position_items] in Hrun. unfold bind in Hrun.
    destruct (BoxLayout._position_row ext row s) as [s1 [later|e]] eqn:Er;
      [|discriminate].
    eapply IH; [exact Hrun|].
    eapply position_row_drawable; eassumption.
Qed.

Lemma position_rest_drawable ext id fuel :
  forall row s s',
    BoxLayout.position_rest ext fuel row s = (s', Return tt) ->
    drawable (BoxLayout.heap s !!! id) -> drawable (BoxLayout.heap s' !!! id).
Proof.
  induction fuel as [|fuel IH]; intros row s s' Hrun Hd.
  - destruct row; [|discriminate]. cbn in Hrun. injection Hrun as <-.
    exact Hd.
  - destruct row as [|box rest].
    + cbn in Hrun. injection Hrun as <-. exact Hd.
    + cbn [BoxLayout.position_rest] in Hrun. unfold bind in Hrun.
      destruct (BoxLayout._position_row ext (box :: rest) s)
        as [s1 [later|e]] eqn:Er; [|discriminate].
      eapply IH; [exact Hrun|].
      eapply position_row_drawable; eassumption.
Qed.

Lemma position_drawable ext id s s' :
  BoxLayout.position ext s = (s', Return tt) ->
  drawable (BoxLayout.heap s !!! id) -> drawable (BoxLayout.heap s' !!! id).
Proof.
  intros Hrun Hd. rewrite position_eq in Hrun.
  destruct (BoxLayout.position_items ext _ [] s) as [s1 [row|e]] eqn:Ei;
    [|discriminate].
  pose proof (position_items_drawable ext id _ _ _ _ _ Ei Hd) as Hd1.
  destruct (BoxLayout.position_rest ext (length row) row s1)
    as [s2 [[]|e]] eqn:Er; [|discriminate].
  injection Hrun as <-. cbn [BoxLayout.heap].
  eapply position_rest_drawable; eassumption.
Qed.

(** [update_content] draws the log boxes among its items that can be
    drawn. *)
Lemma update_items_draws ext id items :
  forall s,
    (id < length (BoxLayout.heap s))%nat ->
    Some id ∈ items ->
    drawable (BoxLayout.heap s !!! id) ->
    drawn (BoxLayout.heap (fst (BoxLayout.update_items ext items s)) !!! id).
Proof.
  induction items as [|[item|] items IH]; intros s Hid Hin Hd.
  - apply elem_of_nil in Hin. contradiction.
  - cbn [BoxLayout.update_items]. unfold bind, BoxLayout.on_box.
    pose proof (update_returns ext (BoxLayout.heap s !!! item)) as Hu.
    pose proof (update_kept ext (BoxLayout.heap s !!! item)) as Hk.
    pose proof (update_draws ext (BoxLayout.heap s !!! item)) as Hdr.
    destruct (update ext (BoxLayout.heap s !!! item)) as [b' r].
    cbn [fst snd] in *. subst r.
    set (s1 := BoxLayout.mkState (BoxLayout.self s)
                 (<[item := b']> (BoxLayout.heap s))).
    destruct (decide (item = id)) as [-> | Hne].
    + destruct (update_items_frame ext items s1) as [_ [_ Hf]].
      destruct (Hf id) as [Hk1 _].
      eapply kept_drawn; [exact Hk1|].
      unfold s1. cbn [BoxLayout.heap].
      rewrite heap_insert_same by exact Hid. apply Hdr, Hd.
    + apply IH.
      * unfold s1. cbn [BoxLayout.heap]. rewrite length_insert. exact Hid.
      * apply elem_of_cons in Hin as [Heq | Hin]; [congruence|exact Hin].
      * unfold s1. cbn [BoxLayout.heap].
        rewrite heap_insert_other by exact Hne. exact Hd.
  - cbn [BoxLayout.update_items]. apply IH; [exact Hid| |exact Hd].
    apply elem_of_cons in Hin as [Heq | Hin]; [discriminate|exact Hin].
Qed.

Lemma initialize_layout_draws ext display size w w' :
  ProgressDisplay._initialize_layout ext display size w = (w', Return tt) ->
  let d := ProgressDisplay.objects w !!! display in
  (display < length (ProgressDisplay.objects w))%nat ->
  (ProgressDisplay.log_box d < length (ProgressDisplay.boxes w))%nat ->
  drawable (ProgressDisplay.boxes w !!! ProgressDisplay.log_box d) ->
  drawn (log_of display w').
Proof.
  cbn zeta. intros Hrun Hd Hb Hdr.
  unfold ProgressDisplay._initialize_layout, bind at 1 in Hrun.
  unfold ProgressDisplay.self, gets in Hrun. cbn beta iota zeta in Hrun.
  set (d := ProgressDisplay.objects w !!! display) in *.
  match type of Hrun with
  | context [bind (BoxLayout.position ext) _ ?st] => set (s0 := st) in *
  end.
  unfold bind in Hrun.
  destruct (BoxLayout.position ext s0) as [s1 [[]|e]] eqn:Ep;
    [|discriminate].
  pose proof (position_drawable ext (ProgressDisplay.log_box d) s0 s1 Ep Hdr)
    as Hdr1.
  pose proof (position_frame ext s0) as Hf. rewrite Ep in Hf.
  cbn zeta in Hf. cbn [fst] in Hf. destruct Hf as [Hfix [Hlen _]].
  unfold BoxLayout.update_content, bind, gets in Hrun.
  pose proof (update_items_returns ext
                (BoxLayout._content (BoxLayout.self s1)) s1) as Hu.
  pose proof (update_items_draws ext (ProgressDisplay.log_box d)
                (BoxLayout._content (BoxLayout.self s1)) s1) as Hdraw.
  destruct (BoxLayout.update_items ext
              (BoxLayout._content (BoxLayout.self s1)) s1) as [s2 r2].
  cbn [fst snd] in *. subst r2. injection Hrun as <-.
  unfold log_of. cbn [ProgressDisplay.objects ProgressDisplay.boxes
                      ProgressDisplay.set_object ProgressDisplay.set_boxes].
  rewrite list_lookup_total_insert_eq by exact Hd.
  cbn [ProgressDisplay.log_box ProgressDisplay.set_layout].
  apply Hdraw; [rewrite Hlen; exact Hb| |exact Hdr1].
  unfold fixed_of in Hfix. injection Hfix as _ _ _ Hc. rewrite Hc.
  unfold s0. cbn [BoxLayout.self BoxLayout._content BoxLayout.add_box].
  apply elem_of_app. right. left.
Qed.

Lemma objects_length_preserved {A} (m : M ProgressDisplay.world A) :
  preserves (fun w => ProgressDisplay.objects w) m ->
  preserves (fun w => length (ProgressDisplay.objects w)) m.
Proof. intros H w. rewrite (H w). reflexivity. Qed.

Lemma initialize_content_draws ext display size w w' :
  ProgressDisplay._initialize_content ext display size w = (w', Return tt) ->
  (display < length (ProgressDisplay.objects w))%nat ->
  drawn (log_of display w').
Proof.
  intros Hrun Hd.
  unfold ProgressDisplay._initialize_content in Hrun.
  unfold bind at 1, ProgressDisplay.clear, ProgressDisplay.do, modify in Hrun.
  set (wa := ProgressDisplay.record ProgressDisplay.Stdscr_clear w) in *.
  unfold bind at 1 in Hrun.
  assert (Hlen_banner :
    length (ProgressDisplay.objects
              (fst (ProgressDisplay._initialize_banner ext wa))) =
    length (ProgressDisplay.objects wa)).
  { unfold ProgressDisplay._initialize_banner.
    destruct (get_welcome_banner ext); reflexivity. }
  destruct (ProgressDisplay._initialize_banner ext wa)
    as [wb [banner_box|e]]; [|discriminate].
  cbn [fst] in Hlen_banner.
  unfold bind at 1, ProgressDisplay.on_self at 1, modify in Hrun.
  match type of Hrun with
  | _ ?wx = _ => set (wc := wx) in *
  end.
  unfold bind at 1 in Hrun.
  assert (Hlen_metric :
    length (ProgressDisplay.objects
              (fst (ProgressDisplay._initialize_metric_boxes ext display wc))) =
    length (ProgressDisplay.objects wc)).
  { apply (preserves_bind (fun w0 => length (ProgressDisplay.objects w0)));
      [apply preserves_self|intros d0].
    apply preserves_initialize_metric_boxes_from. reflexivity. }
  destruct (ProgressDisplay._initialize_metric_boxes ext display wc)
    as [wd [metric_boxes|e]]; [|discriminate].
  cbn [fst] in Hlen_metric.
  unfold bind at 1, ProgressDisplay.on_self at 1, modify in Hrun.
  unfold bind at 1, ProgressDisplay._initialize_log_box in Hrun.
  unfold bind at 1, ProgressDisplay.lift, ProgressDisplay.new_box in Hrun.
  cbn [new_LogBox] in Hrun.
  change (new_LogBox 10 5 0)
    with (Return (mkBox true None false None None
                    (LogBox (mkLogFields 10 5 (mkDeque [] (Some 512%nat))
                               None None)))) in Hrun.
  cbn beta iota in Hrun.
  unfold bind at 1, ProgressDisplay.on_self at 1, modify in Hrun.
  unfold bind at 1 in Hrun.
  match type of Hrun with
  | context [ProgressDisplay._initialize_layout ext display size ?wx] =>
      set (wg := wx) in *;
      pose proof (initialize_layout_draws ext display size wg) as Hlayout;
      destruct (ProgressDisplay._initialize_layout ext display size wg)
        as [wh [[]|e]]; [|discriminate]
  end.
  assert (Hdrawn : drawn (log_of display wh)).
  { assert (Hlen : (display < length (ProgressDisplay.objects wd))%nat).
    { rewrite Hlen_metric. unfold wc. cbn. rewrite length_insert.
      rewrite Hlen_banner. exact Hd. }
    apply Hlayout; [reflexivity| | |].
    - unfold wg. cbn. rewrite !length_insert. exact Hlen.
    - unfold wg. cbn.
      rewrite list_lookup_total_insert_eq by (rewrite length_insert; exact Hlen).
      cbn. rewrite length_app. cbn. lia.
    - unfold wg. cbn.
      rewrite list_lookup_total_insert_eq by (rewrite length_insert; exact Hlen).
      cbn. rewrite lookup_total_app_r by lia.
      rewrite Nat.sub_diag. cbn. split; [reflexivity|].
      unfold lines_of. cbn. lia. }
  unfold ProgressDisplay.refresh, bind, ProgressDisplay.do, modify in Hrun.
  injection Hrun as <-. exact Hdrawn.
Qed.

(** X27.  A display whose constructor returns has drawn its log box: the log
    box has its cursor offset, [get_cursor_position] returns a position
    for it and [_move_cursor_to_log_end] does not raise. *)
Theorem new_draws_log (ext : External) (worker_count : Z)
  (w w' : ProgressDisplay.world) (display : nat) :
  ProgressDisplay.new ext worker_count w = (w', Return display) ->
  drawn (log_of display w') /\
  (exists p, get_cursor_position (log_of display w') = Return p) /\
  ProgressDisplay._move_cursor_to_log_end display w' = (w', Return tt).
Proof.
  intros Hrun.
  assert (Hdrawn : drawn (log_of display w')).
  { unfold ProgressDisplay.new, bind in Hrun.
    set (n := length (ProgressDisplay.objects w)) in *.
    match type of Hrun with
    | context [ProgressDisplay._setup_curses ext n ?wx] => set (w0 := wx) in *
    end.
    set (wc := ProgressDisplay.record (ProgressDisplay.Curs_set 0)
                 (ProgressDisplay.record ProgressDisplay.Noecho
                    (ProgressDisplay.set_mode ProgressDisplay.Visual
                       (ProgressDisplay.record ProgressDisplay.Initscr w0)))).
    set (w1 := ProgressDisplay.set_object n
                 (ProgressDisplay.set_term_size
                    (ProgressDisplay.os_terminal_size wc)
                    (ProgressDisplay.objects wc !!! n)) wc).
    change (ProgressDisplay._setup_curses ext n w0)
      with (ProgressDisplay._initialize_content ext n
              (ProgressDisplay.os_terminal_size wc) w1) in Hrun.
    destruct (ProgressDisplay._initialize_content ext n
                (ProgressDisplay.os_terminal_size wc) w1)
      as [w2 [[]|e]] eqn:Ei; [|discriminate].
    unfold ret in Hrun. injection Hrun as <- <-.
    apply (initialize_content_draws ext n _ w1 w2 Ei).
    unfold w1, wc, w0. cbn. rewrite length_insert, length_app. cbn. lia. }
  split; [exact Hdrawn|].
  destruct Hdrawn as [Hl Ho].
  destruct (offset_of (log_of display w')) as [o|] eqn:Eo; [|congruence].
  pose proof (get_cursor_position_set _ o Hl Eo) as Hp.
  split; [eexists; exact Hp|].
  unfold ProgressDisplay._move_cursor_to_log_end, bind,
    ProgressDisplay.self, gets, ProgressDisplay.lift, ProgressDisplay.log_end.
  fold (log_of display w'). rewrite Hp. reflexivity.
Qed.

Lemma new_draws_log_witness :
  drawn (log_of 0 one_display) /\
  (exists p, get_cursor_position (log_of 0 one_display) = Return p) /\
  ProgressDisplay._move_cursor_to_log_end 0 one_display =
    (one_display, Return tt).
Proof.
  apply (new_draws_log plain 1 (boot 40 130) one_display 0).
  vm_compute. reflexivity.
Defined.

(** * What a progress update shows *)

Lemma get_metrics_pure {S T : Type} progress worker_index (s : S) (t : T) :
  fst (ProgressDisplay._get_metrics progress worker_index s) = s /\
  snd (ProgressDisplay._get_metrics progress worker_index s) =
  snd (ProgressDisplay._get_metrics progress worker_index t).
Proof.
  unfold ProgressDisplay._get_metrics, bind, ProgressDisplay.lift.
  destruct (ProgressDisplay.get_int_metric progress "counts" worker_index);
    [|auto].
  destruct (ProgressDisplay.get_int_metric progress "bytes" worker_index);
    [|auto].
  destruct (ProgressDisplay.get_int_metric progress "matches" worker_index);
    [|auto].
  destruct (ProgressDisplay._compute_rate _ _); [|auto].
  destruct (ProgressDisplay._compute_rate _ _); [|auto].
  destruct (_ >? _); auto.
Qed.

Lemma kept_metrics b b' :
  kept b b' -> is_metric b' = is_metric b /\ metrics_of b' = metrics_of b.
Proof.
  intros [Hc _]. unfold content_of, is_metric, metrics_of in *.
  destruct (variant b) as [m | bn | l], (variant b') as [m' | bn' | l'];
    inversion Hc; auto.
Qed.

(** The loop of [_display_metrics]: every box of an index of the loop
    ends with the metrics of its worker, and the other boxes are as they
    were. *)
Lemma display_metrics_from_assigns ext display progress indexes :
  forall w w',
    ProgressDisplay.display_metrics_from ext display progress indexes w =
      (w', Return tt) ->
    let d := ProgressDisplay.objects w !!! display in
    NoDup (ProgressDisplay.metric_boxes d) -> NoDup indexes ->
    ProgressDisplay.objects w' = ProgressDisplay.objects w /\
    length (ProgressDisplay.boxes w') = length (ProgressDisplay.boxes w) /\
    (forall index box,
       index ∈ indexes ->
       ProgressDisplay.metric_boxes d !! index = Some box ->
       (box < length (ProgressDisplay.boxes w))%nat ->
       is_metric (ProgressDisplay.boxes w !!! box) = true ->
       snd (ProgressDisplay._get_metrics progress (worker_of index) w) =
         Return (metrics_of (ProgressDisplay.boxes w' !!! box))) /\
    (forall box,
       (forall index, index ∈ indexes ->
          ProgressDisplay.metric_boxes d !! index <> Some box) ->
       ProgressDisplay.boxes w' !!! box = ProgressDisplay.boxes w !!! box).
Proof.
  induction indexes as [|index rest IH]; intros w w' Hrun; cbn zeta;
    intros Hnd Hni.
  - cbn in Hrun. injection Hrun as <-. split; [reflexivity|].
    split; [reflexivity|]. split; [|reflexivity].
    intros index box Hin. apply elem_of_nil in Hin. contradiction.
  - cbn [ProgressDisplay.display_metrics_from] in Hrun.
    unfold bind at 1, ProgressDisplay.self, gets in Hrun.
    cbn beta iota in Hrun.
    set (d := ProgressDisplay.objects w !!! display) in *.
    destruct (ProgressDisplay.metric_boxes d !! index) as [box0|] eqn:Eb;
      [|discriminate].
    fold (worker_of index) in Hrun.
    unfold bind at 1 in Hrun.
    destruct (get_metrics_pure progress (worker_of index) w w) as [Hst _].
    destruct (ProgressDisplay._get_metrics progress (worker_of index) w)
      as [w0 [metrics|e]] eqn:Em; [|discriminate].
    cbn [fst] in Hst. subst w0.
    unfold bind at 1, ProgressDisplay.on_box at 1, modify in Hrun.
    cbn beta iota in Hrun.
    unfold bind at 1, ProgressDisplay.on_box at 1 in Hrun.
    cbn [ProgressDisplay.boxes ProgressDisplay.set_boxes] in Hrun.
    set (b1 := ProgressDisplay.assign_metrics metrics
                 (ProgressDisplay.boxes w !!! box0)) in *.
    set (heap1 := <[box0 := b1]> (ProgressDisplay.boxes w)) in *.
    pose proof (update_returns ext (heap1 !!! box0)) as Hu.
    pose proof (update_kept ext (heap1 !!! box0)) as Hk.
    destruct (update ext (heap1 !!! box0)) as [b2 r2].
    cbn [fst snd] in Hu, Hk. subst r2.
    apply NoDup_cons in Hni as [Hnotin Hni].
    match type of Hrun with
    | _ ?wx = _ => set (w2 := wx) in *
    end.
    assert (Hobj : ProgressDisplay.objects w2 = ProgressDisplay.objects w)
      by reflexivity.
    specialize (IH w2 w' Hrun). cbn zeta in IH. rewrite Hobj in IH.
    fold d in IH. destruct (IH Hnd Hni) as [H1 [H2 [H3 H4]]].
    assert (Hlen2 : length (ProgressDisplay.boxes w2) =
                    length (ProgressDisplay.boxes w)).
    { unfold w2, heap1. cbn. rewrite !length_insert. reflexivity. }
    split; [congruence|]. split; [congruence|]. split.
    + intros index' box Hin Hbox Hvalid Hmetric.
      apply elem_of_cons in Hin as [-> | Hin].
      * rewrite Eb in Hbox. injection Hbox as <-.
        rewrite H4.
        -- unfold w2. cbn [ProgressDisplay.boxes ProgressDisplay.set_boxes].
           rewrite list_lookup_total_insert_eq
             by (unfold heap1; rewrite length_insert; exact Hvalid).
           destruct (kept_metrics _ _ Hk) as [_ ->].
           unfold heap1.
           rewrite list_lookup_total_insert_eq by exact Hvalid.
           rewrite Em. cbn [snd]. f_equal.
           unfold b1, ProgressDisplay.assign_metrics, metrics_of.
           unfold is_metric in Hmetric.
           destruct (variant (ProgressDisplay.boxes w !!! box0));
             try discriminate.
           reflexivity.
        -- intros i Hi Hsome.
           assert (i = index).
           { eapply NoDup_lookup; [exact Hnd|exact Hsome|exact Eb]. }
           subst i. contradiction.
      * assert (Hne : box <> box0).
        { intros ->. apply Hnotin.
          assert (index' = index).
          { eapply NoDup_lookup; [exact Hnd|exact Hbox|exact Eb]. }
          subst. exact Hin. }
        destruct (get_metrics_pure progress (worker_of index') w w2)
          as [_ ->].
        apply H3; [exact Hin|exact Hbox|congruence|].
        unfold w2, heap1.
        cbn [ProgressDisplay.boxes ProgressDisplay.set_boxes].
        rewrite !list_lookup_total_insert_ne by congruence. exact Hmetric.
    + intros box Hbox. rewrite H4.
      * assert (Hne : box0 <> box).
        { intros ->. apply (Hbox index); [left|exact Eb]. }
        unfold w2, heap1.
        cbn [ProgressDisplay.boxes ProgressDisplay.set_boxes].
        rewrite !list_lookup_total_insert_ne by exact Hne. reflexivity.
      * intros i Hi. apply Hbox. right. exact Hi.
Qed.

(** X28.  When [_display_metrics] returns, the metric box at every index up to
    the worker count shows the metrics of the update for its worker, the
    first box those of the summary, and every other box is as it was.
    (The metric boxes of the display are distinct boxes.) *)
Theorem display_metrics_shows_update (ext : External) (display : nat)
  (progress : ProgressDisplay.ScanProgressUpdate)
  (w w' : ProgressDisplay.world) :
  ProgressDisplay._display_metrics ext display progress w = (w', Return tt) ->
  let d := ProgressDisplay.objects w !!! display in
  NoDup (ProgressDisplay.metric_boxes d) ->
  (forall index box,
     Z.of_nat index <= ProgressDisplay.worker_count d ->
     ProgressDisplay.metric_boxes d !! index = Some box ->
     (box < length (ProgressDisplay.boxes w))%nat ->
     is_metric (ProgressDisplay.boxes w !!! box) = true ->
     snd (ProgressDisplay._get_metrics progress (worker_of index) w) =
       Return (metrics_of (ProgressDisplay.boxes w' !!! box))) /\
  (forall box,
     box ∉ ProgressDisplay.metric_boxes d ->
     ProgressDisplay.boxes w' !!! box = ProgressDisplay.boxes w !!! box).
Proof.
  intros Hrun. cbn zeta. intros Hnd.
  unfold ProgressDisplay._display_metrics, bind at 1,
    ProgressDisplay.self, gets in Hrun. cbn beta iota in Hrun.
  destruct (display_metrics_from_assigns ext display progress _ w w' Hrun Hnd)
    as [_ [_ [H3 H4]]]; [apply NoDup_seq|].
  split.
  - intros index box Hindex. apply H3. apply elem_of_seq. lia.
  - intros box Hbox. apply H4. intros index _ Hsome. apply Hbox.
    eapply list_elem_of_lookup_2. exact Hsome.
Qed.

Lemma display_metrics_shows_update_witness :
  let progress := ProgressDisplay.mkUpdate four (fun _ _ => Return 10) in
  let w' :=
    fst (ProgressDisplay._display_metrics plain 0 progress one_display) in
  let d := ProgressDisplay.objects one_display !!! 0%nat in
  (forall index box,
     Z.of_nat index <= ProgressDisplay.worker_count d ->
     ProgressDisplay.metric_boxes d !! index = Some box ->
     (box < length (ProgressDisplay.boxes one_display))%nat ->
     is_metric (ProgressDisplay.boxes one_display !!! box) = true ->
     snd (ProgressDisplay._get_metrics progress (worker_of index) one_display) =
       Return (metrics_of (ProgressDisplay.boxes w' !!! box))) /\
  (forall box,
     box ∉ ProgressDisplay.metric_boxes d ->
     ProgressDisplay.boxes w' !!! box =
     ProgressDisplay.boxes one_display !!! box).
Proof.
  intros progress w' d.
  apply (display_metrics_shows_update plain 0 progress one_display w').
  - vm_compute. reflexivity.
  - change (NoDup [0%nat; 1%nat]). apply NoDup_two.
Defined.

(** * The metric boxes of a new display *)

Lemma get_metrics_count {S : Type} progress worker_index (s s' : S) metrics :
  ProgressDisplay._get_metrics progress worker_index s = (s', Return metrics) ->
  s' = s /\ len metrics = 5.
Proof.
  unfold ProgressDisplay._get_metrics, bind, ProgressDisplay.lift.
  destruct (ProgressDisplay.get_int_metric progress "counts" worker_index);
    [|discriminate].
  destruct (ProgressDisplay.get_int_metric progress "bytes" worker_index);
    [|discriminate].
  destruct (ProgressDisplay.get_int_metric progress "matches" worker_index);
    [|discriminate].
  destruct (ProgressDisplay._compute_rate _ _); [|discriminate].
  destruct (ProgressDisplay._compute_rate _ _); [|discriminate].
  match goal with
  | |- context [?a >? ?b] => change (a >? b) with false
  end.
  cbn. intros H. injection H as <- <-. auto.
Qed.

(** The loop of [_initialize_metric_boxes] allocates one box for every
    index, a bordered metric box of five metrics, after the boxes there
    are, and returns their identities in order. *)
Lemma initialize_metric_boxes_from_spec default_update indexes :
  forall acc w w' result,
    ProgressDisplay.initialize_metric_boxes_from default_update indexes acc w =
      (w', Return result) ->
    ProgressDisplay.objects w' = ProgressDisplay.objects w /\
    result = acc ++ seq (length (ProgressDisplay.boxes w)) (length indexes) /\
    exists fresh,
      ProgressDisplay.boxes w' = ProgressDisplay.boxes w ++ fresh /\
      length fresh = length indexes /\
      Forall (fun b => is_metric b = true /\ size_of b = (7, 41)) fresh.
Proof.
  induction indexes as [|index rest IH]; intros acc w w' result Hrun.
  - cbn in Hrun. injection Hrun as <- <-. split; [reflexivity|].
    split; [cbn; rewrite app_nil_r; reflexivity|].
    exists []. rewrite app_nil_r. repeat split. constructor.
  - cbn [ProgressDisplay.initialize_metric_boxes_from] in Hrun.
    unfold bind at 1 in Hrun.
    destruct (ProgressDisplay._get_metrics default_update _ w)
      as [w0 [metrics|e]] eqn:Em; [|discriminate].
    apply get_metrics_count in Em as [-> Hcount].
    unfold bind at 1, ProgressDisplay.new_box at 1 in Hrun.
    cbn beta iota in Hrun.
    apply IH in Hrun as [Hobj [Hres [fresh [Hboxes [Hlen Hall]]]]].
    cbn [ProgressDisplay.objects ProgressDisplay.boxes
         ProgressDisplay.set_boxes] in *.
    split; [exact Hobj|]. split.
    + rewrite Hres, length_app, <- app_assoc. cbn [length seq app].
      rewrite Nat.add_1_r. reflexivity.
    + eexists (_ :: fresh). split; [rewrite Hboxes, <- app_assoc; reflexivity|].
      split; [cbn; rewrite Hlen; reflexivity|].
      constructor; [|exact Hall]. split; [reflexivity|].
      unfold size_of, new_MetricBox, get_height, get_width. cbn.
      unfold METRIC_BOX_WIDTH. f_equal. lia.
Qed.

Lemma static_metric b b' :
  static_of b' = static_of b -> is_metric b = true ->
  is_metric b' = true /\ size_of b' = size_of b.
Proof.
  unfold static_of, is_metric, size_of, get_height, get_width.
  destruct b as [bo ti wi po la v], b' as [bo' ti' wi' po' la' v']. cbn.
  destruct v, v'; intros H Hm; inversion H; subst; try discriminate; auto.
Qed.

Lemma initialize_layout_static ext display size w w' :
  ProgressDisplay._initialize_layout ext display size w = (w', Return tt) ->
  (display < length (ProgressDisplay.objects w))%nat ->
  ProgressDisplay.metric_boxes (ProgressDisplay.objects w' !!! display) =
    ProgressDisplay.metric_boxes (ProgressDisplay.objects w !!! display) /\
  ProgressDisplay.worker_count (ProgressDisplay.objects w' !!! display) =
    ProgressDisplay.worker_count (ProgressDisplay.objects w !!! display) /\
  length (ProgressDisplay.boxes w') = length (ProgressDisplay.boxes w) /\
  forall id,
    static_of (ProgressDisplay.boxes w' !!! id) =
    static_of (ProgressDisplay.boxes w !!! id).
Proof.
  intros Hrun Hd.
  unfold ProgressDisplay._initialize_layout, bind at 1 in Hrun.
  unfold ProgressDisplay.self, gets in Hrun. cbn beta iota zeta in Hrun.
  match type of Hrun with
  | context [bind (BoxLayout.position ext) _ ?st] => set (s0 := st) in *
  end.
  unfold bind in Hrun.
  pose proof (position_frame ext s0) as Hf.
  destruct (BoxLayout.position ext s0) as [s1 [[]|e]]; [|discriminate].
  cbn zeta in Hf. cbn [fst] in Hf. destruct Hf as [_ [Hlen Hst]].
  unfold BoxLayout.update_content, bind, gets in Hrun.
  pose proof (update_items_returns ext
                (BoxLayout._content (BoxLayout.self s1)) s1) as Hu.
  destruct (update_items_frame ext
              (BoxLayout._content (BoxLayout.self s1)) s1) as [_ [Hlen2 Hk]].
  destruct (BoxLayout.update_items ext
              (BoxLayout._content (BoxLayout.self s1)) s1) as [s2 r2].
  cbn [fst snd] in *. subst r2. injection Hrun as <-.
  cbn [ProgressDisplay.objects ProgressDisplay.boxes
       ProgressDisplay.set_object ProgressDisplay.set_boxes].
  rewrite list_lookup_total_insert_eq by exact Hd.
  split; [reflexivity|]. split; [reflexivity|].
  split; [rewrite Hlen2, Hlen; reflexivity|].
  intros id. destruct (Hk id) as [Hkept _].
  rewrite (kept_static _ _ Hkept). apply Hst.
Qed.

Lemma initialize_content_metric_boxes ext display size w w' :
  ProgressDisplay._initialize_content ext display size w = (w', Return tt) ->
  (display < length (ProgressDisplay.objects w))%nat ->
  let d := ProgressDisplay.objects w !!! display in
  let d' := ProgressDisplay.objects w' !!! display in
  ProgressDisplay.worker_count d' = ProgressDisplay.worker_count d /\
  length (ProgressDisplay.metric_boxes d') =
    Z.to_nat (ProgressDisplay.worker_count d + 1) /\
  NoDup (ProgressDisplay.metric_boxes d') /\
  forall box, box ∈ ProgressDisplay.metric_boxes d' ->
    (box < length (ProgressDisplay.boxes w'))%nat /\
    is_metric (ProgressDisplay.boxes w' !!! box) = true /\
    size_of (ProgressDisplay.boxes w' !!! box) = (7, 41).
Proof.
  intros Hrun Hd. cbn zeta.
  unfold ProgressDisplay._initialize_content in Hrun.
  unfold bind at 1, ProgressDisplay.clear, ProgressDisplay.do, modify in Hrun.
  set (wa := ProgressDisplay.record ProgressDisplay.Stdscr_clear w) in *.
  unfold bind at 1 in Hrun.
  assert (Hbanner :
    ProgressDisplay.objects
      (fst (ProgressDisplay._initialize_banner ext wa)) =
    ProgressDisplay.objects wa).
  { unfold ProgressDisplay._initialize_banner.
    destruct (get_welcome_banner ext); reflexivity. }
  destruct (ProgressDisplay._initialize_banner ext wa)
    as [wb [banner_box|e]]; [|discriminate].
  cbn [fst] in Hbanner.
  unfold bind at 1, ProgressDisplay.on_self at 1, modify in Hrun.
  match type of Hrun with
  | _ ?wx = _ => set (wc := wx) in *
  end.
  assert (Hdc : (display < length (ProgressDisplay.objects wc))%nat).
  { unfold wc. cbn. rewrite length_insert, Hbanner. exact Hd. }
  assert (Hwc : ProgressDisplay.worker_count
                  (ProgressDisplay.objects wc !!! display) =
                ProgressDisplay.worker_count
                  (ProgressDisplay.objects w !!! display)).
  { unfold wc. cbn.
    rewrite list_lookup_total_insert_eq by (rewrite Hbanner; exact Hd).
    cbn. rewrite Hbanner. reflexivity. }
  unfold bind at 1 in Hrun.
  destruct (ProgressDisplay._initialize_metric_boxes ext display wc)
    as [wd [metric_boxes|e]] eqn:Emb; [|discriminate].
  unfold ProgressDisplay._initialize_metric_boxes, bind at 1,
    ProgressDisplay.self, gets in Emb. cbn beta iota in Emb.
  apply initialize_metric_boxes_from_spec in Emb
    as [Hobj [Hres [fresh [Hboxes [Hlen Hall]]]]].
  rewrite length_seq in Hlen, Hres. cbn [app] in Hres.
  unfold bind at 1, ProgressDisplay.on_self at 1, modify in Hrun.
  unfold bind at 1, ProgressDisplay._initialize_log_box in Hrun.
  unfold bind at 1, ProgressDisplay.lift, ProgressDisplay.new_box in Hrun.
  change (new_LogBox 10 5 0)
    with (Return (mkBox true None false None None
                    (LogBox (mkLogFields 10 5 (mkDeque [] (Some 512%nat))
                               None None)))) in Hrun.
  cbn beta iota in Hrun.
  unfold bind at 1, ProgressDisplay.on_self at 1, modify in Hrun.
  unfold bind at 1 in Hrun.
  match type of Hrun with
  | context [ProgressDisplay._initialize_layout ext display size ?wx] =>
      set (wg := wx) in *;
      pose proof (initialize_layout_static ext display size wg) as Hlayout;
      destruct (ProgressDisplay._initialize_layout ext display size wg)
        as [wh [[]|e]]; [|discriminate]
  end.
  assert (Hdd : (display < length (ProgressDisplay.objects wd))%nat)
    by (rewrite Hobj; exact Hdc).
  destruct (Hlayout wh eq_refl) as [Hmb [Hcount [Hlenb Hstatic]]].
  { unfold wg. cbn. rewrite !length_insert. exact Hdd. }
  unfold ProgressDisplay.refresh, bind, ProgressDisplay.do, modify in Hrun.
  injection Hrun as <-.
  cbn [ProgressDisplay.objects ProgressDisplay.boxes ProgressDisplay.record].
  assert (Hmbg : ProgressDisplay.metric_boxes
                   (ProgressDisplay.objects wg !!! display) = metric_boxes).
  { unfold wg. cbn.
    rewrite list_lookup_total_insert_eq by (rewrite length_insert; exact Hdd).
    cbn. rewrite list_lookup_total_insert_eq by exact Hdd. reflexivity. }
  assert (Hwcg : ProgressDisplay.worker_count
                   (ProgressDisplay.objects wg !!! display) =
                 ProgressDisplay.worker_count
                   (ProgressDisplay.objects w !!! display)).
  { unfold wg. cbn.
    rewrite list_lookup_total_insert_eq by (rewrite length_insert; exact Hdd).
    cbn. rewrite list_lookup_total_insert_eq by exact Hdd. cbn.
    rewrite Hobj. exact Hwc. }
  rewrite Hmb, Hcount, Hmbg, Hwcg.
  split; [reflexivity|]. split.
  { rewrite Hres, length_seq, Hwc. reflexivity. }
  split; [rewrite Hres; apply NoDup_seq|].
  intros box Hin. rewrite Hres in Hin. apply elem_of_seq in Hin.
  assert (Hboxg : ProgressDisplay.boxes wg =
                  (ProgressDisplay.boxes wc ++ fresh) ++
                  [mkBox true None false None None
                     (LogBox (mkLogFields 10 5 (mkDeque [] (Some 512%nat))
                                None None))]).
  { unfold wg. cbn. rewrite Hboxes. reflexivity. }
  assert (Hfresh : exists b, fresh !! (box - length (ProgressDisplay.boxes wc))%nat = Some b).
  { apply lookup_lt_is_Some_2. rewrite <- Hlen in Hin. lia. }
  destruct Hfresh as [b Hb].
  assert (Hlook : ProgressDisplay.boxes wg !!! box = b).
  { rewrite Hboxg. apply list_lookup_total_correct.
    rewrite lookup_app_l by (rewrite length_app; lia).
    rewrite lookup_app_r by lia. exact Hb. }
  pose proof (proj1 (Forall_forall _ _) Hall b
                (list_elem_of_lookup_2 _ _ _ Hb)) as [Hm Hs].
  split.
  { rewrite Hlenb, Hboxg, !length_app. cbn [length]. lia. }
  rewrite <- Hlook in Hm, Hs.
  destruct (static_metric _ _ (Hstatic box) Hm) as [Hm' Hs'].
  split; [exact Hm'|]. rewrite Hs'. exact Hs.
Qed.

(** X29.  A display whose constructor returns for [worker_count] workers has
    [worker_count + 1] metric boxes (none for a negative count), all
    distinct, and each is a bordered box of five metrics: 7 lines by 41
    columns. *)
Theorem new_metric_boxes (ext : External) (worker_count : Z)
  (w w' : ProgressDisplay.world) (display : nat) :
  ProgressDisplay.new ext worker_count w = (w', Return display) ->
  let d := ProgressDisplay.objects w' !!! display in
  ProgressDisplay.worker_count d = worker_count /\
  length (ProgressDisplay.metric_boxes d) = Z.to_nat (worker_count + 1) /\
  NoDup (ProgressDisplay.metric_boxes d) /\
  forall box, box ∈ ProgressDisplay.metric_boxes d ->
    (box < length (ProgressDisplay.boxes w'))%nat /\
    is_metric (ProgressDisplay.boxes w' !!! box) = true /\
    size_of (ProgressDisplay.boxes w' !!! box) = (7, 41).
Proof.
  intros Hrun. cbn zeta.
  unfold ProgressDisplay.new, bind in Hrun.
  set (n := length (ProgressDisplay.objects w)) in *.
  match type of Hrun with
  | context [ProgressDisplay._setup_curses ext n ?wx] => set (w0 := wx) in *
  end.
  set (wc := ProgressDisplay.record (ProgressDisplay.Curs_set 0)
               (ProgressDisplay.record ProgressDisplay.Noecho
                  (ProgressDisplay.set_mode ProgressDisplay.Visual
                     (ProgressDisplay.record ProgressDisplay.Initscr w0)))).
  set (w1 := ProgressDisplay.set_object n
               (ProgressDisplay.set_term_size
                  (ProgressDisplay.os_terminal_size wc)
                  (ProgressDisplay.objects wc !!! n)) wc).
  change (ProgressDisplay._setup_curses ext n w0)
    with (ProgressDisplay._initialize_content ext n
            (ProgressDisplay.os_terminal_size wc) w1) in Hrun.
  destruct (ProgressDisplay._initialize_content ext n
              (ProgressDisplay.os_terminal_size wc) w1)
    as [w2 [[]|e]] eqn:Ei; [|discriminate].
  unfold ret in Hrun. injection Hrun as <- <-.
  assert (Hn : (n < length (ProgressDisplay.objects w1))%nat).
  { unfold w1, wc, w0. cbn. rewrite length_insert, length_app. cbn. lia. }
  destruct (initialize_content_metric_boxes ext n _ w1 w2 Ei Hn)
    as [H1 [H2 [H3 H4]]].
  assert (Hwc : ProgressDisplay.worker_count
                  (ProgressDisplay.objects w1 !!! n) = worker_count).
  { unfold w1, wc, w0. cbn.
    rewrite list_lookup_total_insert_eq
      by (rewrite length_app; cbn; lia).
    cbn. rewrite lookup_total_app_r by lia.
    unfold n. rewrite Nat.sub_diag. reflexivity. }
  rewrite Hwc in H1, H2. auto.
Qed.

Lemma new_metric_boxes_witness :
  let d := ProgressDisplay.objects one_display !!! 0%nat in
  ProgressDisplay.worker_count d = 1 /\
  length (ProgressDisplay.metric_boxes d) = Z.to_nat (1 + 1) /\
  NoDup (ProgressDisplay.metric_boxes d) /\
  forall box, box ∈ ProgressDisplay.metric_boxes d ->
    (box < length (ProgressDisplay.boxes one_display))%nat /\
    is_metric (ProgressDisplay.boxes one_display !!! box) = true /\
    size_of (ProgressDisplay.boxes one_display !!! box) = (7, 41).
Proof.
  apply (new_metric_boxes plain 1 (boot 40 130) one_display 0).
  vm_compute. reflexivity.
Defined.
